(** * Shipwrecked: hour approval and shell pricing

    A shallow embedding of the review endpoint
    ([src/app/api/review/route.ts], [GET]: the hour-approval aggregation
    and the list it answers), of the projects endpoint
    ([src/app/api/projects/route.ts]: [GET], [POST], [PUT] and [DELETE])
    and of the shop administration page ([ShopItemsPage]: the price
    computations, the form, the statistics and the global configuration).

    ECMAScript numbers are IEEE-754 binary64 values; they are embedded as
    Rocq's primitive floats, whose operations are specified by the
    [SpecFloat] model of the standard library.

    The file has two parts: the model (definitions translated from the
    source), then the facts proved about it. *)

From Stdlib Require Import ZArith QArith Qround Floats List Bool Lia Lqa String Permutation Sorted.
From stdpp Require Import base list gmap strings.

(** * Part I: the model *)

(** ** ECMAScript numbers and values *)

Module Number.

Local Open Scope float_scope.

Abbreviation number := float.

(** [isNaN(x)] *)
Definition isNaN (x : number) : bool := is_nan x.

(** [Math.min(a, b)]: NaN when an argument is NaN, and [-0] is below [+0]. *)
Definition Math_min (a b : number) : number :=
  if is_nan a || is_nan b then nan
  else if a <? b then a
  else if b <? a then b
  else if get_sign a then a else b.

(** [Math.round(x)]: the integer closest to [x], a tie going towards [+∞];
    NaN, the infinities and the zeros are returned unchanged, and a number
    in [[-0.5, 0)] gives [-0]. For [x = ± m * 2 ^ e] with [e < 0] it is
    [floor ((± 2 m + 2 ^ -e) / 2 ^ (1 - e))], computed on integers. *)
Definition Math_round (x : number) : number :=
  match Prim2SF x with
  | S754_finite s m e =>
      if (0 <=? e)%Z then x
      else
        match Z.shiftr (2 * cond_Zopp s (Zpos m) + 2 ^ (- e)) (1 - e) with
        | Z0 => if s then neg_zero else zero
        | Zpos p => of_uint63 (Uint63.of_Z (Zpos p))
        | Zneg p => - of_uint63 (Uint63.of_Z (Zpos p))
        end
  | _ => x
  end.

(** [const phi = (1 + Math.sqrt(5)) / 2] *)
Definition phi : number := (1 + sqrt 5) / 2.

(** *** Signs and order of binary64 numbers

    The predicates below speak of the [SpecFloat] view of a number; the
    facts of the second part are stated with them. *)

(** [has_sign s x]: [x] is a zero, a finite number or an infinity whose sign
    bit is [s]; NaN has no sign. *)
Definition has_sign (s : bool) (x : spec_float) : Prop :=
  match x with
  | S754_zero s' | S754_infinity s' | S754_finite s' _ _ => s' = s
  | S754_nan => False
  end.

(** [is_pos x]: a positive finite number or [+∞]; [is_neg x]: a negative
    finite number or [-∞]. *)
Definition is_pos (x : spec_float) : Prop :=
  match x with
  | S754_finite false _ _ | S754_infinity false => True
  | _ => False
  end.

Definition is_neg (x : spec_float) : Prop :=
  match x with
  | S754_finite true _ _ | S754_infinity true => True
  | _ => False
  end.

(** The integer [aligned s m e ez] is the value of [S754_finite s m e]
    counted in units of [2 ^ ez]. *)
Definition aligned (s : bool) (m : positive) (e ez : Z) : Z :=
  cond_Zopp s (Zpos (fst (shl_align m e ez))).

(** A key whose lexicographic order is the order of the numbers: the class
    and sign first, then the exponent, then the mantissa. *)
Definition rank (x : spec_float) : Z * Z * Z :=
  match x with
  | S754_infinity true => (-2, 0, 0)%Z
  | S754_finite true m e => (-1, - e, Zneg m)%Z
  | S754_zero _ | S754_nan => (0, 0, 0)%Z
  | S754_finite false m e => (1, e, Zpos m)%Z
  | S754_infinity false => (2, 0, 0)%Z
  end.

Definition lex3 (a b : Z * Z * Z) : comparison :=
  match (a.1.1 ?= b.1.1)%Z with
  | Eq => match (a.1.2 ?= b.1.2)%Z with
          | Eq => (a.2 ?= b.2)%Z
          | c => c
          end
  | c => c
  end.

(** [nonneg x]: [x] is [+0], a positive number or [+∞] (neither NaN nor
    [-0]). *)
Definition nonneg (x : number) : Prop := has_sign false (Prim2SF x).

(** [above_zero x]: [x] is a positive number or [+∞]. *)
Definition above_zero (x : number) : Prop := is_pos (Prim2SF x).

(** [is_integer x]: [x] is a zero or a finite number [± m * 2 ^ e] without
    a fractional part. *)
Definition is_integer (x : number) : Prop :=
  match Prim2SF x with
  | S754_zero _ => True
  | S754_finite _ m e => (0 <= e)%Z \/ (2 ^ (- e) | Zpos m)%Z
  | _ => False
  end.

End Number.

Module JS.

Import Number.

(** The values a parsed JSON document or a database column holds, as far as
    the code inspects them: the primitive values (nested objects and arrays
    are not modelled). *)
Inductive value :=
| JUndefined
| JNull
| JBool (b : bool)
| JNum (n : number)
| JStr (s : string).

(** [typeof v === 'number'] *)
Definition is_number (v : value) : bool :=
  match v with JNum _ => true | _ => false end.

(** [v !== undefined && v !== null] *)
Definition is_present (v : value) : bool :=
  match v with JUndefined | JNull => false | _ => true end.

(** [v !== undefined] *)
Definition is_defined (v : value) : bool :=
  match v with JUndefined => false | _ => true end.

(** ToBoolean: what [if (v)] and [v && ...] test. *)
Definition truthy (v : value) : bool :=
  match v with
  | JUndefined | JNull => false
  | JBool b => b
  | JNum n => negb (is_zero n || is_nan n)
  | JStr s => negb (String.eqb s "")
  end.

(** An object used as a map from property names to values, and the read
    [obj.key] ([undefined] when the property is absent). *)
Abbreviation object := (gmap string value).

Definition prop (obj : object) (key : string) : value :=
  default JUndefined (obj !! key).

Section Conversions.

(** What the runtime makes of a string: [parseFloat(s)] and the number
    conversion [ToNumber(s)] that arithmetic applies to a string operand. *)
Variable parseFloat : string -> number.
Variable StringToNumber : string -> number.

(** [parseFloat(v as string)]: the argument is converted to a string first;
    a number prints in a form that reads back as itself ([-0] prints as
    [0]), and [true], [false], [null] and [undefined] print as words that
    are no number. *)
Definition parseFloatOf (v : value) : number :=
  match v with
  | JNum n => if is_zero n then zero else n
  | JStr s => parseFloat s
  | JUndefined | JNull | JBool _ => nan
  end.

(** ToNumber: the conversion of an operand of [*]. *)
Definition ToNumber (v : value) : number :=
  match v with
  | JUndefined => nan
  | JNull => zero
  | JBool b => if b then one else zero
  | JNum n => n
  | JStr s => StringToNumber s
  end.

End Conversions.

(** The outcome of a call that may throw. *)
Inductive outcome (A : Type) :=
| Returned (a : A)
| Thrown (error : string).

Arguments Returned {A} a.
Arguments Thrown {A} error.

Definition bind {A B} (m : outcome A) (k : A -> outcome B) : outcome B :=
  match m with
  | Returned a => k a
  | Thrown e => Thrown e
  end.

(** [try { ... } catch { fallback }] around a computation of a value. *)
Definition catch {A} (m : outcome A) (fallback : A) : A :=
  match m with
  | Returned a => a
  | Thrown _ => fallback
  end.

Notation "'do' x <- m ; k" := (bind m (fun x => k))
  (at level 10, x name, m at level 100, k at level 200).

Fixpoint mapM {A B} (f : A -> outcome B) (l : list A) : outcome (list B) :=
  match l with
  | [] => Returned []
  | x :: l' => do y <- f x; do ys <- mapM f l'; Returned (y :: ys)
  end.

Fixpoint foldM {A B} (f : B -> A -> outcome B) (acc : B) (l : list A) : outcome B :=
  match l with
  | [] => Returned acc
  | x :: l' => do acc' <- f acc x; foldM f acc' l'
  end.

Section ArraySort.

Context {A : Type}.

(** [array.sort(compareFn)]: the sort is stable, and a comparator result
    that is NaN counts as [+0]. An element moves behind another one only
    when the comparator puts it there ([compareFn(x, y) > 0]); elements are
    inserted from the last to the first, so that equal elements keep their
    order. *)
Variable compareFn : A -> A -> number.

Fixpoint insert (x : A) (sorted : list A) : list A :=
  match sorted with
  | [] => [x]
  | y :: rest =>
      if (0 <? compareFn x y)%float then y :: insert x rest else x :: sorted
  end.

Definition sort (array : list A) : list A := foldr insert [] array.

End ArraySort.

(** The comparator [(a, b) => key(b) - key(a)] of a descending sort, and
    the order it aims at: [a] may stand before [b] when the key of [b] is
    at most the key of [a]. *)
Definition descendingBy {A : Type} (key : A -> number) (a b : A) : number :=
  (key b - key a)%float.

Definition orderedBy {A : Type} (key : A -> number) (a b : A) : Prop :=
  (key b <=? key a)%float = true.

End JS.

(** ** The database rows the endpoints read *)

Module Schema.

Import Number JS.

(** A tracked-time link. The columns are numbers ([hoursOverride] may be
    null); the code tests their type, so they are kept as values. *)
Record HackatimeProjectLink := {
  link_id : string;
  hackatimeName : string;
  rawHours : value;
  hoursOverride : value
}.

Record Project := {
  projectID : string;
  userId : string;
  viral : bool;
  shipped : bool;
  hackatimeLinks : list HackatimeProjectLink
}.

(** The session user: [user.id], [user.role] and [user.isAdmin]. *)
Record User := {
  user_id : string;
  role : string;
  isAdminFlag : bool
}.

End Schema.

(** ** The review endpoint: approved hours of the owners of projects in
    review ([src/app/api/review/route.ts], [GET], lines 96-148) *)

Module Review.

Import Number JS Schema.
Local Open Scope float_scope.

(** [{ project, hours }] *)
Record ProjectWithHours := {
  project : Project;
  hours : number
}.

(** [(a, b) => b.hours - a.hours] *)
Definition byHoursDescending (a b : ProjectWithHours) : number :=
  hours b - hours a.

(** The value of [contributedHours] at the end of the callback of
    [projectsWithHours.forEach], lines 114-139. *)
Definition contributedHours (p : Project) (projectApprovedHours : number) : number :=
  if viral p && (0 <? projectApprovedHours) then
    Math_min projectApprovedHours 15
  else if shipped p && (0 <? projectApprovedHours) then
    Math_min projectApprovedHours 15
  else if negb (shipped p) && negb (viral p) then
    if 0 <? projectApprovedHours then Math_min projectApprovedHours 15 else 0
  else 0.

(** One run of the callback: the new value of [userApprovedHours]. The
    callback adds [contributedHours] in the branches that set it to a
    capped value and leaves the sum alone in the others. *)
Definition addContribution (userApprovedHours : number) (p : Project)
    (projectApprovedHours : number) : number :=
  if viral p && (0 <? projectApprovedHours) then
    userApprovedHours + Math_min projectApprovedHours 15
  else if shipped p && (0 <? projectApprovedHours) then
    userApprovedHours + Math_min projectApprovedHours 15
  else if negb (shipped p) && negb (viral p) then
    if 0 <? projectApprovedHours then
      userApprovedHours + Math_min projectApprovedHours 15
    else userApprovedHours
  else userApprovedHours.

Section Aggregation.

(** [getProjectHackatimeHours] and [getProjectApprovedHours] are imported
    from [@/lib/project-client]; the aggregation is stated for any two such
    functions. *)
Variable getProjectHackatimeHours : Project -> number.
Variable getProjectApprovedHours : Project -> number.

(** Lines 105-112: [userProjects.map(...).sort(...).slice(0, 4)]. *)
Definition withHours (p : Project) : ProjectWithHours :=
  {| project := p; hours := getProjectHackatimeHours p |}.

Definition rankedProjects (userProjects : list Project) : list ProjectWithHours :=
  sort byHoursDescending (map withHours userProjects).

Definition projectsWithHours (userProjects : list Project) : list ProjectWithHours :=
  take 4 (rankedProjects userProjects).

(** Lines 104 and 114-139: the sum after the [forEach]. *)
Definition userApprovedHours (userProjects : list Project) : number :=
  foldl (fun acc pw =>
           addContribution acc (project pw) (getProjectApprovedHours (project pw)))
        0 (projectsWithHours userProjects).

(** Line 141: [const finalHours = Math.min(userApprovedHours, 60)], the
    approved hours of the user. *)
Definition finalHours (userProjects : list Project) : number :=
  Math_min (userApprovedHours userProjects) 60.

End Aggregation.

Section Batch.

(** The body of the [try], where the query and the two helpers may throw. *)
Variable findMany : string -> outcome (list Project).
Variable getProjectHackatimeHours : Project -> outcome number.
Variable getProjectApprovedHours : Project -> outcome number.

Definition tryFinalHours (userId : string) : outcome number :=
  do userProjects <- findMany userId;
  do allWithHours <-
    mapM (fun p => do h <- getProjectHackatimeHours p;
                   Returned {| project := p; hours := h |}) userProjects;
  let projectsWithHours := take 4 (sort byHoursDescending allWithHours) in
  do userApprovedHours <-
    foldM (fun acc pw => do approved <- getProjectApprovedHours (project pw);
                         Returned (addContribution acc (project pw) approved))
          0 projectsWithHours;
  Returned (Math_min userApprovedHours 60).

(** One turn of [for (const userId of userIds)], with its [catch]. *)
Definition processUser (userProjectsMap : gmap string number) (userId : string)
    : gmap string number :=
  <[userId := catch (tryFinalHours userId) 0]> userProjectsMap.

Definition userProjectsMap (userIds : list string) : gmap string number :=
  foldl processUser ∅ userIds.

(** Line 169: [userProjectsMap[project.userId] || 0]. *)
Definition ownerApprovedHours (userIds : list string) (owner : string) : number :=
  match userProjectsMap userIds !! owner with
  | Some h => if truthy (JNum h) then h else 0
  | None => 0
  end.

End Batch.

End Review.

(** ** The projects endpoint ([src/app/api/projects/route.ts]) *)

Module Projects.

Import Number JS Schema.

(** [GET], lines 86-96: the hours one link counts for. *)
Definition effectiveHours (link : HackatimeProjectLink) : value :=
  if is_present (hoursOverride link) then hoursOverride link
  else if is_number (rawHours link) then rawHours link
  else JNum 0.

(** [PUT], lines 561-590: the field lists and the caller's roles. *)
Definition userUpdateableFields : list string :=
  ["name"; "description"; "codeUrl"; "playableUrl"; "screenshot"; "chat_enabled"].

Definition adminOnlyFields : list string := ["shipped"; "viral"].

Definition reviewerUpdateableFields : list string :=
  "in_review" :: userUpdateableFields.

Definition nonUpdateableFields : list string := ["hackatimeName"].

Definition includes (fields : list string) (key : string) : bool :=
  existsb (String.eqb key) fields.

(** [user.role === "Admin" || user.isAdmin === true] *)
Definition isAdmin (user : User) : bool :=
  String.eqb (role user) "Admin" || isAdminFlag user.

(** [user.role === "Reviewer"] *)
Definition isReviewer (user : User) : bool :=
  String.eqb (role user) "Reviewer".

(** The parsed request:
    [let { projectID, hackatimeLinkOverrides, ...updateFields } = projectData].
    [hackatimeLinkOverrides] is [None] when it is missing, and otherwise
    the entries of the object in their order. *)
Record Request := {
  req_projectID : string;
  hackatimeLinkOverrides : option (list (string * value));
  updateFields : object
}.

(** Lines 604-609: [delete updateFields.hoursOverride]. *)
Definition stripHoursOverride (fields : object) : object :=
  delete "hoursOverride" fields.

(** Lines 611-637: the fields the caller's role may write. *)
Definition filterByRole (user : User) (fields : object) : object :=
  if isAdmin user then
    filter (fun kv => negb (includes nonUpdateableFields kv.1)
                      && is_defined kv.2 = true) fields
  else if isReviewer user then
    filter (fun kv => includes reviewerUpdateableFields kv.1
                      && negb (includes nonUpdateableFields kv.1)
                      && is_defined kv.2 = true) fields
  else
    filter (fun kv => includes userUpdateableFields kv.1
                      && negb (includes nonUpdateableFields kv.1)
                      && is_defined kv.2 = true) fields.

(** The [data] handed to [prisma.project.update]. *)
Definition updateData (user : User) (req : Request) : object :=
  filterByRole user (stripHoursOverride (updateFields req)).

(** The two tables the handler touches: projects (owner and columns) by
    [projectID], and links by [id]. *)
Record ProjectRow := {
  owner : string;
  columns : object
}.

Record Store := {
  projects : gmap string ProjectRow;
  links : gmap string HackatimeProjectLink
}.

Definition setHoursOverride (link : HackatimeProjectLink) (v : value)
    : HackatimeProjectLink :=
  {| link_id := link_id link; hackatimeName := hackatimeName link;
     rawHours := rawHours link; hoursOverride := v |}.

(** [hours === null || hours === undefined || hours === ''] *)
Definition is_cleared (hours : value) : bool :=
  match hours with
  | JNull | JUndefined => true
  | JStr s => String.eqb s ""
  | _ => false
  end.

(** [typeof hours === 'number' && !isNaN(hours)] *)
Definition is_hours (hours : value) : bool :=
  match hours with
  | JNum n => negb (isNaN n)
  | _ => false
  end.

(** Lines 695-708: the updates of the links, one entry after the other.
    [prisma.hackatimeProjectLink.update] throws when no link has the id;
    the writes made before stay. The boolean tells whether the loop ran to
    its end. *)
Fixpoint applyLinkOverrides (table : gmap string HackatimeProjectLink)
    (entries : list (string * value)) : gmap string HackatimeProjectLink * bool :=
  match entries with
  | [] => (table, true)
  | (linkId, hours) :: rest =>
      if is_hours hours then
        match table !! linkId with
        | Some link =>
            applyLinkOverrides (<[linkId := setHoursOverride link hours]> table) rest
        | None => (table, false)
        end
      else if is_cleared hours then
        match table !! linkId with
        | Some link =>
            applyLinkOverrides (<[linkId := setHoursOverride link JNull]> table) rest
        | None => (table, false)
        end
      else applyLinkOverrides table rest
  end.

(** Lines 642-663: an admin may edit any project, another caller only a
    project of their own. *)
Definition existingProject (user : User) (projectID : string) (db : Store)
    : option ProjectRow :=
  match projects db !! projectID with
  | Some row =>
      if isAdmin user || String.eqb (owner row) (user_id user) then Some row
      else None
  | None => None
  end.

(** The handler from line 556 on: the store it leaves and the status of
    its response. *)
Definition PUT (user : User) (req : Request) (db : Store) : Store * Z :=
  let projectID := req_projectID req in
  if String.eqb projectID "" then (db, 400%Z)
  else
    let data := updateData user req in
    match existingProject user projectID db with
    | None => (db, 404%Z)
    | Some row =>
        let updated :=
          {| projects :=
               <[projectID := {| owner := owner row; columns := data ∪ columns row |}]>
                 (projects db);
             links := links db |} in
        match hackatimeLinkOverrides req with
        | Some (entry :: entries) =>
            if isAdmin user || isReviewer user then
              let '(table, finished) :=
                applyLinkOverrides (links updated) (entry :: entries) in
              ({| projects := projects updated; links := table |},
               if finished then 200%Z else 500%Z)
            else (updated, 200%Z)
        | _ => (updated, 200%Z)
        end
    end.

End Projects.

(** ** The shop administration page ([ShopItemsPage]) *)

Module Shop.

Import Number JS.
Local Open Scope float_scope.

(** ['fixed' | 'config'] *)
Inductive CostType := fixed | config.

(** What [JSON.parse] gives for a text it accepts: [null], a boolean, a
    number, a string, an array or an object. *)
Inductive Json :=
| JsonNull
| JsonBool (b : bool)
| JsonNumber (n : number)
| JsonString (s : string)
| JsonArray (elements : list value)
| JsonObject (obj : object).

(** What [formData.config] holds: nothing, a text that [JSON.parse]
    rejects (with the message of its SyntaxError), or a text that it
    accepts. *)
Inductive ConfigText :=
| EmptyText
| InvalidText (error : string)
| JsonText (parsed : Json).

(** The text of an object. *)
Definition ObjectText (parsed : object) : ConfigText := JsonText (JsonObject parsed).

(** [JSON.parse(text)]. *)
Definition JSON_parse (text : ConfigText) : outcome Json :=
  match text with
  | JsonText parsed => Returned parsed
  | InvalidText error => Thrown error
  | EmptyText => Thrown "Unexpected end of JSON input"
  end.

(** The read [json.key] of a property that is no index and not [length]:
    a TypeError on [null], [undefined] on a boolean, a number, a string
    or an array, and the property on an object. *)
Definition member (json : Json) (key : string) : outcome value :=
  match json with
  | JsonNull => Thrown "Cannot read properties of null"
  | JsonObject obj => Returned (prop obj key)
  | JsonBool _ | JsonNumber _ | JsonString _ | JsonArray _ => Returned JUndefined
  end.

(** The form, each field read the way the code reads it:
    [parseInt(formData.price)], [parseFloat(formData.usdCost)],
    [formData.costType], [formData.config], [formData.useRandomizedPricing]. *)
Record FormData := {
  price : number;
  usdCost : number;
  costType : CostType;
  configText : ConfigText;
  useRandomizedPricing : bool
}.

(** Modelled from the spec: a cost, a rate or an intermediate result that
    section 4.4 rejects, one that is negative or not finite. *)
Definition invalidBasis (x : number) : bool := negb (is_finite x) || (x <? 0).

(** Modelled from the spec: the formula of [calculateShellPrice], which is
    imported from [@/lib/shop-utils] and is not among the sources. Section
    4.4 gives the fixed price as [round((usdCost / dollarsPerHour) * φ * 10)]
    with [φ = (1+√5)/2], an output that is always a non-negative integer,
    and the rejection of a negative or non-finite cost, rate or
    intermediate result with [InvalidCostBasis]. The rounding of the
    section, half away from zero, is the one of [Math.round] on the
    products that are not rejected, none of them being negative. The page
    prints the same formula next to the result of the call (line 956) and
    computes it in place for a config item (lines 325-326). *)
Definition shellPriceFormula (usdCost dollarsPerHour : number) : outcome number :=
  let hours := usdCost / dollarsPerHour in
  if existsb invalidBasis
       [usdCost; dollarsPerHour; hours; hours * phi; hours * phi * 10]
  then Thrown "InvalidCostBasis"
  else Returned (Math_round (hours * phi * 10)).

(** Lines 315-318: [configObj], an empty object when the text is empty or
    does not parse, and what the text parses to otherwise. *)
Definition configObj (formData : FormData) : Json :=
  match configText formData with
  | EmptyText => JsonObject ∅
  | text => catch (JSON_parse text) (JsonObject ∅)
  end.

(** Which branch of lines 322-338 runs: the one on [dollars_per_hour], the
    one on [hours_equal_to_one_percent_progress], or none. The reads of
    [configObj] stand outside the [try] of lines 316-318, so that the one
    of line 322 throws when the text parses to [null]. *)
Inductive Branch := RateLinked | ProgressLinked | NoAutoCalculation.

Definition branchTaken (formData : FormData) : outcome Branch :=
  match costType formData with
  | config =>
      do dollars_per_hour <- member (configObj formData) "dollars_per_hour";
      if truthy dollars_per_hour && negb (isNaN (usdCost formData))
      then Returned RateLinked
      else
        do hours_equal_to_one_percent_progress <-
          member (configObj formData) "hours_equal_to_one_percent_progress";
        if truthy hours_equal_to_one_percent_progress
        then Returned ProgressLinked
        else Returned NoAutoCalculation
  | fixed => Returned NoAutoCalculation
  end.

Section AutoCalculate.

Variable parseFloat : string -> number.
Variable StringToNumber : string -> number.

(** The effect of lines 313-342: [Some shells] when it sets
    [formData.price] to [shells.toString()], [None] when it leaves the
    price as it is, and the error when it throws. *)
Definition autoCalculatedPrice (formData : FormData) : outcome (option number) :=
  match costType formData with
  | config =>
      do dollars_per_hour <- member (configObj formData) "dollars_per_hour";
      if truthy dollars_per_hour && negb (isNaN (usdCost formData)) then
        let itemDollarsPerHour := parseFloatOf parseFloat dollars_per_hour in
        let hours := usdCost formData / itemDollarsPerHour in
        Returned (Some (Math_round (hours * phi * 10)))
      else
        do hours_equal_to_one_percent_progress <-
          member (configObj formData) "hours_equal_to_one_percent_progress";
        if truthy hours_equal_to_one_percent_progress then
          let hours := ToNumber StringToNumber hours_equal_to_one_percent_progress in
          Returned (Some (Math_round (hours * phi * 10)))
        else Returned None
  | fixed => Returned None
  end.

End AutoCalculate.

(** Lines 518 and 529-538: the payload of [handleSubmit]. *)
Record Payload := {
  payload_price : number;
  payload_usdCost : number;
  payload_costType : CostType;
  payload_config : Json;
  payload_useRandomizedPricing : bool
}.

(** The answer of [fetch], as far as [handleSubmit] reads it:
    [response.ok] and what [response.json()] gives. *)
Record Response := {
  ok : bool;
  json : outcome Json
}.

(** What [handleSubmit] does: it fails before the request, or it sends
    the payload, and the rest of the [try] returns or throws. *)
Inductive Submission :=
| NotSent (error : string)
| Sent (payload : Payload) (result : outcome unit).

Section Submit.

(** [calculateShellPrice], imported from [@/lib/shop-utils]; the call may
    throw. *)
Variable calculateShellPrice : number -> number -> outcome number.

(** [fetch(url, {method, headers, body: JSON.stringify(payload)})]. *)
Variable fetch : string -> string -> Payload -> outcome Response.

(** The text of a value in the message of [new Error(value)]. *)
Variable NumberToString : number -> string.

Definition ToString (v : value) : string :=
  match v with
  | JUndefined => "undefined"
  | JNull => "null"
  | JBool b => if b then "true" else "false"
  | JNum n => NumberToString n
  | JStr s => s
  end.

(** [handleSubmit], lines 520-527: the price sent for the item.
    [dollarsPerHour] is [parseFloat(globalConfig.dollars_per_hour || '0')]. *)
Definition finalPrice (formData : FormData) (dollarsPerHour : number)
    : outcome number :=
  match costType formData with
  | fixed =>
      if (0 <? usdCost formData) && (0 <? dollarsPerHour) then
        calculateShellPrice (usdCost formData) dollarsPerHour
      else Returned (price formData)
  | config => Returned (price formData)
  end.

(** Lines 518-538: the payload, or the error of [JSON.parse] or of
    [calculateShellPrice]. *)
Definition payloadOf (formData : FormData) (dollarsPerHour : number)
    : outcome Payload :=
  do parsed <- match configText formData with
               | EmptyText => Returned JsonNull
               | text => JSON_parse text
               end;
  do finalPrice <- finalPrice formData dollarsPerHour;
  Returned {| payload_price := finalPrice;
              payload_usdCost := usdCost formData;
              payload_costType := costType formData;
              payload_config := parsed;
              payload_useRandomizedPricing := useRandomizedPricing formData |}.

(** Lines 540-555: the request, and the error thrown for an answer that
    is not ok. *)
Definition url (editingItem : option string) : string :=
  match editingItem with
  | Some id => "/api/admin/shop-items/" +:+ id
  | None => "/api/admin/shop-items"
  end.

Definition method (editingItem : option string) : string :=
  match editingItem with Some _ => "PUT" | None => "POST" end.

Definition send (editingItem : option string) (payload : Payload) : outcome unit :=
  do response <- fetch (url editingItem) (method editingItem) payload;
  if negb (ok response) then
    do errorData <- json response;
    do error <- member errorData "error";
    Thrown (if truthy error then ToString error else "Failed to save item")
  else Returned tt.

(** [handleSubmit], lines 514-567, [editingItem] being the id of the item
    in the form, if any. After an answer that is ok the form is reset and
    [fetchData] is awaited, which catches its own errors. The error of a
    submission that fails is the message that [setError] shows. *)
Definition handleSubmit (editingItem : option string) (formData : FormData)
    (dollarsPerHour : number) : Submission :=
  match payloadOf formData dollarsPerHour with
  | Thrown error => NotSent error
  | Returned payload => Sent payload (send editingItem payload)
  end.

End Submit.

End Shop.

(** ** Randomized prices *)

Module Sampler.

Local Open Scope Q_scope.

(** No sampler is among the sources: the shop page only stores the flag of
    an item and the two percentages, and says that each user gets
    randomized pricing hourly within the range. The definitions of this
    module follow sections 4.5 and 6 of the spec. The spec fixes neither
    the pseudo-random function nor the way the product becomes the integer
    that [SamplePrice] returns: the function is a parameter whose raw
    output is mapped into the band, and the product is rounded to the
    nearest integer, as a base price is. *)

(** Modelled from the spec: the fields of a shop item that the sampler
    reads, [basePrice] being an integer that is at least 0. *)
Record ShopItem := {
  item_id : string;
  basePrice : N;
  randomized : bool
}.

(** Modelled from the spec: the two percentages of the global rate
    config. *)
Record GlobalRateConfig := {
  priceRandomMinPercent : Q;
  priceRandomMaxPercent : Q
}.

(** Modelled from the spec: the time bucket advances once per hour.
    Instants are milliseconds since the epoch; an hour has 3600000. *)
Definition timeBucket (nowInstant : Z) : Z := (nowInstant / 3600000)%Z.

(** Modelled from the spec: the band
    [[priceRandomMinPercent/100, priceRandomMaxPercent/100]] the multiplier
    is drawn from. *)
Definition in_band (cfg : GlobalRateConfig) (m : Q) : Prop :=
  priceRandomMinPercent cfg / 100 <= m /\ m <= priceRandomMaxPercent cfg / 100.

(** Modelled from the spec: the raw output of the pseudo-random function,
    reduced to 32 bits, as a fraction of the unit interval. *)
Definition fraction (raw : N) : Q :=
  inject_Z (Z.of_N (raw mod 2 ^ 32)) / inject_Z (2 ^ 32).

(** Modelled from the spec: the integer that a price becomes, the nearest
    one (a half goes up: no price is negative). *)
Definition nearest (q : Q) : Z := Qfloor (q + (1 # 2)).

Section Sample.

(** The seeded pseudo-random function of [(userId, itemId, timeBucket)]. *)
Variable seeded : string -> string -> Z -> N.

Variable cfg : GlobalRateConfig.

(** Modelled from the spec: the multiplier, a function of
    [(userId, itemId, timeBucket)] that spreads the fraction over the
    band. *)
Definition multiplier (userId itemId : string) (bucket : Z) : Q :=
  priceRandomMinPercent cfg / 100
  + fraction (seeded userId itemId bucket)
    * (priceRandomMaxPercent cfg / 100 - priceRandomMinPercent cfg / 100).

(** Modelled from the spec: for an item with [useRandomizedPricing] the
    displayed price is [basePrice * multiplier], an integer; another item
    displays [basePrice] unmodified. *)
Definition SamplePrice (item : ShopItem) (userId : string) (nowInstant : Z) : Z :=
  if randomized item then
    nearest (inject_Z (Z.of_N (basePrice item))
             * multiplier userId (item_id item) (timeBucket nowInstant))
  else Z.of_N (basePrice item).

End Sample.

End Sampler.

(** ** The review endpoint: the list it answers
    ([src/app/api/review/route.ts], [GET], lines 8-197) *)

Module ReviewList.

Import Number JS Schema Review.
Local Open Scope float_scope.

(** A review, as far as the handler reads it: [reviewerId] and the time
    value of [createdAt], which is what [new Date(createdAt).getTime()]
    gives (NaN for an invalid date). [createdAt] itself is a [Date], an
    object, so that [!aReviewDate] holds for a project without review
    only. *)
Record ReviewRow := {
  reviewerId : string;
  createdAt : number
}.

(** The selected columns of [project.user]. *)
Record Owner := {
  owner_name : value;
  owner_email : value;
  owner_image : value;
  owner_hackatimeId : value
}.

(** A row of [projectsInReview]: the project with its links, its owner and
    its reviews, the latest one first. *)
Record ProjectInReview := {
  reviewed : Project;
  user : option Owner;
  reviews : list ReviewRow
}.

(** An element of [formattedProjects]: the row ([...project]) and the
    properties added to it. *)
Record FormattedProject := {
  formatted : ProjectInReview;
  userName : value;
  userEmail : value;
  userImage : value;
  userHackatimeId : value;
  latestReview : option ReviewRow;
  reviewCount : nat;
  rawHours : number;
  ownerApprovedHours : number
}.

(** [project.user?.name || null] *)
Definition orNull (v : value) : value := if truthy v then v else JNull.

Definition ownerField (column : Owner -> value) (p : ProjectInReview) : value :=
  orNull (match user p with Some u => column u | None => JUndefined end).

(** Lines 155-158: the sum of the raw hours of the links. *)
Definition sumRawHours (links : list HackatimeProjectLink) : number :=
  foldl (fun sum link =>
           sum + match Schema.rawHours link with JNum n => n | _ => 0 end)
        0 links.

(** Line 167: the number of reviews whose reviewer is the owner. *)
Definition ownReviews (p : ProjectInReview) : list ReviewRow :=
  List.filter (fun review => String.eqb (reviewerId review) (userId (reviewed p)))
              (reviews p).

(** Line 84: [[...new Set(projectsInReview.map(project => project.userId))]],
    the owners in the order of their first project. *)
Definition addToSet (set : list string) (x : string) : list string :=
  if decide (x ∈ set) then set else set ++ [x].

Definition userIds (projectsInReview : list ProjectInReview) : list string :=
  foldl addToSet [] (map (fun p => userId (reviewed p)) projectsInReview).

(** Lines 175-188: the comparator of the final sort. *)
Definition byLatestReview (a b : FormattedProject) : number :=
  match latestReview a, latestReview b with
  | None, None => 0
  | None, Some _ => 1
  | Some _, None => -1
  | Some aReview, Some bReview => createdAt aReview - createdAt bReview
  end.

(** The response: a list of projects, or an error with its status. *)
Inductive Response :=
| Json (body : list FormattedProject)
| Error (status : Z) (error : string).

Section GET.

(** The query of line 33, the query of line 98 and the two helpers of
    [@/lib/project-client]; each of them may throw. *)
Variable findManyInReview : outcome (list ProjectInReview).
Variable findMany : string -> outcome (list Project).
Variable getProjectHackatimeHours : Project -> outcome number.
Variable getProjectApprovedHours : Project -> outcome number.

(** Lines 151-171. *)
Definition format (ids : list string) (p : ProjectInReview) : FormattedProject :=
  {| formatted := p;
     userName := ownerField owner_name p;
     userEmail := ownerField owner_email p;
     userImage := ownerField owner_image p;
     userHackatimeId := ownerField owner_hackatimeId p;
     latestReview := head (reviews p);
     reviewCount := length (ownReviews p);
     rawHours := sumRawHours (hackatimeLinks (reviewed p));
     ownerApprovedHours :=
       Review.ownerApprovedHours findMany getProjectHackatimeHours
         getProjectApprovedHours ids (userId (reviewed p)) |}.

(** The handler; [session] is what [getServerSession] gives, reduced to
    [session?.user]. *)
Definition GET (session : outcome (option User)) : Response :=
  match session with
  | Thrown _ => Error 500 "Failed to fetch projects in review"
  | Returned None => Error 401 "Unauthorized"
  | Returned (Some sessionUser) =>
      if negb (Projects.isAdmin sessionUser) && negb (Projects.isReviewer sessionUser)
      then Error 403 "Forbidden: Requires Admin or Reviewer role"
      else
        match findManyInReview with
        | Thrown _ => Error 500 "Failed to fetch projects in review"
        | Returned projectsInReview =>
            let ids := userIds projectsInReview in
            if Nat.eqb (length ids) 0 then Json []
            else Json (sort byLatestReview (map (format ids) projectsInReview))
        end
  end.

End GET.

(** The order the sort aims at: a project with reviews stands before one
    without, and of two projects with reviews the one reviewed earlier. *)
Definition mayPrecede (a b : FormattedProject) : Prop :=
  match latestReview a, latestReview b with
  | Some aReview, Some bReview => (createdAt aReview <=? createdAt bReview) = true
  | Some _, None => True
  | None, Some _ => False
  | None, None => True
  end.

(** The dates of the latest reviews are valid. *)
Definition validDate (p : ProjectInReview) : Prop :=
  match head (reviews p) with
  | Some review => is_nan (createdAt review) = false
  | None => True
  end.

(** The same for a formatted row. *)
Definition validLatest (a : FormattedProject) : Prop :=
  match latestReview a with
  | Some review => is_nan (createdAt review) = false
  | None => True
  end.

(** The classes of projects that the sort keeps in their order: the
    projects without a review, and the projects whose latest review has
    the date [h]. *)
Definition noReview (latest : option ReviewRow) : bool :=
  match latest with Some _ => false | None => true end.

Definition reviewAt (h : number) (latest : option ReviewRow) : bool :=
  match latest with Some review => createdAt review =? h | None => false end.

Definition unreviewed (p : ProjectInReview) : bool := noReview (head (reviews p)).

Definition reviewedAt (h : number) (p : ProjectInReview) : bool :=
  reviewAt h (head (reviews p)).

End ReviewList.

(** ** The link overrides of a project update, summed up

    What the loop of lines 695-708 of [src/app/api/projects/route.ts]
    leaves behind, written without the loop: the facts about [PUT] are
    stated with these definitions. *)

Module LinkWrites.

Import Number JS Schema Projects.

(** An entry makes the loop write when its value is a number that is not
    NaN, or is null, undefined or the empty string; the value written is
    the number, and null in the other cases. *)
Definition effective (hours : value) : bool := is_hours hours || is_cleared hours.

Definition stored (hours : value) : value := if is_hours hours then hours else JNull.

(** The overrides written by a run over [entries] on a table with the
    links [table], the last write to a link winning, and whether the run
    reaches the end: it stops at the first entry that writes to a link the
    table does not hold. *)
Fixpoint writes (table : gmap string HackatimeProjectLink)
    (entries : list (string * value)) : gmap string value * bool :=
  match entries with
  | [] => (∅, true)
  | (linkId, hours) :: rest =>
      if effective hours then
        match table !! linkId with
        | Some _ =>
            let '(later, finished) := writes table rest in
            (later ∪ {[ linkId := stored hours ]}, finished)
        | None => (∅, false)
        end
      else writes table rest
  end.

(** A table after the overrides [written] have been stored. *)
Definition overridden (written : gmap string value) (linkId : string)
    (link : HackatimeProjectLink) : HackatimeProjectLink :=
  match written !! linkId with
  | Some v => setHoursOverride link v
  | None => link
  end.

Definition withWrites (written : gmap string value)
    (table : gmap string HackatimeProjectLink) : gmap string HackatimeProjectLink :=
  map_imap (fun linkId link => Some (overridden written linkId link)) table.

(** The row that [prisma.project.update] leaves for the project. *)
Definition updatedRow (user : User) (req : Request) (row : ProjectRow) : ProjectRow :=
  {| owner := owner row; columns := updateData user req ∪ columns row |}.

(** The writes of a request: the entries count for an admin or a reviewer
    only. *)
Definition requestWrites (user : User) (req : Request) (db : Store)
    : gmap string value * bool :=
  match hackatimeLinkOverrides req with
  | Some entries =>
      if isAdmin user || isReviewer user then writes (links db) entries else (∅, true)
  | None => (∅, true)
  end.

End LinkWrites.

(** ** The projects endpoint: the other handlers
    ([src/app/api/projects/route.ts], [GET], [POST], [DELETE], and the
    reading of a multipart [PUT]) *)

Module ProjectsApi.

Import Number JS Schema Projects.
Local Open Scope float_scope.

(** [v === 'literal'] *)
Definition is_string (literal : string) (v : value) : bool :=
  match v with JStr s => String.eqb s literal | _ => false end.

(** [v || ''] *)
Definition orEmpty (v : value) : value := if truthy v then v else JStr "".

Section Operators.

(** The text of a number ([Number::toString]) and the number of a text. *)
Variable NumberToString : number -> string.
Variable StringToNumber : string -> number.

(** ToString of a primitive value. *)
Definition ToString (v : value) : string :=
  match v with
  | JUndefined => "undefined"
  | JNull => "null"
  | JBool b => if b then "true" else "false"
  | JNum n => NumberToString n
  | JStr s => s
  end.

(** [a + b]: the concatenation of the texts when one operand is a string,
    and the sum of the numbers otherwise. *)
Definition plus (a b : value) : value :=
  match a, b with
  | JStr _, _ | _, JStr _ => JStr (String.append (ToString a) (ToString b))
  | _, _ => JNum (ToNumber StringToNumber a + ToNumber StringToNumber b)
  end.

(** [GET], lines 79-106: the name of the first link and the hours of all
    links, an override counting in place of the raw hours. *)
Definition hackatimeNameOf (links : list HackatimeProjectLink) : string :=
  match links with
  | link :: _ => hackatimeName link
  | [] => ""
  end.

Definition rawHoursOf (links : list HackatimeProjectLink) : value :=
  foldl (fun sum link => plus sum (effectiveHours link)) (JNum 0) links.

Record EnhancedProject := {
  enhanced : Project;
  enhanced_hackatimeName : string;
  enhanced_rawHours : value
}.

Definition enhance (p : Project) : EnhancedProject :=
  {| enhanced := p;
     enhanced_hackatimeName := hackatimeNameOf (hackatimeLinks p);
     enhanced_rawHours := rawHoursOf (hackatimeLinks p) |}.

Inductive GetResponse :=
| EnhancedProjects (body : list EnhancedProject)
| GetError (status : Z) (error : string).

(** [GET], lines 62-116; [session] is the outcome of [requireUserSession]
    and [findMany] the query for the projects of a user. *)
Definition GET (session : outcome User) (findMany : string -> outcome (list Project))
    : GetResponse :=
  match (do user <- session; findMany (user_id user)) with
  | Returned projects => EnhancedProjects (map enhance projects)
  | Thrown _ => GetError 500 "Failed to fetch projects"
  end.

End Operators.

(** The hours a link counts for, as a number. *)
Definition hoursOf (link : HackatimeProjectLink) : number :=
  match effectiveHours link with JNum n => n | _ => 0 end.

(** The override of a link is as the schema declares it: a number or
    null. *)
Definition overrideTyped (link : HackatimeProjectLink) : Prop :=
  match hoursOverride link with
  | JNum _ | JNull | JUndefined => True
  | _ => False
  end.

(** *** Multipart bodies *)

(** The entries of a form in their order; the values are texts. *)
Abbreviation Form := (list (string * string)).

(** [formData.get(name)] and [formData.getAll(name)] *)
Definition formGet (form : Form) (name : string) : option string :=
  snd <$> List.find (fun entry => String.eqb entry.1 name) form.

Definition formGetAll (form : Form) (name : string) : list string :=
  map snd (List.filter (fun entry => String.eqb entry.1 name) form).

(** [formData.get(name)?.toString() || ''] *)
Definition textField (form : Form) (name : string) : string :=
  default "" (formGet form name).

(** [formData.get(name) === 'literal'] *)
Definition fieldIs (form : Form) (name literal : string) : bool :=
  match formGet form name with
  | Some text => String.eqb text literal
  | None => false
  end.

Section Multipart.

Variable parseFloat : string -> number.
Variable trim : string -> string.

(** [PUT], lines 515-530: the fields of [projectData] without [projectID]
    and [hackatimeLinkOverrides]. *)
Definition formHoursOverride (form : Form) : value :=
  match formGet form "hoursOverride" with
  | Some text => if String.eqb text "" then JUndefined else JNum (parseFloat text)
  | None => JUndefined
  end.

Definition formFields (form : Form) : object :=
  list_to_map
    [("name", JStr (textField form "name"));
     ("description", JStr (textField form "description"));
     ("codeUrl", JStr (textField form "codeUrl"));
     ("playableUrl", JStr (textField form "playableUrl"));
     ("screenshot", JStr (textField form "screenshot"));
     ("chat_enabled", JBool (fieldIs form "chat_enabled" "on"));
     ("shipped", JBool (fieldIs form "shipped" "true"));
     ("viral", JBool (fieldIs form "viral" "true"));
     ("in_review", JBool (fieldIs form "in_review" "true"));
     ("hoursOverride", formHoursOverride form)].

(** Lines 533-547: one turn of the loop over the entries. The id of the
    link is the name of the entry without its prefix. *)
Definition linkOverride (overrides : gmap string value) (entry : string * string)
    : gmap string value :=
  if String.prefix "linkOverride-" entry.1 then
    let linkId := String.substring 13 (String.length entry.1 - 13) entry.1 in
    if negb (String.eqb entry.2 "") && negb (String.eqb (trim entry.2) "") then
      let hours := parseFloat entry.2 in
      if negb (isNaN hours) then <[linkId := JNum hours]> overrides else overrides
    else overrides
  else overrides.

Definition formLinkOverrides (form : Form) : gmap string value :=
  foldl linkOverride ∅ form.

(** The overrides read from a form are numbers, the texts of entries
    named [linkOverride-] followed by the id of the link. *)
Definition fromEntry (form : Form) (linkId : string) (v : value) : Prop :=
  exists text,
    (String.append "linkOverride-" linkId, text) ∈ form
    /\ text <> "" /\ trim text <> ""
    /\ v = JNum (parseFloat text) /\ isNaN (parseFloat text) = false.

(** The request that [PUT] goes on with; [ObjectEntries] lists the entries
    of an object in the order of [Object.entries]. *)
Variable ObjectEntries : gmap string value -> list (string * value).

Definition multipartRequest (form : Form) : Request :=
  {| req_projectID := textField form "projectID";
     hackatimeLinkOverrides := Some (ObjectEntries (formLinkOverrides form));
     updateFields := formFields form |}.

End Multipart.

(** *** Creating a project *)

(** [projectData]: its properties with a primitive value, and
    [hackatimeProjects]. *)
Record ProjectData := {
  fields : object;
  hackatimeProjects : list value
}.

(** The body of a JSON request: the properties other than
    [hackatimeProjects], and [hackatimeProjects] when it is an array. *)
Record JsonBody := {
  properties : object;
  hackatimeProjectsArray : option (list value)
}.

(** What the request carries: a form ([request.formData()] may throw), or
    JSON ([None] when [request.json()] throws or gives no object). *)
Inductive PostBody :=
| MultipartBody (form : outcome Form)
| JsonRequest (json : option JsonBody).

(** Lines 156-168. *)
Definition formProjectData (form : Form) : ProjectData :=
  {| fields :=
       list_to_map
         [("name", JStr (textField form "name"));
          ("description", JStr (textField form "description"));
          ("hackatimeName", JStr (textField form "hackatime"));
          ("codeUrl", JStr (textField form "codeUrl"));
          ("playableUrl", JStr (textField form "playableUrl"));
          ("screenshot", JStr (textField form "screenshot"));
          ("chat_enabled", JBool (fieldIs form "chat_enabled" "on"));
          ("viral", JBool (fieldIs form "viral" "true"));
          ("shipped", JBool (fieldIs form "shipped" "true"));
          ("in_review", JBool (fieldIs form "in_review" "true"))];
     hackatimeProjects := map JStr (formGetAll form "hackatimeProjects") |}.

(** Lines 178-187. *)
Definition setOrEmpty (key : string) (obj : object) : object :=
  <[key := orEmpty (prop obj key)]> obj.

Definition jsonProjectData (json : JsonBody) : ProjectData :=
  let named := setOrEmpty "hackatimeName" (properties json) in
  {| fields := setOrEmpty "screenshot" (setOrEmpty "playableUrl" (setOrEmpty "codeUrl" named));
     hackatimeProjects :=
       match hackatimeProjectsArray json with
       | Some array => array
       | None =>
           if truthy (prop named "hackatimeName") then [prop named "hackatimeName"]
           else []
       end |}.

(** Lines 201-226: the checks, each of which throws. *)
Definition lastProject : string := "<<LAST_PROJECT>>".

(** ['The project "<<LAST_PROJECT>>" cannot be linked'], the name standing
    between quotation marks. *)
Definition cannotBeLinked : string :=
  let quotationMark := String (Ascii.ascii_of_nat 34) EmptyString in
  String.append "The project "
    (String.append quotationMark
       (String.append lastProject (String.append quotationMark " cannot be linked"))).

Definition validate (data : ProjectData) : outcome ProjectData :=
  if negb (truthy (prop (fields data) "name")) then
    Thrown "Project name is required"
  else if negb (truthy (prop (fields data) "description")) then
    Thrown "Project description is required"
  else if is_string lastProject (prop (fields data) "hackatimeName") then
    Thrown cannotBeLinked
  else if existsb (is_string lastProject) (hackatimeProjects data) then
    Thrown cannotBeLinked
  else Returned data.

(** Lines 229-246: a flag that is [true] is set to [false]. *)
Definition resetFlag (key : string) (obj : object) : object :=
  match obj !! key with
  | Some (JBool true) => <[key := JBool false]> obj
  | _ => obj
  end.

Definition restrict (hasPrivilegedAccess : bool) (data : ProjectData) : ProjectData :=
  if hasPrivilegedAccess then data
  else
    {| fields := resetFlag "in_review" (resetFlag "viral" (resetFlag "shipped" (fields data)));
       hackatimeProjects := hackatimeProjects data |}.

(** [{ ...projectData, userId: user.id }] *)
Definition withUserId (user : User) (data : ProjectData) : ProjectData :=
  {| fields := <["userId" := JStr (user_id user)]> (fields data);
     hackatimeProjects := hackatimeProjects data |}.

Inductive PostResponse :=
| Created (data : object)
| PostError (status : Z) (error : string).

(** Lines 131-194: [projectData] as read from the body, or the response
    that ends the handler there. *)
Definition parseBody (body : PostBody) : PostResponse + ProjectData :=
  match body with
  | MultipartBody (Returned form) => inr (formProjectData form)
  | MultipartBody (Thrown error) => inl (PostError 500 error)
  | JsonRequest (Some json) => inr (jsonProjectData json)
  | JsonRequest None => inl (PostError 400 "Failed to parse request JSON")
  end.

(** What reaches [createProject]: the data of the request, checked,
    restricted and tied to the caller; or the response that ends the
    handler before. *)
Definition createInput (user : User) (body : PostBody) : PostResponse + ProjectData :=
  match parseBody body with
  | inl response => inl response
  | inr projectData =>
      match validate projectData with
      | Thrown error => inl (PostError 500 error)
      | Returned checked =>
          inr (withUserId user (restrict (isAdmin user || isReviewer user) checked))
      end
  end.

Section POST.

(** The database behind [createProject] and [logProjectEvent]: both are
    imported, and each call changes the state and returns or throws.
    [createProject] returns the project or nothing. *)
Context {State : Type}.
Variable createProject : ProjectData -> State -> State * outcome (option object).
Variable logProjectEvent : object -> State -> State * outcome bool.

(** Lines 261-271 and 284-286: the length of the text of the imported
    function, and the reading of [lib/project.ts]. *)
Variable createProjectFunctionBody_length : nat.
Variable readFileSync : outcome string.

(** Lines 275-308: the calls of [createProject]. *)
Definition callCreateProject (input : ProjectData) (s : State)
    : State * outcome (option object) :=
  if Nat.ltb createProjectFunctionBody_length 100 then
    match readFileSync with
    | Returned _ =>
        let '(s1, first) := createProject input s in
        match first with
        | Thrown _ => createProject input s1
        | Returned _ => (s1, first)
        end
    | Thrown _ => createProject input s
    end
  else createProject input s.

(** [POST]; [session] is the outcome of [requireUserSession]. *)
Definition POST (session : outcome User) (body : PostBody) (s : State)
    : State * PostResponse :=
  match session with
  | Thrown error => (s, PostError 500 error)
  | Returned user =>
      match createInput user body with
      | inl response => (s, response)
      | inr input =>
          let '(s1, created) := callCreateProject input s in
          match created with
          | Thrown error => (s1, PostError 500 error)
          | Returned None =>
              (s1, PostError 500 "Project creation failed - no project data returned")
          | Returned (Some createdProject) =>
              ((logProjectEvent createdProject s1).1, Created createdProject)
          end
      end
  end.

End POST.

(** *** Deleting a project *)

(** The reviews as far as the handler touches them: each belongs to a
    project. *)
Record ReviewEntry := {
  review_id : string;
  review_projectID : string
}.

Record Database := {
  store : Store;
  reviewTable : list ReviewEntry
}.

(** The body of the request: [request.json()] throws, gives null, or gives
    a value whose [projectID] is read. *)
Inductive DeleteBody :=
| NoJson
| NullJson
| WithProjectID (projectID : value).

Record DeleteRequest := {
  referer : option string;
  deleteBody : DeleteBody
}.

(** [referer.includes('/admin/projects')] *)
Definition isFromAdminPanel (req : DeleteRequest) : bool :=
  match String.index 0 "/admin/projects" (default "" (referer req)) with
  | Some _ => true
  | None => false
  end.

(** [prisma.review.deleteMany({ where: { projectID } })] and
    [prisma.project.delete({ where: { projectID } })], as far as the two
    tables go; what else the database removes along with a project is not
    modelled. *)
Definition deleteReviews (projectID : string) (db : Database) : Database :=
  {| store := store db;
     reviewTable :=
       List.filter (fun review => negb (String.eqb (review_projectID review) projectID))
                   (reviewTable db) |}.

Definition deleteProject (projectID : string) (db : Database) : Database :=
  {| store := {| projects := delete projectID (projects (store db));
                 links := links (store db) |};
     reviewTable := reviewTable db |}.

(** The calls of the database made for a project. *)
Inductive DatabaseCall := FindUnique | DeleteManyReviews | DeleteProject.

Section DELETE.

(** The audit log is written before the deletion; the call may throw, and
    so may each call of the database: [throws call projectID] tells
    whether it does. *)
Variable logProjectEvent : string -> ProjectRow -> outcome bool.
Variable throws : DatabaseCall -> string -> bool.

(** [DELETE], lines 389-499: the database it leaves and the status of its
    response. A [projectID] that is no string is refused by the query. *)
Definition DELETE (session : outcome User) (req : DeleteRequest) (db : Database)
    : Database * Z :=
  match session with
  | Thrown _ => (db, 500%Z)
  | Returned user =>
      if negb (isFromAdminPanel req) then (db, 403%Z)
      else if negb (isAdmin user) then (db, 403%Z)
      else
        match deleteBody req with
        | NoJson => (db, 400%Z)
        | NullJson => (db, 500%Z)
        | WithProjectID projectID =>
            if negb (truthy projectID) then (db, 400%Z)
            else
              match projectID with
              | JStr projectID =>
                  if throws FindUnique projectID then (db, 500%Z)
                  else
                    match projects (store db) !! projectID with
                    | None => (db, 404%Z)
                    | Some projectToDelete =>
                        match logProjectEvent projectID projectToDelete with
                        | Thrown _ => (db, 500%Z)
                        | Returned _ =>
                            if throws DeleteManyReviews projectID then (db, 500%Z)
                            else if throws DeleteProject projectID
                            then (deleteReviews projectID db, 500%Z)
                            else (deleteProject projectID (deleteReviews projectID db),
                                  200%Z)
                        end
                    end
              | _ => (db, 500%Z)
              end
        end
  end.

End DELETE.

End ProjectsApi.

(** ** The shop administration page: the form, the statistics and the
    global configuration ([ShopItemsPage], lines 252-1024 of
    [src/app/api/review/route.ts]) *)

Module ShopAdmin.

Import Number JS Shop.
Local Open Scope float_scope.

(** *** Statistics of the orders (lines 363-387) *)

(** A fulfilled order: [itemId], [price], [quantity], and the time value of
    [new Date(order.createdAt)]. *)
Record ShopOrder := {
  order_itemId : string;
  order_price : number;
  order_quantity : number;
  orderTime : number
}.

Record ItemStats := {
  unitsSold : number;
  totalRevenue : number;
  avgPrice : number
}.

(** [rangeMs && now - orderTime > rangeMs]; [rangeMs] is a number or
    null. *)
Definition outOfRange (now : number) (rangeMs : option number) (order : ShopOrder) : bool :=
  match rangeMs with
  | Some ms => truthy (JNum ms) && (ms <? now - orderTime order)
  | None => false
  end.

(** Lines 372-374: an entry of zeros for every item. *)
Definition emptyStats (itemIds : list string) : gmap string ItemStats :=
  foldl (fun stats id =>
           <[id := {| unitsSold := 0; totalRevenue := 0; avgPrice := 0 |}]> stats)
        ∅ itemIds.

(** Lines 375-381: one turn of the loop over the orders. *)
Definition countOrder (now : number) (rangeMs : option number)
    (stats : gmap string ItemStats) (order : ShopOrder) : gmap string ItemStats :=
  if outOfRange now rangeMs order then stats
  else if String.eqb (order_itemId order) "" then stats
  else
    match stats !! order_itemId order with
    | None => stats
    | Some s =>
        <[order_itemId order :=
            {| unitsSold := unitsSold s + order_quantity order;
               totalRevenue := totalRevenue s + order_price order;
               avgPrice := avgPrice s |}]> stats
    end.

(** Lines 382-385. *)
Definition withAverage (s : ItemStats) : ItemStats :=
  {| unitsSold := unitsSold s;
     totalRevenue := totalRevenue s;
     avgPrice := if 0 <? unitsSold s then Math_round (totalRevenue s / unitsSold s) else 0 |}.

(** The statistics set by the effect; [itemIds] are the ids of [items].
    The object [stats] is a map from the ids to the entries, which it is
    as long as no id is [__proto__]. *)
Definition itemStats (orders : list ShopOrder) (itemIds : list string)
    (now : number) (rangeMs : option number) : gmap string ItemStats :=
  match orders, itemIds with
  | [], _ | _, [] => ∅
  | _, _ => withAverage <$> foldl (countOrder now rangeMs) (emptyStats itemIds) orders
  end.

(** The orders that count for an item. *)
Definition countsFor (now : number) (rangeMs : option number) (id : string)
    (order : ShopOrder) : bool :=
  negb (outOfRange now rangeMs order)
  && negb (String.eqb (order_itemId order) "")
  && String.eqb (order_itemId order) id.

(** The sums of an item over the orders that count for it, on top of the
    sums [s]. *)
Definition summed (now : number) (rangeMs : option number) (id : string)
    (s : ItemStats) (orders : list ShopOrder) : ItemStats :=
  let counted := List.filter (countsFor now rangeMs id) orders in
  {| unitsSold := foldl (fun units order => units + order_quantity order)
                        (unitsSold s) counted;
     totalRevenue := foldl (fun revenue order => revenue + order_price order)
                           (totalRevenue s) counted;
     avgPrice := avgPrice s |}.

(** *** The form as the page holds it *)

(** The state [formData]: the texts of the inputs. The text of [config]
    is kept as what [JSON.parse] makes of it. *)
Record FormText := {
  form_name : string;
  form_description : string;
  form_image : string;
  form_price : string;
  form_usdCost : string;
  form_costType : CostType;
  form_config : ConfigText;
  form_useRandomizedPricing : bool
}.

(** A shop item as the page receives it; [config] is any value of JSON,
    when the item has one. *)
Record ShopItem := {
  item_id : string;
  item_name : string;
  item_description : string;
  item_image : option string;
  item_price : number;
  item_active : bool;
  item_useRandomizedPricing : option bool;
  item_usdCost : option number;
  item_costType : option CostType;
  item_config : option Json
}.

(** [globalConfig.dollars_per_hour] *)
Record GlobalConfig := {
  dollars_per_hour : option string;
  price_random_min_percent : option string;
  price_random_max_percent : option string
}.

(** ToBoolean of a value of JSON: an array and an object are truthy. *)
Definition truthyJson (json : Json) : bool :=
  match json with
  | JsonNull => false
  | JsonBool b => b
  | JsonNumber n => truthy (JNum n)
  | JsonString s => truthy (JStr s)
  | JsonArray _ | JsonObject _ => true
  end.

(** The body of the request of [handleSubmit], lines 529-538: the payload
    with the name, the description and the image of the form. *)
Record Body := {
  body_name : string;
  body_description : string;
  body_image : option string;
  body_payload : Payload
}.

Section Texts.

Variable parseInt : string -> number.
Variable parseFloat : string -> number.
Variable StringToNumber : string -> number.
Variable NumberToString : number -> string.

(** What [JSON.parse] makes of the text [JSON.stringify(config, null, 2)]. *)
Variable reparsed : Json -> Json.

(** The fields as [handleSubmit] and the effect read them. *)
Definition readForm (form : FormText) : FormData :=
  {| price := parseInt (form_price form);
     usdCost := parseFloat (form_usdCost form);
     costType := form_costType form;
     configText := form_config form;
     useRandomizedPricing := form_useRandomizedPricing form |}.

(** [parseFloat(globalConfig.dollars_per_hour || '0')] *)
Definition globalRate (globalConfig : GlobalConfig) : number :=
  match dollars_per_hour globalConfig with
  | Some text => parseFloat (if String.eqb text "" then "0" else text)
  | None => parseFloat "0"
  end.

(** [handleEdit], lines 569-582: the form filled from an item. *)
Definition handleEdit (item : ShopItem) : FormText :=
  {| form_name := item_name item;
     form_description := item_description item;
     form_image := default "" (item_image item);
     form_price := NumberToString (item_price item);
     form_usdCost :=
       match item_usdCost item with
       | Some cost => NumberToString cost
       | None => ""
       end;
     form_costType := default fixed (item_costType item);
     form_config :=
       match item_config item with
       | Some json => if truthyJson json then JsonText (reparsed json) else EmptyText
       | None => EmptyText
       end;
     form_useRandomizedPricing := default true (item_useRandomizedPricing item) |}.

Definition bodyOf (form : FormText) (payload : Payload) : Body :=
  {| body_name := form_name form;
     body_description := form_description form;
     body_image :=
       if String.eqb (form_image form) "" then None else Some (form_image form);
     body_payload := payload |}.

Variable calculateShellPrice : number -> number -> outcome number.

(** [fetch(url, {method, headers, body: JSON.stringify(payload)})] *)
Variable fetch : string -> string -> Body -> outcome Response.

(** [handleSubmit], lines 514-567, on the state of the page: the form,
    the item being edited and the global configuration. *)
Definition submit (editingItem : option ShopItem) (globalConfig : GlobalConfig)
    (form : FormText) : Submission :=
  handleSubmit calculateShellPrice
    (fun url method payload => fetch url method (bodyOf form payload))
    NumberToString (item_id <$> editingItem) (readForm form)
    (globalRate globalConfig).

(** *** The prices shown under the form (lines 951-998) *)

(** The note for a fixed item: shown when the cost and the global rate are
    filled in, with the result of [calculateShellPrice], a call that may
    throw. *)
Definition fixedPreview (globalConfig : GlobalConfig) (form : FormText)
    : option (outcome number) :=
  match form_costType form, dollars_per_hour globalConfig with
  | fixed, Some rate =>
      if negb (String.eqb (form_usdCost form) "") && negb (String.eqb rate "") then
        Some (calculateShellPrice (parseFloat (form_usdCost form)) (parseFloat rate))
      else None
  | _, _ => None
  end.

(** The note for a config item: the price by the rate of the item, or the
    price by the hours of progress, each shown when the cost is filled
    in. The whole of it stands in a [try] that shows nothing when
    something is thrown. *)
Definition configPreview (form : FormText) : option (Branch * number) :=
  match form_costType form, form_config form with
  | config, EmptyText => None
  | config, text =>
      let given := negb (String.eqb (form_usdCost form) "") in
      catch
        (do configObj <- JSON_parse text;
         do dollars_per_hour <- member configObj "dollars_per_hour";
         if truthy dollars_per_hour && given then
           let usdCost := parseFloat (form_usdCost form) in
           let itemDollarsPerHour := parseFloatOf parseFloat dollars_per_hour in
           let hours := usdCost / itemDollarsPerHour in
           Returned (Some (RateLinked, Math_round (hours * phi * 10)))
         else
           do hours_equal_to_one_percent_progress <-
             member configObj "hours_equal_to_one_percent_progress";
           if truthy hours_equal_to_one_percent_progress && given then
             let hours :=
               ToNumber StringToNumber hours_equal_to_one_percent_progress in
             Returned (Some (ProgressLinked, Math_round (hours * phi * 10)))
           else Returned None)
        None
  | fixed, _ => None
  end.

End Texts.

(** *** Saving the global configuration (lines 422-512) *)

(** The requests of [savePricingConfig]: a value of the global
    configuration, the recalculation of the prices, and the reload of
    [fetchData]. *)
Inductive Call :=
| PostGlobalConfig (key value : string)
| RecalculatePrices (dollarsPerHour : number)
| FetchData.

(** The state of the page that the function reads. *)
Record PricingState := {
  globalConfig : GlobalConfig;
  dollarsPerHour : string;
  minPercent : string;
  maxPercent : string
}.

(** The rate the page holds, as a number, and the three requests that
    store a value. *)
Definition newRate (parseFloat : string -> number) (state : PricingState) : number :=
  parseFloat (if String.eqb (dollarsPerHour state) "" then "0" else dollarsPerHour state).

Definition updateRate (state : PricingState) : Call :=
  PostGlobalConfig "dollars_per_hour" (dollarsPerHour state).

Definition postMin (state : PricingState) : Call :=
  PostGlobalConfig "price_random_min_percent" (minPercent state).

Definition postMax (state : PricingState) : Call :=
  PostGlobalConfig "price_random_max_percent" (maxPercent state).

Section Save.

Variable parseFloat : string -> number.
Variable NumberToString : number -> string.

(** The server: what a request is answered with; [fetch] may throw. *)
Variable fetch : Call -> outcome Response.

(** [const result = await response.json(); if (!response.ok) throw new
    Error(result.error || fallback)] *)
Definition expectOk (call : Call) (fallback : string) : outcome unit :=
  do response <- fetch call;
  do result <- json response;
  if negb (ok response) then
    do error <- member result "error";
    Thrown (if truthy error then ToString NumberToString error else fallback)
  else Returned tt.

(** Lines 447-462: the recalculation; its answer is read and logged,
    whatever its status. *)
Definition recalculate (call : Call) : outcome unit :=
  do response <- fetch call;
  do result <- json response;
  if negb (ok response) then
    do error <- member result "error";
    Returned tt
  else Returned tt.

(** Lines 427-464: the update of the rate, and the recalculation when the
    rate has changed to a number above 0. The calls made are listed in
    their order. *)
Definition saveRate (state : PricingState) : list Call * outcome unit :=
  let old := default "" (dollars_per_hour (globalConfig state)) in
  let oldDollarsPerHour := parseFloat (if String.eqb old "" then "0" else old) in
  let newDollarsPerHour :=
    parseFloat (if String.eqb (dollarsPerHour state) "" then "0"
                else dollarsPerHour state) in
  if String.eqb (dollarsPerHour state) old then ([], Returned tt)
  else
    let update := PostGlobalConfig "dollars_per_hour" (dollarsPerHour state) in
    match expectOk update "Failed to update dollars per hour" with
    | Thrown error => ([update], Thrown error)
    | Returned _ =>
        if negb (oldDollarsPerHour =? newDollarsPerHour) && (0 <? newDollarsPerHour) then
          ([update; RecalculatePrices newDollarsPerHour],
           recalculate (RecalculatePrices newDollarsPerHour))
        else ([update], Returned tt)
    end.

(** [savePricingConfig]: the calls made, and the global configuration
    that [setGlobalConfig] is given, or the error shown. *)
Definition savePricingConfig (state : PricingState)
    : list Call * outcome GlobalConfig :=
  let '(rateCalls, rate) := saveRate state in
  match rate with
  | Thrown error => (rateCalls, Thrown error)
  | Returned _ =>
      let postMin := PostGlobalConfig "price_random_min_percent" (minPercent state) in
      match expectOk postMin "Failed to update min percent" with
      | Thrown error => (rateCalls ++ [postMin], Thrown error)
      | Returned _ =>
          let postMax := PostGlobalConfig "price_random_max_percent" (maxPercent state) in
          match expectOk postMax "Failed to update max percent" with
          | Thrown error => (rateCalls ++ [postMin; postMax], Thrown error)
          | Returned _ =>
              (rateCalls ++ [postMin; postMax; FetchData],
               Returned {| dollars_per_hour := Some (dollarsPerHour state);
                           price_random_min_percent := Some (minPercent state);
                           price_random_max_percent := Some (maxPercent state) |})
          end
      end
  end.

End Save.

End ShopAdmin.

(** ** Worked inputs *)

Module Examples.

Import Number JS Schema Review Projects Shop.
Local Open Scope float_scope.

(** A helper that answers from a table by [projectID] (0 for a project
    that is not listed). *)
Definition fromTable (table : list (string * number)) (p : Project) : number :=
  match List.find (fun row => String.eqb row.1 (projectID p)) table with
  | Some row => row.2
  | None => 0
  end.

Definition shippedProject (name owner : string) : Project :=
  {| projectID := name; userId := owner; viral := false; shipped := true;
     hackatimeLinks := [] |}.

(** The user of section 8 of the spec: five shipped projects with 50, 40,
    30, 20 and 10 hours and 20 approved hours each. *)
Definition fiveProjects : list Project :=
  map (fun name => shippedProject name "u1") ["p1"; "p2"; "p3"; "p4"; "p5"].

Definition fiveHours : Project -> number :=
  fromTable [("p1", 50); ("p2", 40); ("p3", 30); ("p4", 20); ("p5", 10)].

Definition fiveApproved : Project -> number :=
  fromTable [("p1", 20); ("p2", 20); ("p3", 20); ("p4", 20); ("p5", 20)].

(** The same user after the fifth project went viral with 100 approved
    hours. *)
Definition goViral (name : string) (p : Project) : Project :=
  if String.eqb (projectID p) name then
    {| projectID := projectID p; userId := userId p; viral := true;
       shipped := shipped p; hackatimeLinks := hackatimeLinks p |}
  else p.

Definition fiveApprovedViral : Project -> number :=
  fromTable [("p1", 20); ("p2", 20); ("p3", 20); ("p4", 20); ("p5", 100)].

(** Projects out of order, two of them with equal hours. *)
Definition tiedProjects : list Project :=
  map (fun name => shippedProject name "u2") ["a"; "b"; "c"; "d"; "e"; "f"].

Definition tiedHours : Project -> number :=
  fromTable [("a", 3); ("b", 7.5); ("c", 3); ("d", 12); ("e", 7.5); ("f", 1)].

(** A batch of two users: the query for ["u0"] throws, the one for
    ["u1"] answers. *)
Definition flakyFindMany (userId : string) : outcome (list Project) :=
  if String.eqb userId "u1" then Returned fiveProjects
  else Thrown "connection closed".

(** Shop forms. *)
Definition rateAndProgress : object :=
  {[ "dollars_per_hour" := JNum 10;
     "hours_equal_to_one_percent_progress" := JNum 0x1.999999999999ap-1 (* 0.8 *) ]}.

Definition zeroRateAndProgress : object :=
  {[ "dollars_per_hour" := JNum 0;
     "hours_equal_to_one_percent_progress" := JNum 2 ]}.

Definition configForm (cost : number) (cfg : object) : FormData :=
  {| price := 1; usdCost := cost; costType := config;
     configText := ObjectText cfg; useRandomizedPricing := true |}.

Definition fixedForm (cost : number) (cfg : object) : FormData :=
  {| price := 1; usdCost := cost; costType := fixed;
     configText := ObjectText cfg; useRandomizedPricing := true |}.

(** Callers, a store and a request of the project update. *)
Definition flaggedAdmin : User :=
  {| user_id := "u9"; role := "User"; isAdminFlag := true |}.

Definition plainOwner : User :=
  {| user_id := "u1"; role := "User"; isAdminFlag := false |}.

Definition trackedLink : HackatimeProjectLink :=
  {| link_id := "l1"; hackatimeName := "boat"; rawHours := JNum 5;
     hoursOverride := JNull |}.

Definition smallStore : Store :=
  {| projects := {[ "p1" := {| owner := "u1";
                               columns := {[ "name" := JStr "Boat" ]} |} ]};
     links := {[ "l1" := trackedLink ]} |}.

(** A seeded function that mixes the lengths of the two names and the
    bucket, the band from 90 to 110 percent, a narrow band from 110 to 120
    percent, and two items. *)
Definition mix (userId itemId : string) (bucket : Z) : N :=
  Z.to_N ((Z.of_nat (String.length userId) * 2654435761
           + Z.of_nat (String.length itemId) * 40503
           + bucket * 2246822519) mod 2 ^ 32).

Definition defaultBand : Sampler.GlobalRateConfig :=
  {| Sampler.priceRandomMinPercent := 90; Sampler.priceRandomMaxPercent := 110 |}.

Definition narrowBand : Sampler.GlobalRateConfig :=
  {| Sampler.priceRandomMinPercent := 110; Sampler.priceRandomMaxPercent := 120 |}.

Definition sticker : Sampler.ShopItem :=
  {| Sampler.item_id := "sticker"; Sampler.basePrice := 40;
     Sampler.randomized := true |}.

Definition pin : Sampler.ShopItem :=
  {| Sampler.item_id := "pin"; Sampler.basePrice := 3;
     Sampler.randomized := true |}.

Definition overrideRequest : Request :=
  {| req_projectID := "p1";
     hackatimeLinkOverrides := Some [("l1", JNum 99)];
     updateFields := {[ "name" := JStr "Raft"; "hoursOverride" := JNum 99 ]} |}.

End Examples.

(** ** More worked inputs *)

Module Scenarios.

Import Number JS Schema Review Projects Shop ReviewList LinkWrites ProjectsApi ShopAdmin.
Local Open Scope float_scope.

(** *** The review endpoint *)

Definition reviewer : User :=
  {| user_id := "r1"; role := "Reviewer"; isAdminFlag := false |}.

(** A project in review with the dates of its reviews, the latest
    first. *)
Definition inReview (name owner : string) (dates : list number) : ProjectInReview :=
  {| reviewed := Examples.shippedProject name owner;
     user := None;
     reviews := map (fun date => {| reviewerId := "r1"; createdAt := date |}) dates |}.

(** Three projects in review: one without a review, one reviewed at 300
    and before at 100, one reviewed at 200. The projects of ["u1"] are the
    five of the spec, the query for ["u0"] throws. *)
Definition queue : list ProjectInReview :=
  [inReview "p1" "u1" []; inReview "p6" "u0" [300; 100]; inReview "p2" "u1" [200]].

Definition reviewAnswer : ReviewList.Response :=
  ReviewList.GET (Returned queue) Examples.flakyFindMany
    (fun p => Returned (Examples.fiveHours p))
    (fun p => Returned (Examples.fiveApproved p))
    (Returned (Some reviewer)).

Definition answerBody : list FormattedProject :=
  match reviewAnswer with
  | Json body => body
  | Error _ _ => []
  end.

(** *** The projects endpoint *)

(** A link with an override of 0 besides the link without override. *)
Definition overriddenLink : HackatimeProjectLink :=
  {| link_id := "l2"; hackatimeName := "raft"; Schema.rawHours := JNum 3;
     hoursOverride := JNum 0 |}.

(** Overrides for the link of the store, for a link that does not exist,
    and for the link of the store again. *)
Definition brokenRequest : Request :=
  {| req_projectID := "p1";
     hackatimeLinkOverrides := Some [("l1", JNum 7); ("zz", JNull); ("l1", JNum 9)];
     updateFields := {[ "name" := JStr "Raft" ]} |}.

(** A form that renames the project and says nothing else, and a form
    with an override for the link. *)
Definition renameForm : Form := [("projectID", "p1"); ("name", "Raft")].

Definition overrideForm : Form := [("projectID", "p1"); ("linkOverride-l1", "7")].

Definition readsSeven (text : string) : number :=
  if String.eqb text "7" then 7 else nan.

(** A new project sent by its owner as shipped, under another user's
    id. *)
Definition boatBody : PostBody :=
  JsonRequest
    (Some {| properties := {[ "name" := JStr "Boat"; "description" := JStr "floats";
                              "shipped" := JBool true; "userId" := JStr "u9" ]};
             hackatimeProjectsArray := None |}).

Definition boatInput : ProjectData :=
  match createInput Examples.plainOwner boatBody with
  | inr input => input
  | inl _ => {| fields := ∅; hackatimeProjects := [] |}
  end.

(** A database whose [createProject] always throws and counts its
    calls. *)
Definition brokenCreate (input : ProjectData) (calls : nat)
    : nat * outcome (option object) :=
  (S calls, Thrown "database is down").

Definition quietLog (created : object) (calls : nat) : nat * outcome bool :=
  (calls, Returned true).

(** *** The shop page *)

Definition readsTen (text : string) : number :=
  if String.eqb text "10" then 10
  else if String.eqb text "16" then 16
  else if String.eqb text "0" then 0
  else nan.

Definition printsTen (n : number) : string :=
  if n =? 10 then "10" else if n =? 16 then "16" else "NaN".

(** A fixed item that costs 10 dollars and 16 shells. *)
Definition flag : ShopItem :=
  {| item_id := "i1"; item_name := "Flag"; item_description := "A flag";
     item_image := None; item_price := 16; item_active := true;
     item_useRandomizedPricing := None; item_usdCost := Some 10;
     item_costType := None; item_config := None |}.

Definition rateOfTen : GlobalConfig :=
  {| dollars_per_hour := Some "10"; price_random_min_percent := None;
     price_random_max_percent := None |}.

Definition stipendForm : FormText :=
  {| form_name := "Stipend"; form_description := "Travel"; form_image := "";
     form_price := ""; form_usdCost := "10"; form_costType := config;
     form_config := ObjectText Examples.rateAndProgress;
     form_useRandomizedPricing := false |}.

Definition flagForm : FormText :=
  {| form_name := "Flag"; form_description := "A flag"; form_image := "";
     form_price := "1"; form_usdCost := "10"; form_costType := fixed;
     form_config := EmptyText; form_useRandomizedPricing := true |}.

(** A server that stores what it is sent, and one that refuses. *)
Definition accepting (url method : string) (body : Body) : outcome Shop.Response :=
  Returned {| ok := true; json := Returned (JsonObject ∅) |}.

Definition refusing (url method : string) (body : Body) : outcome Shop.Response :=
  Returned {| ok := false;
              json := Returned (JsonObject {[ "error" := JStr "Forbidden" ]}) |}.

(** Three orders at the instants 100, 900 and 950: two flags, then three
    flags, then a sticker that the page does not list. *)
Definition threeOrders : list ShopOrder :=
  [{| order_itemId := "i1"; order_price := 16; order_quantity := 2; orderTime := 100 |};
   {| order_itemId := "i1"; order_price := 17; order_quantity := 3; orderTime := 900 |};
   {| order_itemId := "i9"; order_price := 40; order_quantity := 1; orderTime := 950 |}].

End Scenarios.

(** ** Proof automation *)

(** Case analysis on every comparison of integers in the goal or in a
    hypothesis. *)
Ltac compare_cases :=
  repeat match goal with
         | |- context [(?x ?= ?y)%Z] => destruct (Z.compare_spec x y)
         | H : context [(?x ?= ?y)%Z] |- _ => destruct (Z.compare_spec x y)
         end.

(** * Part II: facts about the model *)

(** ** Signs of rounded results

    The facts about binary64 arithmetic the development needs: rounding a
    non-negative mantissa never produces NaN and keeps the sign it is
    given, a non-zero exact result is not rounded to zero, and the order
    of valid numbers is the order of their values. *)

Module Rounding.

Import Number.
Local Open Scope Z_scope.

Section Iter.
Context {A : Type} (f : A -> A) (P : A -> Prop).
Hypothesis f_keeps : forall x, P x -> P (f x).

Lemma iter_pos_keeps : forall n x, P x -> P (SpecFloat.iter_pos f n x).
Proof using f_keeps.
  induction n as [n IH | n IH |]; simpl; intros x Hx; auto.
Qed.
End Iter.

Lemma shr_1_nonneg mrs : 0 <= shr_m mrs -> 0 <= shr_m (shr_1 mrs).
Proof.
  destruct mrs as [m r s]; simpl.
  destruct m as [| [p | p |] | p]; simpl; lia.
Qed.

Lemma shr_nonneg mrs e n : 0 <= shr_m mrs -> 0 <= shr_m (fst (shr mrs e n)).
Proof.
  intros H. destruct n as [| p | p]; simpl; auto.
  apply (iter_pos_keeps shr_1 (fun x => 0 <= shr_m x)); auto using shr_1_nonneg.
Qed.

Lemma shr_record_of_loc_m m l : shr_m (shr_record_of_loc m l) = m.
Proof. destruct l as [| []]; reflexivity. Qed.

Lemma shr_fexp_nonneg prec emax m e l :
  0 <= m -> 0 <= shr_m (fst (shr_fexp prec emax m e l)).
Proof.
  intros H. unfold shr_fexp. apply shr_nonneg.
  now rewrite shr_record_of_loc_m.
Qed.

Lemma round_nearest_even_nonneg m l : 0 <= m -> 0 <= round_nearest_even m l.
Proof.
  intros H. destruct l as [| []]; simpl; try lia.
  destruct (Z.even m); lia.
Qed.

Lemma binary_round_aux_sign prec emax sx mx ex lx :
  0 <= mx -> has_sign sx (binary_round_aux prec emax sx mx ex lx).
Proof.
  intros H. unfold binary_round_aux.
  pose proof (shr_fexp_nonneg prec emax mx ex lx H) as H1.
  destruct (shr_fexp prec emax mx ex lx) as [mrs' e']; simpl in H1.
  pose proof (shr_fexp_nonneg prec emax
                (round_nearest_even (shr_m mrs') (loc_of_shr_record mrs'))
                e' loc_Exact (round_nearest_even_nonneg _ _ H1)) as H2.
  destruct (shr_fexp prec emax _ e' loc_Exact) as [mrs'' e'']; simpl in H2.
  destruct (shr_m mrs'') as [| m | m]; simpl; auto; try lia.
  destruct (e'' <=? emax - prec); simpl; auto.
Qed.

Lemma binary_round_sign prec emax sx mx ex :
  has_sign sx (binary_round prec emax sx mx ex).
Proof.
  unfold binary_round.
  destruct (shl_align mx ex _) as [mz ez].
  apply binary_round_aux_sign. lia.
Qed.

Lemma binary_normalize_nonneg prec emax m e :
  0 <= m -> has_sign false (binary_normalize prec emax m e false).
Proof.
  intros H. destruct m as [| p | p]; simpl; try lia; auto.
  apply binary_round_sign.
Qed.

(** *** Mantissas and their number of digits *)

Lemma digits2_pos_bounds m :
  2 ^ (Zpos (digits2_pos m) - 1) <= Zpos m < 2 ^ Zpos (digits2_pos m).
Proof.
  induction m as [p IH | p IH |]; simpl digits2_pos.
  - rewrite Pos2Z.inj_succ.
    replace (Z.succ (Zpos (digits2_pos p)) - 1) with (Z.succ (Zpos (digits2_pos p) - 1)) by lia.
    rewrite !Z.pow_succ_r by lia. lia.
  - rewrite Pos2Z.inj_succ.
    replace (Z.succ (Zpos (digits2_pos p)) - 1) with (Z.succ (Zpos (digits2_pos p) - 1)) by lia.
    rewrite !Z.pow_succ_r by lia. lia.
  - simpl. lia.
Qed.

Lemma iter_xO_value m d : Zpos (Pos.iter xO m d) = Zpos m * 2 ^ Zpos d.
Proof.
  induction d as [| d IH] using Pos.peano_ind.
  - simpl. lia.
  - rewrite Pos.iter_succ, Pos2Z.inj_succ, Z.pow_succ_r by lia.
    rewrite Pos2Z.inj_xO, IH. lia.
Qed.

Lemma shl_align_value m e e' :
  e' <= e ->
  Zpos (fst (shl_align m e e')) = Zpos m * 2 ^ (e - e')
  /\ snd (shl_align m e e') = e'.
Proof.
  intros H. unfold shl_align.
  destruct (e' - e) as [| d | d] eqn:E; simpl.
  - replace (e - e') with 0 by lia. simpl. lia.
  - lia.
  - rewrite iter_xO_value. replace (e - e') with (Zpos d) by lia. auto.
Qed.

(** Shifting right by [n] keeps a mantissa of at least [2 ^ n] positive. *)
Lemma shr_1_lower k mrs :
  0 <= k -> 2 ^ (k + 1) <= shr_m mrs -> 2 ^ k <= shr_m (shr_1 mrs).
Proof.
  intros Hk. rewrite Z.pow_add_r by lia. change (2 ^ 1) with 2.
  pose proof (Z.pow_pos_nonneg 2 k ltac:(lia) Hk) as Hp.
  destruct mrs as [m r s]; simpl.
  destruct m as [| [p | p |] | p]; simpl; lia.
Qed.

Lemma iter_shr_1_lower n : forall k mrs,
  0 <= k -> 2 ^ (k + Zpos n) <= shr_m mrs ->
  2 ^ k <= shr_m (SpecFloat.iter_pos shr_1 n mrs).
Proof.
  induction n as [n IH | n IH |]; simpl; intros k mrs Hk H.
  - apply IH; [lia |]. apply IH; [lia |]. apply shr_1_lower; [lia |].
    replace (k + Zpos n + Zpos n + 1) with (k + Zpos n~1) by lia. exact H.
  - apply IH; [lia |]. apply IH; [lia |].
    replace (k + Zpos n + Zpos n) with (k + Zpos n~0) by lia. exact H.
  - apply shr_1_lower; auto.
Qed.

Section Format.
Variables prec emax : Z.
Hypothesis prec_pos : 0 < prec.

Abbreviation emin := (SpecFloat.emin prec emax).
Abbreviation fexp := (SpecFloat.fexp prec emax).

Lemma fexp_ge_emin e : emin <= fexp e.
Proof. unfold SpecFloat.fexp. lia. Qed.

(** A positive mantissa at an exponent of the format stays positive
    when it is brought to its canonical exponent. *)
Lemma shr_fexp_pos m e l :
  0 < m -> emin <= e ->
  0 < shr_m (fst (shr_fexp prec emax m e l))
  /\ emin <= snd (shr_fexp prec emax m e l).
Proof using prec_pos.
  intros Hm He. unfold shr_fexp, shr.
  destruct m as [| p | p]; try lia. simpl Zdigits2.
  pose proof (digits2_pos_bounds p) as [Hlo _].
  destruct (fexp (Zpos (digits2_pos p) + e) - e) as [| n | n] eqn:E; simpl;
    rewrite ?shr_record_of_loc_m; try (split; lia).
  assert (Hn : Zpos n = Zpos (digits2_pos p) - prec)
    by (unfold SpecFloat.fexp in E; lia).
  split; [| lia].
  assert (2 ^ 0 <= shr_m (SpecFloat.iter_pos shr_1 n (shr_record_of_loc (Zpos p) l))).
  { apply iter_shr_1_lower; [lia |]. rewrite shr_record_of_loc_m.
    eapply Z.le_trans; [| exact Hlo].
    apply Z.pow_le_mono_r; lia. }
  simpl in H. lia.
Qed.

Lemma round_nearest_even_pos m l : 0 < m -> 0 < round_nearest_even m l.
Proof.
  intros H. destruct l as [| []]; simpl; try lia.
  destruct (Z.even m); lia.
Qed.

Lemma binary_round_aux_nonzero sx mx ex lx :
  0 < mx -> emin <= ex ->
  match binary_round_aux prec emax sx mx ex lx with
  | S754_finite s _ _ | S754_infinity s => s = sx
  | _ => False
  end.
Proof using prec_pos.
  intros Hm He. unfold binary_round_aux.
  pose proof (shr_fexp_pos mx ex lx Hm He) as [H1 H1e].
  destruct (shr_fexp prec emax mx ex lx) as [mrs' e']; simpl in H1, H1e.
  pose proof (shr_fexp_pos
                (round_nearest_even (shr_m mrs') (loc_of_shr_record mrs'))
                e' loc_Exact (round_nearest_even_pos _ _ H1) H1e) as [H2 _].
  destruct (shr_fexp prec emax _ e' loc_Exact) as [mrs'' e'']; simpl in H2.
  destruct (shr_m mrs'') as [| m | m]; try lia.
  destruct (e'' <=? emax - prec); reflexivity.
Qed.

Lemma binary_round_nonzero sx mx ex :
  emin <= ex ->
  match binary_round prec emax sx mx ex with
  | S754_finite s _ _ | S754_infinity s => s = sx
  | _ => False
  end.
Proof using prec_pos.
  intros He. unfold binary_round.
  set (e' := fexp (Zpos (digits2_pos mx) + ex)).
  destruct (shl_align mx ex e') as [mz ez] eqn:E.
  apply binary_round_aux_nonzero; [lia |].
  destruct (Z.le_gt_cases e' ex) as [Hle | Hgt].
  - pose proof (shl_align_value mx ex e' Hle) as [_ Hs].
    rewrite E in Hs; simpl in Hs. subst ez. apply fexp_ge_emin.
  - unfold shl_align in E. destruct (e' - ex) eqn:E'; try lia.
    inversion E; subst; lia.
Qed.

(** The sign of an exactly known result [m * 2 ^ e] survives rounding. *)
Lemma binary_normalize_sign m e :
  emin <= e ->
  match m ?= 0 with
  | Gt => is_pos (binary_normalize prec emax m e false)
  | Eq => binary_normalize prec emax m e false = S754_zero false
  | Lt => is_neg (binary_normalize prec emax m e false)
  end.
Proof using prec_pos.
  intros He. destruct m as [| p | p]; simpl; auto.
  - pose proof (binary_round_nonzero false p e He) as H.
    destruct (binary_round prec emax false p e) as [| s | | s ? ?];
      try contradiction; subst; exact I.
  - pose proof (binary_round_nonzero true p e He) as H.
    destruct (binary_round prec emax true p e) as [| s | | s ? ?];
      try contradiction; subst; exact I.
Qed.

(** *** Comparison of valid numbers *)

Lemma bounded_canonical m e :
  bounded prec emax m e = true ->
  emin <= e /\ Zpos (digits2_pos m) <= prec
  /\ (emin < e -> Zpos (digits2_pos m) = prec).
Proof.
  unfold bounded, canonical_mantissa, SpecFloat.fexp.
  intros H. apply andb_true_iff in H as [H _].
  apply Z.eqb_eq in H. lia.
Qed.

(** Between valid numbers the one with the larger exponent is larger. *)
Lemma mantissa_lt mx ex my ey :
  bounded prec emax mx ex = true -> bounded prec emax my ey = true ->
  ex < ey -> Zpos mx < Zpos my * 2 ^ (ey - ex).
Proof using prec_pos.
  intros Hx Hy Hlt.
  apply bounded_canonical in Hx as (Hxe & Hxd & _).
  apply bounded_canonical in Hy as (_ & _ & Hyd).
  specialize (Hyd ltac:(lia)).
  pose proof (digits2_pos_bounds mx) as [_ Hxu].
  pose proof (digits2_pos_bounds my) as [Hyl _].
  rewrite Hyd in Hyl.
  assert (H2 : 2 ^ 1 <= 2 ^ (ey - ex)) by (apply Z.pow_le_mono_r; lia).
  assert (Hp : 2 ^ Zpos (digits2_pos mx) <= 2 ^ prec)
    by (apply Z.pow_le_mono_r; lia).
  assert (Hs : 2 ^ prec = 2 ^ (prec - 1) * 2 ^ 1)
    by (rewrite <- Z.pow_add_r by lia; f_equal; lia).
  assert (Hm : 2 ^ (prec - 1) * 2 ^ 1 <= Zpos my * 2 ^ (ey - ex))
    by (apply Z.mul_le_mono_nonneg; lia).
  lia.
Qed.

Lemma SFcompare_finite sx mx ex sy my ey :
  bounded prec emax mx ex = true -> bounded prec emax my ey = true ->
  SFcompare (S754_finite sx mx ex) (S754_finite sy my ey)
  = Some (aligned sx mx ex (Z.min ex ey) ?= aligned sy my ey (Z.min ex ey)).
Proof using prec_pos.
  intros Hx Hy. unfold aligned.
  destruct (shl_align_value mx ex (Z.min ex ey) ltac:(lia)) as [Vx _].
  destruct (shl_align_value my ey (Z.min ex ey) ltac:(lia)) as [Vy _].
  rewrite Vx, Vy. clear Vx Vy. simpl SFcompare.
  destruct (Z.compare_spec ex ey) as [E | L | G].
  - subst ey. rewrite Z.min_id, Z.sub_diag. simpl Z.pow. rewrite !Z.mul_1_r.
    f_equal. destruct sx, sy; reflexivity.
  - pose proof (mantissa_lt mx ex my ey Hx Hy L) as M.
    rewrite Z.min_l, Z.sub_diag by lia. simpl (2 ^ 0). rewrite Z.mul_1_r.
    f_equal. destruct sx, sy; simpl cond_Zopp; symmetry;
      first [apply Z.compare_lt_iff | apply Z.compare_gt_iff]; lia.
  - pose proof (mantissa_lt my ey mx ex Hy Hx ltac:(lia)) as M.
    rewrite Z.min_r, Z.sub_diag by lia. simpl (2 ^ 0). rewrite Z.mul_1_r.
    f_equal. destruct sx, sy; simpl cond_Zopp; symmetry;
      first [apply Z.compare_lt_iff | apply Z.compare_gt_iff]; lia.
Qed.

Lemma SFltb_zero_pos x : is_pos x -> SFltb (S754_zero false) x = true.
Proof. destruct x as [| [] | | [] ? ?]; simpl; intros H; auto; contradiction. Qed.

Lemma SFltb_zero_neg x : is_neg x -> SFltb (S754_zero false) x = false.
Proof. destruct x as [| [] | | [] ? ?]; simpl; intros H; auto; contradiction. Qed.

(** The comparator of a descending sort: for numbers [x] and [y],
    [y - x] is positive exactly when [x] is below [y]. *)
Lemma SFsub_pos_iff x y :
  SpecFloat.valid_binary prec emax x = true ->
  SpecFloat.valid_binary prec emax y = true ->
  x <> S754_nan -> y <> S754_nan ->
  SFltb (S754_zero false) (SFsub prec emax y x) = SFltb x y.
Proof using prec_pos.
  intros Vx Vy Nx Ny.
  destruct x as [sx | sx | | sx mx ex]; try congruence;
    destruct y as [sy | sy | | sy my ey]; try congruence;
    try (destruct sx, sy; reflexivity);
    try (destruct sx; reflexivity); try (destruct sy; reflexivity).
  simpl in Vx, Vy. unfold SFltb. rewrite SFcompare_finite by assumption.
  simpl SFsub. fold (aligned sy my ey (Z.min ey ex)).
  fold (aligned sx mx ex (Z.min ey ex)).
  rewrite (Z.min_comm ey ex).
  set (X := aligned sx mx ex (Z.min ex ey)).
  set (Y := aligned sy my ey (Z.min ex ey)).
  apply bounded_canonical in Vx as (Hxe & _).
  apply bounded_canonical in Vy as (Hye & _).
  pose proof (binary_normalize_sign (Y - X) (Z.min ex ey) ltac:(lia)) as H.
  fold (SFcompare (binary_normalize prec emax (Y - X) (Z.min ex ey) false)).
  destruct (Z.compare_spec (Y - X) 0) as [E | L | G].
  - rewrite H. simpl. destruct (Z.compare_spec X Y); auto; lia.
  - destruct (Z.compare_spec X Y); try lia;
      fold (SFltb (S754_zero false) (binary_normalize prec emax (Y - X) (Z.min ex ey) false));
      now rewrite SFltb_zero_neg.
  - destruct (Z.compare_spec X Y); try lia;
      fold (SFltb (S754_zero false) (binary_normalize prec emax (Y - X) (Z.min ex ey) false));
      now rewrite SFltb_zero_pos.
Qed.

End Format.

End Rounding.

(** ** Order and signs of numbers *)

Module NumberFacts.

Import Number Rounding.
Local Open Scope float_scope.

Lemma lex3_refl a : lex3 a a = Eq.
Proof. unfold lex3. now rewrite !Z.compare_refl. Qed.

Lemma lex3_antisym a b : lex3 b a = CompOpp (lex3 a b).
Proof.
  destruct a as [[a1 a2] a3], b as [[b1 b2] b3]. unfold lex3; simpl.
  compare_cases; simpl; try reflexivity; lia.
Qed.

Lemma lex3_trans a b c :
  lex3 a b <> Gt -> lex3 b c <> Gt -> lex3 a c <> Gt.
Proof.
  destruct a as [[a1 a2] a3], b as [[b1 b2] b3], c as [[c1 c2] c3].
  unfold lex3; simpl. intros H1 H2.
  compare_cases; simpl in *; try congruence; lia.
Qed.

Lemma lex3_eq_trans a b c : lex3 a c = Eq -> lex3 b c = Eq -> lex3 a b = Eq.
Proof.
  destruct a as [[a1 a2] a3], b as [[b1 b2] b3], c as [[c1 c2] c3].
  unfold lex3; simpl. intros H1 H2.
  compare_cases; simpl in *; try congruence; lia.
Qed.

Lemma SFcompare_rank x y :
  x <> S754_nan -> y <> S754_nan -> SFcompare x y = Some (lex3 (rank x) (rank y)).
Proof.
  intros Hx Hy.
  destruct x as [sx | [] | | [] mx ex]; try congruence;
    destruct y as [sy | [] | | [] my ey]; try congruence;
    try reflexivity; unfold lex3; simpl;
    try (destruct sx; reflexivity); try (destruct sy; reflexivity).
  f_equal. rewrite Z.compare_opp.
  destruct (Z.compare_spec ex ey), (Z.compare_spec ey ex); try lia; reflexivity.
Qed.

Lemma prec_pos : (0 < prec)%Z.
Proof. reflexivity. Qed.

(** *** [Math.round] and [Math.min] on some numbers *)

Example Math_round_half : Math_round 2.5 = 3.
Proof. reflexivity. Qed.

Example Math_round_negative_half : Math_round (-2.5) = -2.
Proof. reflexivity. Qed.

Example Math_round_just_below_half : Math_round 0x1.fffffffffffffp-2 = 0.
Proof. reflexivity. Qed.

Example Math_round_small_negative :
  Prim2SF (Math_round (-0.25)) = S754_zero true.
Proof. reflexivity. Qed.

Example Math_round_large : Math_round 0x1p60 = 0x1p60.
Proof. reflexivity. Qed.

Example Math_round_infinity : Math_round infinity = infinity.
Proof. reflexivity. Qed.

Example Math_round_ten_phi : Math_round (phi * 10) = 16.
Proof. reflexivity. Qed.

Example Math_min_of_zeros : Prim2SF (Math_min 0 (-0)) = S754_zero true.
Proof. reflexivity. Qed.

Example Math_min_of_nan : is_nan (Math_min nan 60) = true.
Proof. reflexivity. Qed.

Lemma is_nan_false x : is_nan x = false <-> Prim2SF x <> S754_nan.
Proof.
  unfold is_nan. rewrite FloatAxioms.eqb_spec. unfold SFeqb.
  destruct (Prim2SF x) as [s | s | | s m e] eqn:E.
  - simpl. split; [congruence | reflexivity].
  - destruct s; simpl; (split; [congruence | reflexivity]).
  - simpl. split; [discriminate | congruence].
  - rewrite SFcompare_rank, lex3_refl by congruence. simpl.
    split; [congruence | reflexivity].
Qed.

Lemma is_nan_true x : is_nan x = true <-> Prim2SF x = S754_nan.
Proof.
  pose proof (is_nan_false x) as H.
  destruct (is_nan x); split; intros E; try congruence.
  - destruct (Prim2SF x); try reflexivity;
      assert (true = false) by (apply H; discriminate); discriminate.
  - exfalso. now apply H.
Qed.

(** The comparisons of two numbers, read off their keys. *)
Lemma ltb_rank x y :
  is_nan x = false -> is_nan y = false ->
  (x <? y) = match lex3 (rank (Prim2SF x)) (rank (Prim2SF y)) with
             | Lt => true | _ => false end.
Proof.
  intros Hx%is_nan_false Hy%is_nan_false.
  rewrite FloatAxioms.ltb_spec. unfold SFltb. now rewrite SFcompare_rank.
Qed.

Lemma leb_rank x y :
  is_nan x = false -> is_nan y = false ->
  (x <=? y) = match lex3 (rank (Prim2SF x)) (rank (Prim2SF y)) with
              | Gt => false | _ => true end.
Proof.
  intros Hx%is_nan_false Hy%is_nan_false.
  rewrite FloatAxioms.leb_spec. unfold SFleb. rewrite SFcompare_rank by assumption.
  now destruct (lex3 _ _).
Qed.

Lemma eqb_rank x y :
  is_nan x = false -> is_nan y = false ->
  (x =? y) = match lex3 (rank (Prim2SF x)) (rank (Prim2SF y)) with
             | Eq => true | _ => false end.
Proof.
  intros Hx%is_nan_false Hy%is_nan_false.
  rewrite FloatAxioms.eqb_spec. unfold SFeqb. now rewrite SFcompare_rank.
Qed.

Lemma ltb_not_nan x y : (x <? y) = true -> is_nan x = false /\ is_nan y = false.
Proof.
  rewrite FloatAxioms.ltb_spec. unfold SFltb. intros H.
  split; apply is_nan_false; intros E; rewrite E in H;
    destruct (Prim2SF x), (Prim2SF y); simpl in H; congruence.
Qed.

Lemma leb_not_nan x y : (x <=? y) = true -> is_nan x = false /\ is_nan y = false.
Proof.
  rewrite FloatAxioms.leb_spec. unfold SFleb. intros H.
  split; apply is_nan_false; intros E; rewrite E in H;
    destruct (Prim2SF x), (Prim2SF y); simpl in H; congruence.
Qed.

Lemma eqb_not_nan x y : (x =? y) = true -> is_nan x = false /\ is_nan y = false.
Proof.
  rewrite FloatAxioms.eqb_spec. unfold SFeqb. intros H.
  split; apply is_nan_false; intros E; rewrite E in H;
    destruct (Prim2SF x), (Prim2SF y); simpl in H; congruence.
Qed.

(** Numbers are totally ordered. *)
Lemma ltb_leb x y :
  is_nan x = false -> is_nan y = false -> (x <? y) = negb (y <=? x).
Proof.
  intros Hx Hy. rewrite ltb_rank, leb_rank by assumption.
  rewrite (lex3_antisym (rank (Prim2SF x)) (rank (Prim2SF y))).
  now destruct (lex3 _ _).
Qed.

Lemma ltb_implies_leb x y : (x <? y) = true -> (x <=? y) = true.
Proof.
  intros H. destruct (ltb_not_nan _ _ H) as [Hx Hy].
  rewrite ltb_rank in H by assumption. rewrite leb_rank by assumption.
  now destruct (lex3 _ _).
Qed.

Lemma leb_trans x y z : (x <=? y) = true -> (y <=? z) = true -> (x <=? z) = true.
Proof.
  intros H1 H2.
  destruct (leb_not_nan _ _ H1) as [Hx Hy], (leb_not_nan _ _ H2) as [_ Hz].
  rewrite leb_rank in * by assumption.
  pose proof (lex3_trans (rank (Prim2SF x)) (rank (Prim2SF y)) (rank (Prim2SF z))) as T.
  destruct (lex3 (rank (Prim2SF x)) (rank (Prim2SF y))),
    (lex3 (rank (Prim2SF y)) (rank (Prim2SF z))),
    (lex3 (rank (Prim2SF x)) (rank (Prim2SF z)));
    try reflexivity; try discriminate; exfalso; apply T; congruence.
Qed.

Lemma leb_refl x : is_nan x = false -> (x <=? x) = true.
Proof. intros H. now rewrite leb_rank, lex3_refl. Qed.

(** [y - x > 0] exactly when [x < y]: the comparator of a descending sort
    agrees with the order of the numbers. *)
Lemma sub_pos_iff x y :
  is_nan x = false -> is_nan y = false -> (0 <? y - x) = (x <? y).
Proof.
  intros Hx%is_nan_false Hy%is_nan_false.
  rewrite !FloatAxioms.ltb_spec, FloatAxioms.sub_spec.
  change (Prim2SF 0) with (S754_zero false).
  apply (SFsub_pos_iff prec emax prec_pos); auto using Prim2SF_valid.
Qed.

(** *** Signs *)

Lemma ltb_zero_above x : (0 <? x) = true <-> above_zero x.
Proof.
  unfold above_zero. rewrite FloatAxioms.ltb_spec.
  change (Prim2SF 0) with (S754_zero false).
  unfold SFltb.
  destruct (Prim2SF x) as [s | [] | | [] m e]; simpl;
    (split; intros H; first [exact I | reflexivity | discriminate | contradiction]).
Qed.

Lemma above_zero_nonneg x : above_zero x -> nonneg x.
Proof.
  unfold above_zero, nonneg.
  destruct (Prim2SF x) as [s | [] | | [] m e]; simpl; tauto.
Qed.

Lemma nonneg_not_nan x : nonneg x -> is_nan x = false.
Proof.
  unfold nonneg. intros H. apply is_nan_false. intros E. now rewrite E in H.
Qed.

Lemma nonneg_leb_zero x : nonneg x -> (0 <=? x) = true.
Proof.
  unfold nonneg. rewrite FloatAxioms.leb_spec.
  change (Prim2SF 0) with (S754_zero false).
  unfold SFleb.
  destruct (Prim2SF x) as [s | [] | | [] m e]; simpl; intros H;
    first [reflexivity | discriminate | contradiction].
Qed.

Lemma nonneg_zero : nonneg 0.
Proof. reflexivity. Qed.

(** A sum of non-negative numbers is a non-negative number. *)
Lemma add_nonneg x y : nonneg x -> nonneg y -> nonneg (x + y).
Proof.
  unfold nonneg. rewrite FloatAxioms.add_spec. unfold SF64add.
  destruct (Prim2SF x) as [[] | [] | | [] mx ex]; simpl;
    try discriminate; try contradiction;
    destruct (Prim2SF y) as [[] | [] | | [] my ey]; simpl;
    try discriminate; try contradiction; try reflexivity.
  intros _ _. apply binary_round_sign.
Qed.

(** Adding [+0] to a non-negative number gives the number back. *)
Lemma add_zero_r x : nonneg x -> x + 0 = x.
Proof.
  unfold nonneg. intros H. apply Prim2SF_inj.
  rewrite FloatAxioms.add_spec. unfold SF64add.
  change (Prim2SF 0) with (S754_zero false).
  destruct (Prim2SF x) as [[] | [] | | [] mx ex]; simpl in *;
    first [reflexivity | discriminate | contradiction].
Qed.

(** *** [Math.min] *)

Lemma Math_min_cases a b :
  is_nan a = false -> is_nan b = false ->
  (Math_min a b = a /\ (a <=? b) = true) \/ (Math_min a b = b /\ (b <=? a) = true).
Proof.
  intros Ha Hb. unfold Math_min. rewrite Ha, Hb. simpl.
  destruct (a <? b) eqn:L1.
  - left. split; auto using ltb_implies_leb.
  - destruct (b <? a) eqn:L2.
    + right. split; auto using ltb_implies_leb.
    + rewrite ltb_leb in L1, L2 by assumption.
      apply negb_false_iff in L1, L2.
      destruct (get_sign a); [left | right]; auto.
Qed.

Lemma Math_min_le_r a b :
  is_nan a = false -> is_nan b = false -> (Math_min a b <=? b) = true.
Proof.
  intros Ha Hb.
  destruct (Math_min_cases a b Ha Hb) as [[-> H] | [-> H]]; auto using leb_refl.
Qed.

Lemma Math_min_nonneg a b : nonneg a -> nonneg b -> nonneg (Math_min a b).
Proof.
  intros Ha Hb.
  destruct (Math_min_cases a b (nonneg_not_nan a Ha) (nonneg_not_nan b Hb))
    as [[-> _] | [-> _]]; assumption.
Qed.

Lemma Math_min_above_zero a b :
  above_zero a -> above_zero b -> above_zero (Math_min a b).
Proof.
  intros Ha Hb.
  destruct (Math_min_cases a b (nonneg_not_nan a (above_zero_nonneg a Ha))
              (nonneg_not_nan b (above_zero_nonneg b Hb)))
    as [[-> _] | [-> _]]; assumption.
Qed.

(** *** Products, quotients and [Math.round] of non-negative numbers *)

Lemma is_infinity_spec x :
  is_infinity x = true <-> exists s, Prim2SF x = S754_infinity s.
Proof.
  unfold is_infinity. rewrite FloatAxioms.eqb_spec, abs_spec.
  change (Prim2SF infinity) with (S754_infinity false). unfold SFeqb.
  destruct (Prim2SF x) as [s | s | | s m e]; simpl;
    (split; [intros H; try discriminate; eauto | intros [s' H]; congruence]).
Qed.

Lemma mul_nonneg x c m e :
  nonneg x -> Prim2SF c = S754_finite false m e -> nonneg (x * c).
Proof.
  unfold nonneg. rewrite FloatAxioms.mul_spec. intros Hx ->. unfold SF64mul.
  destruct (Prim2SF x) as [[] | [] | | [] mx ex]; simpl in *;
    try discriminate; try contradiction; try reflexivity.
  apply binary_round_aux_sign. lia.
Qed.

Lemma div_nonneg x y :
  above_zero x -> above_zero y -> is_infinity x && is_infinity y = false ->
  nonneg (x / y).
Proof.
  unfold above_zero, nonneg. intros Hx Hy Hinf.
  rewrite FloatAxioms.div_spec. unfold SF64div.
  destruct (Prim2SF x) as [sx | [] | | [] mx ex] eqn:Ex; simpl in Hx; try contradiction;
    destruct (Prim2SF y) as [sy | [] | | [] my ey] eqn:Ey; simpl in Hy; try contradiction;
    try reflexivity.
  - exfalso.
    assert (Hix : is_infinity x = true) by (apply is_infinity_spec; eauto).
    assert (Hiy : is_infinity y = true) by (apply is_infinity_spec; eauto).
    rewrite Hix, Hiy in Hinf. discriminate.
  - unfold SFdiv, SFdiv_core_binary.
    set (m' := match (ex - ey - _)%Z with
               | Z0 => Zpos mx
               | Zpos _ => Z.shiftl (Zpos mx) _
               | Zneg _ => 0%Z
               end).
    assert (Hm : (0 <= m')%Z).
    { subst m'. destruct (ex - ey - _)%Z; try lia. apply Z.shiftl_nonneg. lia. }
    pose proof (Z.div_pos m' (Zpos my) Hm ltac:(lia)) as Hq.
    unfold Z.div in Hq.
    destruct (Z.div_eucl m' (Zpos my)) as [q r].
    apply binary_round_aux_sign. exact Hq.
Qed.

Lemma Math_round_nonneg x : nonneg x -> nonneg (Math_round x).
Proof.
  unfold nonneg, Math_round. intros H.
  destruct (Prim2SF x) as [s | s | | s m e] eqn:E; rewrite ?E; try assumption.
  simpl in H. subst s.
  destruct (0 <=? e)%Z; [now rewrite E |].
  simpl cond_Zopp.
  pose proof (Z.shiftr_nonneg (2 * Zpos m + 2 ^ (- e)) (1 - e)) as [_ Hs].
  assert (0 <= 2 ^ (- e))%Z by (apply Z.pow_nonneg; lia).
  specialize (Hs ltac:(lia)).
  destruct (Z.shiftr (2 * Zpos m + 2 ^ (- e)) (1 - e)) as [| p | p]; try lia.
  - reflexivity.
  - rewrite of_uint63_spec. apply binary_normalize_nonneg.
    apply Uint63.to_Z_bounded.
Qed.

(** *** [Math.round] gives integers *)

Local Open Scope Z_scope.

Lemma digits2_pos_iter_xO p k :
  Zpos (digits2_pos (Pos.iter xO p k)) = Zpos (digits2_pos p) + Zpos k.
Proof.
  induction k as [| k IH] using Pos.peano_ind.
  - simpl. lia.
  - rewrite Pos.iter_succ. simpl digits2_pos. rewrite Pos2Z.inj_succ, IH. lia.
Qed.

Lemma fexp64 k : fexp prec emax k = Z.max (k - 53) (-1074).
Proof. reflexivity. Qed.

Lemma binary_normalize_exact p :
  Zpos (digits2_pos p) <= 53 ->
  exists m e,
    binary_normalize prec emax (Zpos p) 0 false = S754_finite false m e
    /\ e <= 0 /\ Zpos m = Zpos p * 2 ^ (- e).
Proof.
  intros Hd.
  set (d := Zpos (digits2_pos p)) in *.
  assert (Hd1 : 1 <= d) by (subst d; lia).
  simpl binary_normalize. unfold binary_round.
  replace (Zpos (digits2_pos p) + 0) with d by (subst d; lia).
  rewrite fexp64. replace (Z.max (d - 53) (-1074)) with (d - 53) by lia.
  destruct (shl_align p 0 (d - 53)) as [mz ez] eqn:E.
  assert (Hmz : Zpos (digits2_pos mz) = 53 /\ ez = d - 53 /\ Zpos mz = Zpos p * 2 ^ (- ez)).
  { unfold shl_align in E.
    destruct (d - 53 - 0) as [| k | k] eqn:K; try lia.
    - inversion E; subst. replace (- 0) with 0 by lia. simpl. fold d. lia.
    - inversion E; subst. rewrite digits2_pos_iter_xO, iter_xO_value. fold d.
      replace (- (d - 53)) with (Zpos k) by lia. lia. }
  destruct Hmz as (H53 & Hez & Hval).
  exists mz, ez. split; [| split; [lia | exact Hval]].
  unfold binary_round_aux, shr_fexp. simpl Zdigits2. rewrite H53.
  rewrite fexp64. replace (Z.max (53 + ez - 53) (-1074) - ez) with 0 by lia.
  simpl. rewrite H53. rewrite fexp64.
  replace (Z.max (53 + ez - 53) (-1074) - ez) with 0 by lia.
  simpl. destruct (ez <=? emax - prec) eqn:L; [reflexivity |].
  apply Z.leb_gt in L. change (emax - prec) with 971 in L. lia.
Qed.

Lemma digits2_pos_le q n : 0 <= n -> Zpos q < 2 ^ n -> Zpos (digits2_pos q) <= n.
Proof.
  intros Hn Hq. pose proof (digits2_pos_bounds q) as [Hlo _].
  destruct (Z.le_gt_cases (Zpos (digits2_pos q)) n) as [|Hgt]; [assumption |].
  assert (2 ^ n <= 2 ^ (Zpos (digits2_pos q) - 1)) by (apply Z.pow_le_mono_r; lia).
  lia.
Qed.

Lemma of_uint63_integer q :
  Zpos q < 2 ^ 53 ->
  exists m e, Prim2SF (of_uint63 (Uint63.of_Z (Zpos q))) = S754_finite false m e
              /\ (0 <= e \/ (2 ^ (- e) | Zpos m)).
Proof.
  intros Hq. rewrite of_uint63_spec.
  change (Uint63Axioms.to_Z (Uint63.of_Z (Zpos q))) with (Uint63.to_Z (Uint63.of_Z (Zpos q))).
  rewrite Uint63.of_Z_spec, Z.mod_small
    by (split; [lia |]; eapply Z.lt_trans; [exact Hq | reflexivity]).
  destruct (binary_normalize_exact q (digits2_pos_le q 53 ltac:(lia) Hq))
    as (m & e & E & He & Hv).
  exists m, e. split; [exact E |]. right. rewrite Hv. apply Z.divide_factor_r.
Qed.

Lemma round_quotient_bound a k :
  1 <= k -> - 2 ^ 53 < a < 2 ^ 53 ->
  - 2 ^ 53 < Z.shiftr (2 * a + 2 ^ k) (1 + k) < 2 ^ 53.
Proof.
  intros Hk Ha. rewrite !Z.shiftr_div_pow2 by lia.
  assert (Hp : 0 < 2 ^ k) by (apply Z.pow_pos_nonneg; lia).
  assert (H2 : 2 ^ (1 + k) = 2 * 2 ^ k) by (rewrite Z.pow_add_r by lia; reflexivity).
  assert (Hk2 : 2 <= 2 ^ k).
  { change 2 with (2 ^ 1) at 1. apply Z.pow_le_mono_r; lia. }
  rewrite H2. split.
  - apply Z.lt_le_trans with (- 2 ^ 53 + 1); [lia |].
    apply Z.div_le_lower_bound; [lia |]. nia.
  - apply Z.div_lt_upper_bound; [lia |]. nia.
Qed.

Lemma is_finite_spec x :
  is_finite x = true ->
  match Prim2SF x with
  | S754_zero _ | S754_finite _ _ _ => True
  | _ => False
  end.
Proof.
  unfold is_finite. intros H. apply negb_true_iff, orb_false_iff in H as [Hn Hi].
  apply is_nan_false in Hn.
  destruct (Prim2SF x) as [s | s | | s m e] eqn:E; try exact I; try congruence.
  assert (is_infinity x = true) by (apply is_infinity_spec; eauto). congruence.
Qed.

Lemma Math_round_integer x : is_finite x = true -> is_integer (Math_round x).
Proof.
  intros Hf%is_finite_spec. unfold is_integer, Math_round.
  pose proof (Prim2SF_valid x) as V.
  destruct (Prim2SF x) as [s | s | | s m e] eqn:E; try contradiction.
  - now rewrite E.
  - destruct (Z.leb_spec 0 e) as [He | He]; [rewrite E; now left |].
    simpl in V. apply (bounded_canonical prec emax) in V as (_ & Hd & _).
    pose proof (digits2_pos_bounds m) as [_ Hm].
    assert (Hm53 : Zpos m < 2 ^ 53).
    { eapply Z.lt_le_trans; [exact Hm |]. apply Z.pow_le_mono_r; [lia | exact Hd]. }
    assert (Hb : - 2 ^ 53 < Z.shiftr (2 * cond_Zopp s (Zpos m) + 2 ^ (- e)) (1 - e) < 2 ^ 53).
    { replace (1 - e) with (1 + - e) by lia. apply round_quotient_bound; [lia |].
      destruct s; simpl; lia. }
    destruct (Z.shiftr (2 * cond_Zopp s (Zpos m) + 2 ^ (- e)) (1 - e)) as [| p | p].
    + destruct s; exact I.
    + destruct (of_uint63_integer p ltac:(lia)) as (m' & e' & -> & Hi). exact Hi.
    + rewrite opp_spec.
      destruct (of_uint63_integer p ltac:(lia)) as (m' & e' & -> & Hi). exact Hi.
Qed.

Lemma Math_round_integer_or_infinity x :
  nonneg x -> is_integer (Math_round x) \/ Math_round x = infinity.
Proof.
  intros H. destruct (is_finite x) eqn:F; [left; now apply Math_round_integer |].
  right. unfold is_finite in F. apply negb_false_iff in F.
  rewrite (nonneg_not_nan x H) in F. simpl in F.
  apply is_infinity_spec in F as [s Hs].
  unfold nonneg in H. rewrite Hs in H. simpl in H. subst s.
  unfold Math_round. rewrite Hs. apply Prim2SF_inj. now rewrite Hs.
Qed.

Local Close Scope Z_scope.

End NumberFacts.

(** ** The sort of an array *)

Module SortFacts.

Import Number JS NumberFacts.
Local Open Scope float_scope.

Section AnyComparator.

Context {A : Type} (compareFn : A -> A -> number).

Lemma insert_Permutation x l : insert compareFn x l ≡ₚ x :: l.
Proof.
  induction l as [| y l IH]; simpl; [reflexivity |].
  destruct (0 <? compareFn x y); [| reflexivity].
  rewrite IH. apply Permutation_swap.
Qed.

Lemma sort_Permutation l : sort compareFn l ≡ₚ l.
Proof.
  unfold sort. induction l as [| x l IH]; simpl; [reflexivity |].
  now rewrite insert_Permutation, IH.
Qed.

Lemma length_sort l : length (sort compareFn l) = length l.
Proof. apply Permutation_length, sort_Permutation. Qed.

(** A sort commutes with a map that leaves the comparator's results
    unchanged. *)
Lemma insert_map {B : Type} (g : A -> B) (compareFn' : B -> B -> number) x l :
  (forall a b, compareFn' (g a) (g b) = compareFn a b) ->
  insert compareFn' (g x) (map g l) = map g (insert compareFn x l).
Proof.
  intros Hg. induction l as [| y l IH]; simpl; [reflexivity |].
  rewrite Hg. destruct (0 <? compareFn x y); simpl; [now rewrite IH | reflexivity].
Qed.

Lemma sort_map {B : Type} (g : A -> B) (compareFn' : B -> B -> number) l :
  (forall a b, compareFn' (g a) (g b) = compareFn a b) ->
  sort compareFn' (map g l) = map g (sort compareFn l).
Proof.
  intros Hg. unfold sort. induction l as [| x l IH]; simpl; [reflexivity |].
  rewrite IH. now apply insert_map.
Qed.

End AnyComparator.

(** In a sorted list every element of a prefix is related to every element
    of the rest. *)
Lemma StronglySorted_prefix {A : Type} (R : A -> A -> Prop) (front back : list A) :
  StronglySorted R (front ++ back) ->
  forall a b, a ∈ front -> b ∈ back -> R a b.
Proof.
  induction front as [| x front IH]; simpl; intros Hs a b Ha Hb.
  - inversion Ha.
  - apply StronglySorted_inv in Hs as [Hs Hx].
    apply elem_of_cons in Ha as [-> | Ha]; [| now apply IH].
    rewrite List.Forall_forall in Hx. apply Hx, in_or_app. right.
    now apply list_elem_of_In.
Qed.

Section Descending.

(** The comparator [(a, b) => key(b) - key(a)] on elements whose keys are
    numbers (no NaN). *)
Context {A : Type} (key : A -> number).

Abbreviation descending := (descendingBy key).
Abbreviation ordered := (orderedBy key).

Lemma insert_descending_step x y rest :
  is_nan (key x) = false -> is_nan (key y) = false ->
  insert descending x (y :: rest)
  = if key x <? key y then y :: insert descending x rest else x :: y :: rest.
Proof.
  intros Hx Hy. simpl. unfold descendingBy at 1. now rewrite sub_pos_iff.
Qed.

Lemma insert_StronglySorted x l :
  is_nan (key x) = false -> Forall (fun a => is_nan (key a) = false) l ->
  StronglySorted ordered l -> StronglySorted ordered (insert descending x l).
Proof.
  intros Hx Hl Hs. induction Hs as [| y rest Hs IH Hy].
  - repeat constructor.
  - inversion Hl as [| ? ? Hny Hnrest]; subst.
    rewrite insert_descending_step by assumption.
    destruct (key x <? key y) eqn:L.
    + constructor; [auto |].
      rewrite insert_Permutation. constructor; [| assumption].
      apply ltb_implies_leb, L.
    + assert (Hyx : ordered x y).
      { unfold orderedBy. rewrite ltb_leb in L by assumption.
        now apply negb_false_iff in L. }
      constructor; [constructor; assumption |].
      constructor; [assumption |].
      eapply Forall_impl; [exact Hy |].
      intros z Hz. unfold orderedBy in *. eapply leb_trans; eassumption.
Qed.

(** The sorted array is in descending order of the keys. *)
Lemma sort_StronglySorted l :
  Forall (fun a => is_nan (key a) = false) l ->
  StronglySorted ordered (sort descending l).
Proof.
  induction l as [| x l IH]; intros Hl; simpl; [constructor |].
  inversion Hl; subst.
  apply insert_StronglySorted; auto.
  fold (sort descending l). now rewrite sort_Permutation.
Qed.

Lemma ltb_not_both_eqb x y h :
  (x <? y) = true -> (x =? h) = true -> (y =? h) = true -> False.
Proof.
  intros L Ex Ey.
  destruct (eqb_not_nan _ _ Ex) as [Hx Hh], (eqb_not_nan _ _ Ey) as [Hy _].
  rewrite ltb_rank in L by assumption.
  rewrite eqb_rank in Ex, Ey by assumption.
  pose proof (lex3_eq_trans (rank (Prim2SF x)) (rank (Prim2SF y)) (rank (Prim2SF h))) as T.
  destruct (lex3 (rank (Prim2SF x)) (rank (Prim2SF h))); try discriminate.
  destruct (lex3 (rank (Prim2SF y)) (rank (Prim2SF h))); try discriminate.
  rewrite T in L by reflexivity. discriminate.
Qed.

Lemma insert_filter h x l :
  is_nan (key x) = false -> Forall (fun a => is_nan (key a) = false) l ->
  List.filter (fun a => key a =? h) (insert descending x l)
  = List.filter (fun a => key a =? h) (x :: l).
Proof.
  intros Hx Hl. induction Hl as [| y rest Hy Hrest IH]; [reflexivity |].
  rewrite insert_descending_step by assumption.
  destruct (key x <? key y) eqn:L; [| reflexivity].
  simpl in *. rewrite IH.
  destruct (key x =? h) eqn:Ex, (key y =? h) eqn:Ey; try reflexivity.
  destruct (ltb_not_both_eqb _ _ _ L Ex Ey).
Qed.

(** The sort is stable: elements with equal keys keep their order. *)
Lemma sort_stable h l :
  Forall (fun a => is_nan (key a) = false) l ->
  List.filter (fun a => key a =? h) (sort descending l)
  = List.filter (fun a => key a =? h) l.
Proof.
  induction l as [| x l IH]; intros Hl; [reflexivity |].
  inversion Hl; subst. simpl sort.
  rewrite insert_filter; auto.
  - simpl. fold (sort descending l). now rewrite IH.
  - fold (sort descending l). now rewrite sort_Permutation.
Qed.

End Descending.

End SortFacts.

(** ** The approved hours of a user *)

Module ReviewFacts.

Import Number JS Schema Review NumberFacts SortFacts.
Local Open Scope float_scope.

(** The three branches give one and the same contribution. *)
Lemma contributedHours_uniform p approved :
  contributedHours p approved = if 0 <? approved then Math_min approved 15 else 0.
Proof.
  unfold contributedHours.
  destruct (viral p), (shipped p), (0 <? approved); reflexivity.
Qed.

Lemma contributedHours_nonneg p approved : nonneg (contributedHours p approved).
Proof.
  rewrite contributedHours_uniform.
  destruct (0 <? approved) eqn:E; [| exact nonneg_zero].
  apply above_zero_nonneg, Math_min_above_zero; [now apply ltb_zero_above | exact I].
Qed.

Lemma contributedHours_le_15 p approved : (contributedHours p approved <=? 15) = true.
Proof.
  rewrite contributedHours_uniform.
  destruct (0 <? approved) eqn:E; [| reflexivity].
  apply Math_min_le_r; [| reflexivity].
  now destruct (ltb_not_nan _ _ E).
Qed.

(** The callback adds the contribution of the project to the sum. *)
Lemma addContribution_sum acc p approved :
  nonneg acc -> addContribution acc p approved = acc + contributedHours p approved.
Proof.
  intros Hacc. unfold addContribution, contributedHours.
  destruct (viral p), (shipped p), (0 <? approved); simpl; try reflexivity;
    symmetry; now apply add_zero_r.
Qed.

Section Aggregation.

Variable getProjectHackatimeHours : Project -> number.
Variable getProjectApprovedHours : Project -> number.

Abbreviation contributionOf pw :=
  (contributedHours (project pw) (getProjectApprovedHours (project pw))).

Lemma foldl_addContribution l : forall acc,
  nonneg acc ->
  foldl (fun acc pw =>
           addContribution acc (project pw) (getProjectApprovedHours (project pw)))
        acc l
  = foldl (fun acc pw => acc + contributionOf pw) acc l
  /\ nonneg (foldl (fun acc pw => acc + contributionOf pw) acc l).
Proof.
  induction l as [| pw l IH]; intros acc Hacc; simpl; [auto |].
  rewrite addContribution_sum by assumption.
  apply IH, add_nonneg; auto using contributedHours_nonneg.
Qed.

Lemma userApprovedHours_sum userProjects :
  userApprovedHours getProjectHackatimeHours getProjectApprovedHours userProjects
  = foldl (fun acc pw => acc + contributionOf pw) 0
          (projectsWithHours getProjectHackatimeHours userProjects).
Proof. unfold userApprovedHours. apply foldl_addContribution, nonneg_zero. Qed.

Lemma userApprovedHours_nonneg userProjects :
  nonneg (userApprovedHours getProjectHackatimeHours getProjectApprovedHours userProjects).
Proof.
  rewrite userApprovedHours_sum. apply foldl_addContribution, nonneg_zero.
Qed.

Lemma cap_60_bounds total :
  nonneg total ->
  nonneg (Math_min total 60)
  /\ (0 <=? Math_min total 60) = true /\ (Math_min total 60 <=? 60) = true.
Proof.
  intros H.
  assert (Hn : nonneg (Math_min total 60)) by (apply Math_min_nonneg; [assumption | reflexivity]).
  repeat split; [assumption | now apply nonneg_leb_zero |].
  apply Math_min_le_r; [now apply nonneg_not_nan | reflexivity].
Qed.

(** C1. For every project among the (at most four) selected ones the
    contribution follows the three-way branch: a viral project with
    approved hours above 0 contributes [min(approved, 15)], so does a
    shipped one, and a project that is neither shipped nor viral
    contributes [min(approved, 15)] when its approved hours are above 0
    and 0 otherwise. The approved hours of the user are the sum of these
    contributions capped at 60: a number from 0 to 60 (never NaN),
    whatever the two helpers return. *)
Theorem finalHours_branches_and_cap (userProjects : list Project) :
  (forall pw, pw ∈ projectsWithHours getProjectHackatimeHours userProjects ->
     let p := project pw in
     let approved := getProjectApprovedHours p in
     (viral p = true -> (0 <? approved) = true ->
      contributedHours p approved = Math_min approved 15)
     /\ (shipped p = true -> (0 <? approved) = true ->
         contributedHours p approved = Math_min approved 15)
     /\ (shipped p = false -> viral p = false ->
         contributedHours p approved
         = if 0 <? approved then Math_min approved 15 else 0)
     /\ (0 <=? contributedHours p approved) = true
     /\ (contributedHours p approved <=? 15) = true)
  /\ finalHours getProjectHackatimeHours getProjectApprovedHours userProjects
     = Math_min
         (foldl (fun sum pw => sum + contributionOf pw) 0
                (projectsWithHours getProjectHackatimeHours userProjects))
         60
  /\ is_nan (finalHours getProjectHackatimeHours getProjectApprovedHours userProjects)
     = false
  /\ (0 <=? finalHours getProjectHackatimeHours getProjectApprovedHours userProjects)
     = true
  /\ (finalHours getProjectHackatimeHours getProjectApprovedHours userProjects <=? 60)
     = true.
Proof.
  split.
  - intros pw _ p approved.
    repeat split; try (rewrite contributedHours_uniform; now intros _ ->).
    + intros _ _. apply contributedHours_uniform.
    + apply nonneg_leb_zero, contributedHours_nonneg.
    + apply contributedHours_le_15.
  - unfold finalHours.
    destruct (cap_60_bounds _ (userApprovedHours_nonneg userProjects)) as (Hn & H0 & H60).
    repeat split; auto using nonneg_not_nan.
    now rewrite userApprovedHours_sum.
Qed.

(** *** Ranking and selection *)

Lemma ranked_projects userProjects :
  map project (rankedProjects getProjectHackatimeHours userProjects) ≡ₚ userProjects.
Proof.
  unfold rankedProjects. rewrite sort_Permutation, map_map. simpl.
  now rewrite map_id.
Qed.

Lemma ranked_hours userProjects :
  Forall (fun pw => hours pw = getProjectHackatimeHours (project pw))
         (rankedProjects getProjectHackatimeHours userProjects).
Proof.
  unfold rankedProjects. rewrite sort_Permutation.
  apply List.Forall_forall. intros pw Hin. apply in_map_iff in Hin as (p & <- & _).
  reflexivity.
Qed.

Lemma withHours_no_nan userProjects :
  Forall (fun p => is_nan (getProjectHackatimeHours p) = false) userProjects ->
  Forall (fun pw => is_nan (hours pw) = false)
         (map (withHours getProjectHackatimeHours) userProjects).
Proof.
  intros H. apply List.Forall_forall. intros pw Hin.
  apply in_map_iff in Hin as (p & <- & Hp).
  rewrite List.Forall_forall in H. now apply H.
Qed.

Lemma length_projectsWithHours userProjects :
  length (projectsWithHours getProjectHackatimeHours userProjects)
  = Nat.min 4 (length userProjects).
Proof.
  unfold projectsWithHours, rankedProjects.
  now rewrite length_take, length_sort, length_map.
Qed.

(** The sum only reads the selected projects. *)
Lemma foldl_addContribution_ext (approvedOf' : Project -> number) (g : Project -> Project) l :
  (forall pw, pw ∈ l ->
     g (project pw) = project pw
     /\ approvedOf' (project pw) = getProjectApprovedHours (project pw)) ->
  forall acc,
    foldl (fun acc pw => addContribution acc (project pw) (approvedOf' (project pw)))
          acc
          (map (fun pw => {| project := g (project pw); hours := hours pw |}) l)
    = foldl (fun acc pw =>
               addContribution acc (project pw) (getProjectApprovedHours (project pw)))
            acc l.
Proof.
  induction l as [| pw l IH]; intros H acc; simpl; [reflexivity |].
  destruct (H pw ltac:(left)) as [-> ->].
  apply IH. intros pw' Hin. apply H. now right.
Qed.

Lemma finalHours_cut_off (approvedOf' : Project -> number) (g : Project -> Project)
    userProjects :
  (forall p, getProjectHackatimeHours (g p) = getProjectHackatimeHours p) ->
  (forall pw, pw ∈ projectsWithHours getProjectHackatimeHours userProjects ->
     g (project pw) = project pw
     /\ approvedOf' (project pw) = getProjectApprovedHours (project pw)) ->
  finalHours getProjectHackatimeHours approvedOf' (map g userProjects)
  = finalHours getProjectHackatimeHours getProjectApprovedHours userProjects.
Proof.
  intros Hg Hsel. unfold finalHours, userApprovedHours. f_equal.
  set (G := fun pw => {| project := g (project pw); hours := hours pw |}).
  assert (E : projectsWithHours getProjectHackatimeHours (map g userProjects)
              = map G (projectsWithHours getProjectHackatimeHours userProjects)).
  { unfold projectsWithHours, rankedProjects.
    rewrite <- firstn_map. f_equal.
    rewrite <- (sort_map byHoursDescending G byHoursDescending) by reflexivity.
    f_equal. rewrite !map_map. apply map_ext. intros p.
    unfold G, withHours. simpl. now rewrite Hg. }
  rewrite E. now apply foldl_addContribution_ext.
Qed.

(** C2. The projects of a user are ranked by their hours in descending
    order, projects with equal hours keeping the order in which they
    came; the first four of the ranking are selected (all of them when
    there are fewer than four), so that no project left out has more
    hours than a selected one; and what happens to a project outside the
    selection - its flags, its approved hours - does not change the
    approved hours of the user. The order of the ranking is stated for
    hours that are numbers: a NaN makes the comparator inconsistent, and
    the order of the sort is then left to the engine. *)
Theorem top_four_by_hours (userProjects : list Project) :
  let ranked := rankedProjects getProjectHackatimeHours userProjects in
  let selected := projectsWithHours getProjectHackatimeHours userProjects in
  map project ranked ≡ₚ userProjects
  /\ Forall (fun pw => hours pw = getProjectHackatimeHours (project pw)) ranked
  /\ (Forall (fun p => is_nan (getProjectHackatimeHours p) = false) userProjects ->
      StronglySorted (fun a b => (hours b <=? hours a) = true) ranked
      /\ (forall h,
            List.filter (fun pw => hours pw =? h) ranked
            = List.filter (fun pw => hours pw =? h)
                          (map (withHours getProjectHackatimeHours) userProjects))
      /\ (forall a b,
            a ∈ selected -> b ∈ drop 4 ranked -> (hours b <=? hours a) = true))
  /\ selected = take 4 ranked
  /\ length selected = Nat.min 4 (length userProjects)
  /\ (forall (approvedOf' : Project -> number) (g : Project -> Project),
        (forall p, getProjectHackatimeHours (g p) = getProjectHackatimeHours p) ->
        (forall pw, pw ∈ selected ->
           g (project pw) = project pw
           /\ approvedOf' (project pw) = getProjectApprovedHours (project pw)) ->
        finalHours getProjectHackatimeHours approvedOf' (map g userProjects)
        = finalHours getProjectHackatimeHours getProjectApprovedHours userProjects).
Proof.
  intros ranked selected.
  split; [apply ranked_projects |].
  split; [apply ranked_hours |].
  split.
  { intros Hnan. pose proof (withHours_no_nan userProjects Hnan) as Hn.
    assert (Hs : StronglySorted (fun a b => (hours b <=? hours a) = true) ranked)
      by apply (sort_StronglySorted hours), Hn.
    split; [exact Hs | split].
    - intros h. apply (sort_stable hours), Hn.
    - apply StronglySorted_prefix. unfold selected, projectsWithHours.
      fold ranked. now rewrite take_drop. }
  split; [reflexivity |].
  split; [apply length_projectsWithHours |].
  intros approvedOf' g. apply finalHours_cut_off.
Qed.

End Aggregation.

Section Batch.

Variable findMany : string -> outcome (list Project).
Variable getProjectHackatimeHours : Project -> outcome number.
Variable getProjectApprovedHours : Project -> outcome number.

Abbreviation entryOf userId :=
  (catch (tryFinalHours findMany getProjectHackatimeHours getProjectApprovedHours userId) 0).

Lemma foldl_processUser userIds : forall (done : gmap string number) (u : string),
  foldl (processUser findMany getProjectHackatimeHours getProjectApprovedHours)
        done userIds !! u
  = if decide (u ∈ userIds) then Some (entryOf u) else done !! u.
Proof.
  induction userIds as [| v rest IH]; intros done u; simpl.
  - destruct (decide (u ∈ [])) as [Hin | _]; [inversion Hin | reflexivity].
  - rewrite IH.
    destruct (decide (u ∈ rest)) as [Hin | Hout].
    + rewrite decide_True by now right. reflexivity.
    + destruct (decide (u = v)) as [-> | Hne].
      * rewrite decide_True by now left.
        unfold processUser. now rewrite lookup_insert_eq.
      * rewrite decide_False by (rewrite elem_of_cons; tauto).
        unfold processUser. now rewrite lookup_insert_ne.
Qed.

End Batch.

(** When the query answers and the helpers do not throw, the body of the
    [try] computes [finalHours]. *)
Lemma mapM_Returned {A B} (f : A -> B) l :
  mapM (fun x => Returned (f x)) l = Returned (map f l).
Proof. induction l as [| x l IH]; simpl; [reflexivity | now rewrite IH]. Qed.

Lemma foldM_Returned {A B} (f : B -> A -> B) l : forall acc,
  foldM (fun acc x => Returned (f acc x)) acc l = Returned (foldl f acc l).
Proof. induction l as [| x l IH]; intros acc; simpl; [reflexivity | apply IH]. Qed.

Lemma tryFinalHours_total findMany (hoursOf approvedOf : Project -> number)
    userId userProjects :
  findMany userId = Returned userProjects ->
  tryFinalHours findMany (fun p => Returned (hoursOf p)) (fun p => Returned (approvedOf p))
                userId
  = Returned (finalHours hoursOf approvedOf userProjects).
Proof.
  intros E. unfold tryFinalHours. rewrite E. simpl.
  rewrite (mapM_Returned (withHours hoursOf)). simpl.
  rewrite (foldM_Returned
             (fun acc pw => addContribution acc (project pw) (approvedOf (project pw)))).
  reflexivity.
Qed.

Lemma addContribution_nonneg acc p approved :
  nonneg acc -> nonneg (addContribution acc p approved).
Proof.
  intros H. rewrite addContribution_sum by assumption.
  apply add_nonneg; auto using contributedHours_nonneg.
Qed.

Lemma foldM_addContribution_nonneg (getProjectApprovedHours : Project -> outcome number) l :
  forall acc total,
    nonneg acc ->
    foldM (fun acc pw => do approved <- getProjectApprovedHours (project pw);
                         Returned (addContribution acc (project pw) approved))
          acc l = Returned total ->
    nonneg total.
Proof.
  induction l as [| pw l IH]; simpl; intros acc total Hacc E.
  - now inversion E; subst.
  - destruct (getProjectApprovedHours (project pw)) as [approved | error];
      simpl in E; [| discriminate].
    eapply IH; [| exact E]. now apply addContribution_nonneg.
Qed.

Lemma tryFinalHours_nonneg findMany getProjectHackatimeHours getProjectApprovedHours
    userId finalHours :
  tryFinalHours findMany getProjectHackatimeHours getProjectApprovedHours userId
  = Returned finalHours ->
  nonneg finalHours.
Proof.
  unfold tryFinalHours. intros E.
  destruct (findMany userId) as [userProjects | ?]; simpl in E; [| discriminate].
  destruct (mapM _ userProjects) as [allWithHours | ?]; simpl in E; [| discriminate].
  destruct (foldM _ 0 _) as [total | ?] eqn:F; simpl in E; [| discriminate].
  inversion E; subst.
  apply Math_min_nonneg; [| reflexivity].
  eapply foldM_addContribution_nonneg; [exact nonneg_zero | exact F].
Qed.

(** [h || 0] is [h] for a non-negative number [h]. *)
Lemma or_zero_nonneg h : nonneg h -> (if truthy (JNum h) then h else 0) = h.
Proof.
  intros H. simpl. rewrite (nonneg_not_nan h H), orb_false_r.
  destruct (is_zero h) eqn:Z; [| reflexivity]. simpl.
  unfold is_zero in Z. rewrite FloatAxioms.eqb_spec in Z.
  change (Prim2SF zero) with (S754_zero false) in Z.
  apply Prim2SF_inj. change (Prim2SF 0) with (S754_zero false).
  unfold nonneg in H. unfold SFeqb in Z.
  destruct (Prim2SF h) as [[] | [] | | [] m e]; simpl in *;
    first [reflexivity | discriminate | contradiction].
Qed.

(** C3. Every user of the batch gets an entry, whatever happens to the
    other users: when the computation for this user throws, the entry is
    0 and so are the approved hours reported for an owner; otherwise they
    are the computed hours. The entry depends on the computation for this
    user alone: in a run where it goes the same way, the entry is the
    same, whichever other users fail. *)
Theorem batch_survives_failures
    (findMany : string -> outcome (list Project))
    (getProjectHackatimeHours getProjectApprovedHours : Project -> outcome number)
    (userIds : list string) (u : string) :
  u ∈ userIds ->
  let thisRun := tryFinalHours findMany getProjectHackatimeHours getProjectApprovedHours in
  let entries :=
    userProjectsMap findMany getProjectHackatimeHours getProjectApprovedHours userIds in
  (forall error,
      thisRun u = Thrown error ->
      entries !! u = Some 0
      /\ ownerApprovedHours findMany getProjectHackatimeHours getProjectApprovedHours
           userIds u = 0)
  /\ (forall finalHours,
        thisRun u = Returned finalHours ->
        entries !! u = Some finalHours
        /\ ownerApprovedHours findMany getProjectHackatimeHours getProjectApprovedHours
             userIds u = finalHours)
  /\ (forall findMany' getProjectHackatimeHours' getProjectApprovedHours',
        tryFinalHours findMany' getProjectHackatimeHours' getProjectApprovedHours' u
        = thisRun u ->
        userProjectsMap findMany' getProjectHackatimeHours' getProjectApprovedHours'
          userIds !! u
        = entries !! u).
Proof.
  intros Hin thisRun entries.
  assert (E : entries !! u = Some (catch (thisRun u) 0)).
  { unfold entries, userProjectsMap. now rewrite foldl_processUser, decide_True. }
  split; [| split].
  - intros error T. unfold ownerApprovedHours. fold entries. rewrite E, T.
    split; reflexivity.
  - intros finalHours R. unfold ownerApprovedHours. fold entries. rewrite E, R.
    split; [reflexivity |]. simpl catch.
    apply or_zero_nonneg. eapply tryFinalHours_nonneg. exact R.
  - intros findMany' hours' approved' Same. rewrite E.
    unfold userProjectsMap. rewrite foldl_processUser, decide_True by assumption.
    now rewrite Same.
Qed.

(** *** The example of the spec *)

Example five_projects_capped :
  finalHours Examples.fiveHours Examples.fiveApproved Examples.fiveProjects = 60.
Proof. vm_compute. reflexivity. Qed.

Example five_projects_viral_fifth :
  finalHours Examples.fiveHours Examples.fiveApprovedViral
             (map (Examples.goViral "p5") Examples.fiveProjects) = 60.
Proof. vm_compute. reflexivity. Qed.

Example tied_projects_ranking :
  map (fun pw => projectID (project pw))
      (rankedProjects Examples.tiedHours Examples.tiedProjects)
  = ["d"; "b"; "e"; "a"; "c"; "f"].
Proof. vm_compute. reflexivity. Qed.

Lemma finalHours_branches_and_cap_witness :
  finalHours Examples.fiveHours Examples.fiveApproved Examples.fiveProjects
  = Math_min (0 + 15 + 15 + 15 + 15) 60
  /\ (finalHours Examples.fiveHours Examples.fiveApproved Examples.fiveProjects <=? 60)
     = true.
Proof.
  destruct (finalHours_branches_and_cap Examples.fiveHours Examples.fiveApproved
              Examples.fiveProjects) as (_ & E & _ & _ & H).
  split; [rewrite E; vm_compute; reflexivity | exact H].
Defined.

Lemma top_four_by_hours_witness :
  Forall (fun p => is_nan (Examples.tiedHours p) = false) Examples.tiedProjects
  /\ StronglySorted (fun a b => (hours b <=? hours a) = true)
       (rankedProjects Examples.tiedHours Examples.tiedProjects)
  /\ length (projectsWithHours Examples.fiveHours Examples.fiveProjects) = 4%nat
  /\ finalHours Examples.fiveHours Examples.fiveApprovedViral
                (map (Examples.goViral "p5") Examples.fiveProjects)
     = finalHours Examples.fiveHours Examples.fiveApproved Examples.fiveProjects.
Proof.
  assert (H : Forall (fun p => is_nan (Examples.tiedHours p) = false)
                     Examples.tiedProjects)
    by (repeat constructor).
  split; [exact H |].
  destruct (top_four_by_hours Examples.tiedHours Examples.fiveApproved
              Examples.tiedProjects) as (_ & _ & S & _).
  split; [exact (proj1 (S H)) |].
  destruct (top_four_by_hours Examples.fiveHours Examples.fiveApproved
              Examples.fiveProjects) as (_ & _ & _ & _ & L & C).
  split; [exact L |].
  apply C.
  - intros p. unfold Examples.goViral.
    destruct (String.eqb (projectID p) "p5"); reflexivity.
  - intros pw Hin. vm_compute in Hin.
    repeat (apply elem_of_cons in Hin as [-> | Hin]; [split; reflexivity |]).
    inversion Hin.
Defined.

Lemma batch_survives_failures_witness :
  "u0" ∈ ["u0"; "u1"]
  /\ userProjectsMap Examples.flakyFindMany
       (fun p => Returned (Examples.fiveHours p))
       (fun p => Returned (Examples.fiveApproved p)) ["u0"; "u1"] !! "u0" = Some 0.
Proof.
  assert (H : "u0" ∈ ["u0"; "u1"]) by (left).
  split; [exact H |].
  destruct (batch_survives_failures Examples.flakyFindMany
              (fun p => Returned (Examples.fiveHours p))
              (fun p => Returned (Examples.fiveApproved p)) ["u0"; "u1"] "u0" H)
    as (T & _ & _).
  now destruct (T "connection closed" eq_refl).
Defined.

Example batch_of_two :
  userProjectsMap Examples.flakyFindMany
    (fun p => Returned (Examples.fiveHours p))
    (fun p => Returned (Examples.fiveApproved p)) ["u0"; "u1"]
  = {[ "u0" := 0; "u1" := 60 ]}.
Proof.
  apply map_eq. intros u.
  unfold userProjectsMap. rewrite foldl_processUser.
  destruct (decide (u = "u0")) as [-> | H0]; [reflexivity |].
  destruct (decide (u = "u1")) as [-> | H1]; [reflexivity |].
  rewrite decide_False by (rewrite !elem_of_cons, elem_of_nil; tauto).
  rewrite lookup_insert_ne, lookup_singleton_ne by congruence. reflexivity.
Qed.

End ReviewFacts.

(** ** Shell prices *)

Module ShopFacts.

Import Number JS Shop NumberFacts.
Local Open Scope float_scope.

(** *** Finite numbers *)

Lemma is_finite_iff x :
  is_finite x = true <->
  match Prim2SF x with
  | S754_zero _ | S754_finite _ _ _ => True
  | _ => False
  end.
Proof.
  split; [apply is_finite_spec |].
  intros H. unfold is_finite. apply negb_true_iff, orb_false_iff. split.
  - apply is_nan_false. intros E. now rewrite E in H.
  - destruct (is_infinity x) eqn:Hi; [| reflexivity].
    apply is_infinity_spec in Hi as [s E]. now rewrite E in H.
Qed.

Lemma mul_finite_l x c : is_finite (x * c) = true -> is_finite x = true.
Proof.
  rewrite !is_finite_iff, FloatAxioms.mul_spec. unfold SF64mul.
  destruct (Prim2SF x) as [sx | sx | | sx mx ex]; try (intros; exact I);
    destruct (Prim2SF c) as [sc | sc | | sc mc ec]; simpl; intros H; exact H.
Qed.

Lemma nonneg_not_below_zero x : nonneg x -> (x <? 0) = false.
Proof.
  unfold nonneg. rewrite FloatAxioms.ltb_spec.
  change (Prim2SF 0) with (S754_zero false).
  destruct (Prim2SF x) as [s | s | | s m e]; simpl; intros H;
    try contradiction; subst; reflexivity.
Qed.

Lemma finite_not_infinity x : is_finite x = true -> is_infinity x = false.
Proof.
  unfold is_finite. intros H. now apply negb_true_iff, orb_false_iff in H as [_ H].
Qed.

Lemma invalidBasis_false x :
  invalidBasis x = false <-> is_finite x = true /\ (x <? 0) = false.
Proof.
  unfold invalidBasis. rewrite orb_false_iff, negb_false_iff. reflexivity.
Qed.

Lemma Math_round_valid x :
  invalidBasis x = false ->
  is_integer (Math_round x) /\ (0 <=? Math_round x) = true.
Proof.
  intros [Hf Hn]%invalidBasis_false. split; [now apply Math_round_integer |].
  pose proof (is_finite_spec x Hf) as Hs.
  destruct (Prim2SF x) as [s | s | | s m e] eqn:E; try contradiction.
  - unfold Math_round. rewrite E, FloatAxioms.leb_spec, E. now destruct s.
  - destruct s.
    + rewrite FloatAxioms.ltb_spec, E in Hn. discriminate.
    + apply nonneg_leb_zero, Math_round_nonneg. unfold nonneg. now rewrite E.
Qed.

(** *** The formula of the spec *)

Lemma shellPriceFormula_cases usdCost dollarsPerHour :
  shellPriceFormula usdCost dollarsPerHour
  = Returned (Math_round (usdCost / dollarsPerHour * phi * 10))
  \/ shellPriceFormula usdCost dollarsPerHour = Thrown "InvalidCostBasis".
Proof. unfold shellPriceFormula. destruct (existsb _ _); auto. Qed.

Lemma shellPriceFormula_Returned usdCost dollarsPerHour shells :
  shellPriceFormula usdCost dollarsPerHour = Returned shells ->
  shells = Math_round (usdCost / dollarsPerHour * phi * 10)
  /\ is_integer shells /\ (0 <=? shells) = true
  /\ invalidBasis usdCost = false /\ invalidBasis dollarsPerHour = false.
Proof.
  unfold shellPriceFormula.
  destruct (existsb _ _) eqn:E; [discriminate |].
  intros [= <-]. simpl in E.
  repeat (apply orb_false_iff in E as [? E]).
  split; [reflexivity |].
  destruct (Math_round_valid (usdCost / dollarsPerHour * phi * 10)); auto.
Qed.

Lemma shellPriceFormula_Thrown usdCost dollarsPerHour :
  invalidBasis usdCost = true \/ invalidBasis dollarsPerHour = true
  \/ invalidBasis (usdCost / dollarsPerHour * phi * 10) = true ->
  shellPriceFormula usdCost dollarsPerHour = Thrown "InvalidCostBasis".
Proof.
  unfold shellPriceFormula. simpl. intros [-> | [-> | ->]];
    rewrite ?orb_true_r; reflexivity.
Qed.

Lemma shellPriceFormula_finite usdCost dollarsPerHour :
  (0 <? usdCost) = true -> (0 <? dollarsPerHour) = true ->
  is_finite usdCost = true -> is_finite dollarsPerHour = true ->
  is_finite (usdCost / dollarsPerHour * phi * 10) = true ->
  shellPriceFormula usdCost dollarsPerHour
  = Returned (Math_round (usdCost / dollarsPerHour * phi * 10)).
Proof.
  intros Hu Hr Fu Fr F. unfold shellPriceFormula.
  pose proof Hu as Au%ltb_zero_above. pose proof Hr as Ar%ltb_zero_above.
  assert (Nh : nonneg (usdCost / dollarsPerHour)).
  { apply div_nonneg; auto. now rewrite (finite_not_infinity _ Fu). }
  assert (Np : nonneg (usdCost / dollarsPerHour * phi)).
  { eapply mul_nonneg; [exact Nh | vm_compute; reflexivity]. }
  assert (Ns : nonneg (usdCost / dollarsPerHour * phi * 10)).
  { eapply mul_nonneg; [exact Np | vm_compute; reflexivity]. }
  pose proof (mul_finite_l _ _ F) as Fp. pose proof (mul_finite_l _ _ Fp) as Fh.
  assert (V : forall x, is_finite x = true -> nonneg x -> invalidBasis x = false).
  { intros x Hf Hn. apply invalidBasis_false. split; [exact Hf |].
    now apply nonneg_not_below_zero. }
  simpl. rewrite !V; auto using above_zero_nonneg.
Qed.

Example sixteen_shells : shellPriceFormula 10 10 = Returned 16.
Proof. reflexivity. Qed.

Example negative_cost_rejected :
  shellPriceFormula (-10) 10 = Thrown "InvalidCostBasis".
Proof. reflexivity. Qed.

Example overflow_rejected :
  shellPriceFormula 0x1p1023 0x1p-1000 = Thrown "InvalidCostBasis".
Proof. reflexivity. Qed.

(** *** The price of a fixed item *)

Section Submit.

Variable calculateShellPrice : number -> number -> outcome number.
Variable fetch : string -> string -> Payload -> outcome Response.
Variable NumberToString : number -> string.

Lemma finalPrice_fixed formData dollarsPerHour :
  costType formData = fixed ->
  (0 <? usdCost formData) = true -> (0 <? dollarsPerHour) = true ->
  finalPrice calculateShellPrice formData dollarsPerHour
  = calculateShellPrice (usdCost formData) dollarsPerHour.
Proof. intros Hc Hu Hr. unfold finalPrice. now rewrite Hc, Hu, Hr. Qed.

Lemma finalPrice_kept formData dollarsPerHour :
  costType formData = config
  \/ (0 <? usdCost formData) = false \/ (0 <? dollarsPerHour) = false ->
  finalPrice calculateShellPrice formData dollarsPerHour = Returned (price formData).
Proof.
  unfold finalPrice. intros [-> | [-> | ->]]; [reflexivity | |];
    destruct (costType formData); try reflexivity.
  now rewrite andb_false_r.
Qed.

(** What the form sends: the price of [finalPrice], the cost and the flag
    of the form, and the config as parsed ([null] for an empty text). *)
Lemma handleSubmit_Sent editingItem formData dollarsPerHour payload result :
  handleSubmit calculateShellPrice fetch NumberToString editingItem formData
    dollarsPerHour = Sent payload result ->
  finalPrice calculateShellPrice formData dollarsPerHour
  = Returned (payload_price payload)
  /\ payload_usdCost payload = usdCost formData
  /\ payload_costType payload = costType formData
  /\ payload_useRandomizedPricing payload = useRandomizedPricing formData
  /\ (forall e, configText formData <> InvalidText e)
  /\ result = send fetch NumberToString editingItem payload.
Proof.
  unfold handleSubmit, payloadOf.
  destruct (configText formData) as [| e | parsed]; simpl; try discriminate;
    destruct (finalPrice calculateShellPrice formData dollarsPerHour);
    simpl; intros [= <- <-]; repeat split; congruence.
Qed.

(** A submission that sends nothing: the config text does not parse, or
    [calculateShellPrice] throws. *)
Lemma handleSubmit_NotSent editingItem formData dollarsPerHour error :
  handleSubmit calculateShellPrice fetch NumberToString editingItem formData
    dollarsPerHour = NotSent error <->
  configText formData = InvalidText error
  \/ ((forall e, configText formData <> InvalidText e)
      /\ finalPrice calculateShellPrice formData dollarsPerHour = Thrown error).
Proof.
  unfold handleSubmit, payloadOf.
  destruct (configText formData) as [| e | parsed]; simpl;
    destruct (finalPrice calculateShellPrice formData dollarsPerHour); simpl;
    split; try discriminate;
    try (intros [= <-]; auto; right; split; congruence);
    intros [H | [Hn H]]; try congruence;
    exfalso; now apply (Hn e).
Qed.

(** The answer to a payload that was sent. *)
Lemma send_cases editingItem payload :
  match fetch (url editingItem) (method editingItem) payload with
  | Thrown error => send fetch NumberToString editingItem payload = Thrown error
  | Returned response =>
      if ok response
      then send fetch NumberToString editingItem payload = Returned tt
      else exists error, send fetch NumberToString editingItem payload = Thrown error
  end.
Proof.
  unfold send.
  destruct (fetch _ _ payload) as [response | error]; simpl; [| reflexivity].
  destruct (ok response); simpl; [reflexivity |].
  destruct (json response) as [errorData | error]; simpl; [| eauto].
  destruct (member errorData "error"); simpl; eauto.
Qed.

End Submit.

(** C4, as amended. A fixed item submitted with a cost above 0 while the
    global rate is above 0 is priced by [calculateShellPrice] at the cost
    and the global rate, whatever the config of the item holds: the price
    of a payload that is sent is the result of that call, and a fixed item
    with the same cost gets the same price, with or without a
    [dollars_per_hour] of its own. With the formula of the spec for
    [calculateShellPrice] the price is
    [round((usdCost / dollarsPerHour) * φ * 10)], a function of the cost
    and the rate, unless the formula rejects its input, which it does not
    when the cost, the rate and the product are finite; and a cost of 10
    at a rate of 10 gives 16. *)
Theorem fixed_price_at_global_rate
    (calculateShellPrice : number -> number -> outcome number)
    (fetch : string -> string -> Payload -> outcome Response)
    (NumberToString : number -> string) (editingItem : option string)
    (formData : FormData) (dollarsPerHour : number) :
  costType formData = fixed ->
  (0 <? usdCost formData) = true -> (0 <? dollarsPerHour) = true ->
  finalPrice calculateShellPrice formData dollarsPerHour
  = calculateShellPrice (usdCost formData) dollarsPerHour
  /\ (forall payload result,
        handleSubmit calculateShellPrice fetch NumberToString editingItem
          formData dollarsPerHour = Sent payload result ->
        calculateShellPrice (usdCost formData) dollarsPerHour
        = Returned (payload_price payload))
  /\ (forall other,
        costType other = fixed -> usdCost other = usdCost formData ->
        finalPrice calculateShellPrice other dollarsPerHour
        = finalPrice calculateShellPrice formData dollarsPerHour)
  /\ finalPrice shellPriceFormula formData dollarsPerHour
     = shellPriceFormula (usdCost formData) dollarsPerHour
  /\ (shellPriceFormula (usdCost formData) dollarsPerHour
      = Returned (Math_round (usdCost formData / dollarsPerHour * phi * 10))
      \/ shellPriceFormula (usdCost formData) dollarsPerHour
         = Thrown "InvalidCostBasis")
  /\ (is_finite (usdCost formData) = true -> is_finite dollarsPerHour = true ->
      is_finite (usdCost formData / dollarsPerHour * phi * 10) = true ->
      finalPrice shellPriceFormula formData dollarsPerHour
      = Returned (Math_round (usdCost formData / dollarsPerHour * phi * 10)))
  /\ shellPriceFormula 10 10 = Returned 16
  /\ Math_round (10 / 10 * phi * 10) = 16.
Proof.
  intros Hc Hu Hr.
  split; [now apply finalPrice_fixed |].
  split.
  { intros payload result E. apply handleSubmit_Sent in E as (E & _).
    rewrite <- E. symmetry. now apply finalPrice_fixed. }
  split.
  { intros other Hco Huo. rewrite !finalPrice_fixed; congruence. }
  split; [now apply finalPrice_fixed |].
  split; [apply shellPriceFormula_cases |].
  split; [| split; reflexivity].
  intros Fu Fr F. rewrite finalPrice_fixed by assumption.
  now apply shellPriceFormula_finite.
Qed.

Lemma fixed_price_at_global_rate_witness :
  costType (Examples.fixedForm 10 ∅) = fixed
  /\ finalPrice shellPriceFormula (Examples.fixedForm 10 ∅) 10 = Returned 16.
Proof.
  split; [reflexivity |].
  destruct (fixed_price_at_global_rate shellPriceFormula
              (fun _ _ _ => Thrown "offline") (fun _ => "16"%string) None
              (Examples.fixedForm 10 ∅) 10
              eq_refl eq_refl eq_refl) as (_ & _ & _ & _ & _ & E & _).
  rewrite E by reflexivity. reflexivity.
Defined.

(** Two fixed items with a cost of 10 at a global rate of 10, the second
    with [dollars_per_hour = 5] in its config: with the rate of the item
    the second would cost 32 and the first 16, but the form makes one and
    the same call for both, so whatever [calculateShellPrice] computes,
    one of the two prices is not the one with the rate of the item; with
    the formula of the spec both are 16. *)
Lemma fixed_price_ignores_item_rate :
  member (configObj (Examples.fixedForm 10 {[ "dollars_per_hour" := JNum 5 ]}))
         "dollars_per_hour" = Returned (JNum 5)
  /\ Math_round (10 / 10 * phi * 10) = 16
  /\ Math_round (10 / 5 * phi * 10) = 32
  /\ ~ (exists calculateShellPrice,
          finalPrice calculateShellPrice (Examples.fixedForm 10 ∅) 10
          = Returned (Math_round (10 / 10 * phi * 10))
          /\ finalPrice calculateShellPrice
               (Examples.fixedForm 10 {[ "dollars_per_hour" := JNum 5 ]}) 10
             = Returned (Math_round (10 / 5 * phi * 10)))
  /\ finalPrice shellPriceFormula
       (Examples.fixedForm 10 {[ "dollars_per_hour" := JNum 5 ]}) 10
     = Returned 16.
Proof.
  split; [reflexivity | split; [reflexivity | split; [reflexivity | split]]];
    [| reflexivity].
  intros (calculateShellPrice & HA & HB).
  rewrite finalPrice_fixed in HA, HB by reflexivity.
  simpl in HA, HB. rewrite HA in HB. vm_compute in HB. discriminate.
Qed.

(** *** The automatic price of a config item *)

Section AutoCalculate.

Variable parseFloat : string -> number.
Variable StringToNumber : string -> number.

(** The reads of the two keys return unless the config is [null]. *)
Lemma member_Returned json key :
  json <> JsonNull -> exists v, member json key = Returned v.
Proof. destruct json; simpl; eauto; congruence. Qed.

Lemma member_same json key key' v :
  member json key = Returned v -> exists v', member json key' = Returned v'.
Proof. destruct json; simpl; eauto; discriminate. Qed.

(** The effect in terms of the two values it reads. *)
Lemma autoCalculatedPrice_of_reads formData dollars_per_hour hours :
  costType formData = config ->
  member (configObj formData) "dollars_per_hour" = Returned dollars_per_hour ->
  member (configObj formData) "hours_equal_to_one_percent_progress"
  = Returned hours ->
  branchTaken formData
  = Returned (if truthy dollars_per_hour && negb (isNaN (usdCost formData))
              then RateLinked
              else if truthy hours then ProgressLinked else NoAutoCalculation)
  /\ autoCalculatedPrice parseFloat StringToNumber formData
     = Returned
         (if truthy dollars_per_hour && negb (isNaN (usdCost formData))
          then Some (Math_round
                       (usdCost formData / parseFloatOf parseFloat dollars_per_hour
                        * phi * 10))
          else if truthy hours
          then Some (Math_round (ToNumber StringToNumber hours * phi * 10))
          else None).
Proof.
  intros Hc Hd Hh. unfold autoCalculatedPrice, branchTaken.
  rewrite Hc, Hd, Hh. simpl.
  destruct (truthy dollars_per_hour && negb (isNaN (usdCost formData)));
    [split; reflexivity |].
  destruct (truthy hours); split; reflexivity.
Qed.

(** A config text that parses to [null]: the read of line 322 throws. *)
Lemma autoCalculatedPrice_null formData :
  costType formData = config -> configText formData = JsonText JsonNull ->
  autoCalculatedPrice parseFloat StringToNumber formData
  = Thrown "Cannot read properties of null".
Proof.
  intros Hc Ht. unfold autoCalculatedPrice, configObj. now rewrite Hc, Ht.
Qed.

End AutoCalculate.

(** *** What the page checks of a cost and a rate *)




(** *** The two keys of a config *)

Section AutoCalculate.

Variable parseFloat : string -> number.
Variable StringToNumber : string -> number.



End AutoCalculate.





(** A config text that parses to [null]: the effect throws, which the
    [try] around [JSON.parse] does not catch. *)
Example null_config_throws :
  forall parseFloat StringToNumber cost,
    autoCalculatedPrice parseFloat StringToNumber
      {| price := 1; usdCost := cost; costType := config;
         configText := JsonText JsonNull; useRandomizedPricing := true |}
    = Thrown "Cannot read properties of null".
Proof. reflexivity. Qed.

End ShopFacts.

(** ** Link hours and the project update *)

Module ProjectsFacts.

Import Number JS Schema Projects.

(** C7. The hours of a link are its [hoursOverride] whenever that is
    neither null nor undefined (a zero included), otherwise its
    [rawHours] when that is a number, and otherwise 0; the function is
    total, so no link makes it throw. *)
Theorem effectiveHours_cases (link : HackatimeProjectLink) :
  (hoursOverride link <> JNull -> hoursOverride link <> JUndefined ->
   effectiveHours link = hoursOverride link)
  /\ (hoursOverride link = JNum 0 -> effectiveHours link = JNum 0)
  /\ (hoursOverride link = JNull \/ hoursOverride link = JUndefined ->
      (forall n, rawHours link = JNum n -> effectiveHours link = JNum n)
      /\ (is_number (rawHours link) = false -> effectiveHours link = JNum 0)).
Proof.
  unfold effectiveHours. repeat split.
  - intros H1 H2. destruct (hoursOverride link); simpl; congruence.
  - intros ->. reflexivity.
  - intros n E. destruct H as [-> | ->]; simpl; now rewrite E.
  - intros E. destruct H as [-> | ->]; simpl; now rewrite E.
Qed.

Lemma effectiveHours_cases_witness :
  effectiveHours {| link_id := "l1"; hackatimeName := "boat";
                    rawHours := JNum 5; hoursOverride := JNum 0 |} = JNum 0
  /\ effectiveHours Examples.trackedLink = JNum 5
  /\ effectiveHours {| link_id := "l2"; hackatimeName := "raft";
                       rawHours := JStr "12"; hoursOverride := JUndefined |} = JNum 0.
Proof.
  split; [| split].
  - destruct (effectiveHours_cases
                {| link_id := "l1"; hackatimeName := "boat";
                   rawHours := JNum 5; hoursOverride := JNum 0 |}) as (P & _).
    apply P; discriminate.
  - destruct (effectiveHours_cases Examples.trackedLink) as (_ & _ & R).
    destruct (R (or_introl eq_refl)) as (N & _). now apply N.
  - destruct (effectiveHours_cases
                {| link_id := "l2"; hackatimeName := "raft";
                   rawHours := JStr "12"; hoursOverride := JUndefined |})
      as (_ & _ & R).
    destruct (R (or_intror eq_refl)) as (_ & Z). now apply Z.
Defined.

(** *** The update of a project *)

Lemma updateData_hoursOverride user req : updateData user req !! "hoursOverride" = None.
Proof.
  unfold updateData, filterByRole, stripHoursOverride.
  destruct (isAdmin user); [| destruct (isReviewer user)];
    apply map_lookup_filter_None_2; left; apply lookup_delete_eq.
Qed.

Lemma PUT_projects user req db pid row' :
  projects (PUT user req db).1 !! pid = Some row' ->
  exists row,
    projects db !! pid = Some row
    /\ owner row' = owner row
    /\ columns row' !! "hoursOverride" = columns row !! "hoursOverride".
Proof.
  unfold PUT.
  destruct (String.eqb (req_projectID req) ""); [simpl; eauto |].
  destruct (existingProject user (req_projectID req) db) as [row |] eqn:E;
    [| simpl; eauto].
  assert (Hrow : projects db !! req_projectID req = Some row).
  { unfold existingProject in E.
    destruct (projects db !! req_projectID req) as [r |]; [| discriminate].
    destruct (isAdmin user || String.eqb (owner r) (user_id user)); congruence. }
  assert (Hupd : <[req_projectID req :=
                      {| owner := owner row;
                         columns := updateData user req ∪ columns row |}]>
                    (projects db) !! pid = Some row' ->
                  exists row0, projects db !! pid = Some row0
                               /\ owner row' = owner row0
                               /\ columns row' !! "hoursOverride"
                                  = columns row0 !! "hoursOverride").
  { destruct (decide (pid = req_projectID req)) as [-> | Hne].
    - rewrite lookup_insert_eq. intros [= <-]. exists row. simpl.
      repeat split; auto.
      apply lookup_union_r, updateData_hoursOverride.
    - rewrite lookup_insert_ne by congruence. eauto. }
  destruct (hackatimeLinkOverrides req) as [[| entry entries] |];
    try exact Hupd.
  destruct (isAdmin user || isReviewer user); [| exact Hupd].
  destruct (applyLinkOverrides _ _) as [table finished]. exact Hupd.
Qed.

Lemma PUT_links_unprivileged user req db :
  isAdmin user = false -> isReviewer user = false ->
  links (PUT user req db).1 = links db.
Proof.
  intros Ha Hr. unfold PUT.
  destruct (String.eqb (req_projectID req) ""); [reflexivity |].
  destruct (existingProject user (req_projectID req) db); [| reflexivity].
  rewrite Ha, Hr. simpl.
  destruct (hackatimeLinkOverrides req) as [[| entry entries] |]; reflexivity.
Qed.

Lemma PUT_links_privileged user req db linkId link hours :
  isAdmin user || isReviewer user = true ->
  req_projectID req <> "" ->
  existingProject user (req_projectID req) db <> None ->
  hackatimeLinkOverrides req = Some [(linkId, JNum hours)] ->
  isNaN hours = false ->
  links db !! linkId = Some link ->
  PUT user req db
  = ({| projects := projects (PUT user req db).1;
        links := <[linkId := setHoursOverride link (JNum hours)]> (links db) |},
     200%Z).
Proof.
  intros Hp Hid Hex Ho Hn Hl. unfold PUT.
  destruct (String.eqb_spec (req_projectID req) ""); [contradiction |].
  destruct (existingProject user (req_projectID req) db) as [row |]; [| contradiction].
  rewrite Ho, Hp. simpl. rewrite Hn, Hl. reflexivity.
Qed.

(** C9, as amended. The update of a project never carries a top-level
    [hoursOverride]: the field is removed from the data for every caller,
    so the column of every project is what it was. The overrides of the
    links are written only for a caller who is an admin (the role
    ["Admin"] or the [isAdmin] flag) or a reviewer: for any other caller
    the links are left as they were, and for such a caller an override of
    a link that exists is stored. *)
Theorem hoursOverride_write_paths (user : User) (req : Request) (db : Store) :
  let after := (PUT user req db).1 in
  updateData user req !! "hoursOverride" = None
  /\ (forall pid row',
        projects after !! pid = Some row' ->
        exists row,
          projects db !! pid = Some row
          /\ columns row' !! "hoursOverride" = columns row !! "hoursOverride")
  /\ (isAdmin user = false -> isReviewer user = false -> links after = links db)
  /\ (forall linkId link hours,
        isAdmin user || isReviewer user = true ->
        req_projectID req <> "" ->
        existingProject user (req_projectID req) db <> None ->
        hackatimeLinkOverrides req = Some [(linkId, JNum hours)] ->
        isNaN hours = false ->
        links db !! linkId = Some link ->
        links after !! linkId = Some (setHoursOverride link (JNum hours))).
Proof.
  intros after. repeat split.
  - apply updateData_hoursOverride.
  - intros pid row' H. destruct (PUT_projects user req db pid row' H) as (row & ? & _ & ?).
    eauto.
  - apply PUT_links_unprivileged.
  - intros linkId link hours Hp Hid Hex Ho Hn Hl. subst after.
    rewrite (PUT_links_privileged user req db linkId link hours) by assumption.
    simpl. apply lookup_insert_eq.
Qed.

Lemma hoursOverride_write_paths_witness :
  isAdmin Examples.plainOwner = false
  /\ isReviewer Examples.plainOwner = false
  /\ links (PUT Examples.plainOwner Examples.overrideRequest Examples.smallStore).1
     = links Examples.smallStore.
Proof.
  split; [reflexivity | split; [reflexivity |]].
  destruct (hoursOverride_write_paths Examples.plainOwner Examples.overrideRequest
              Examples.smallStore) as (_ & _ & L & _).
  apply L; reflexivity.
Defined.

(** A caller whose role is ["User"] and whose [isAdmin] flag is set: the
    request stores the override 99 on the link. *)
Lemma flagged_admin_writes_override :
  role Examples.flaggedAdmin <> "Admin"
  /\ role Examples.flaggedAdmin <> "Reviewer"
  /\ hoursOverride <$> links Examples.smallStore !! "l1" = Some JNull
  /\ hoursOverride
       <$> links (PUT Examples.flaggedAdmin Examples.overrideRequest
                      Examples.smallStore).1 !! "l1"
     = Some (JNum 99).
Proof.
  split; [discriminate | split; [discriminate | split; [reflexivity |]]].
  rewrite (PUT_links_privileged Examples.flaggedAdmin Examples.overrideRequest
             Examples.smallStore "l1" Examples.trackedLink 99%float);
    try reflexivity; discriminate.
Qed.

Example owner_update_keeps_overrides :
  (PUT Examples.plainOwner Examples.overrideRequest Examples.smallStore).2 = 200%Z
  /\ columns <$> projects (PUT Examples.plainOwner Examples.overrideRequest
                               Examples.smallStore).1 !! "p1"
     = Some {[ "name" := JStr "Raft" ]}.
Proof.
  split; [reflexivity |].
  vm_compute. reflexivity.
Qed.

End ProjectsFacts.

(** ** Randomized prices *)

Module SamplerFacts.

Import Sampler.
Local Open Scope Q_scope.

Lemma timeBucket_within_hour k nowInstant :
  (3600000 * k <= nowInstant < 3600000 * (k + 1))%Z -> timeBucket nowInstant = k.
Proof.
  intros H. unfold timeBucket. symmetry.
  apply (Z.div_unique nowInstant 3600000 k (nowInstant - 3600000 * k)); lia.
Qed.

Lemma timeBucket_next_hour nowInstant :
  timeBucket (nowInstant + 3600000) = (timeBucket nowInstant + 1)%Z.
Proof.
  unfold timeBucket.
  replace (nowInstant + 3600000)%Z with (nowInstant + 1 * 3600000)%Z by lia.
  apply Z.div_add. lia.
Qed.

Lemma fraction_bounds raw : 0 <= fraction raw /\ fraction raw < 1.
Proof.
  unfold fraction.
  pose proof (N.mod_lt raw (2 ^ 32) ltac:(discriminate)) as H.
  set (a := (raw mod 2 ^ 32)%N) in *.
  assert (Ha : (0 <= Z.of_N a < 2 ^ 32)%Z).
  { split; [lia |]. change (2 ^ 32)%Z with (Z.of_N (2 ^ 32)). lia. }
  assert (Hp : 0 < inject_Z (2 ^ 32)) by reflexivity.
  split.
  - apply Qle_shift_div_l; [exact Hp |]. rewrite Qmult_0_l.
    change 0 with (inject_Z 0). rewrite <- Zle_Qle. lia.
  - apply Qlt_shift_div_r; [exact Hp |]. rewrite Qmult_1_l.
    rewrite <- Zlt_Qlt. lia.
Qed.

Lemma nearest_bounds q :
  q - (1 # 2) < inject_Z (nearest q) /\ inject_Z (nearest q) <= q + (1 # 2).
Proof.
  unfold nearest.
  pose proof (Qfloor_le (q + (1 # 2))) as Hle.
  pose proof (Qlt_floor (q + (1 # 2))) as Hlt.
  rewrite inject_Z_plus in Hlt. change (inject_Z 1) with 1 in Hlt.
  split; lra.
Qed.

Lemma nearest_le_ceiling q : (nearest q <= Qceiling q)%Z.
Proof.
  pose proof (nearest_bounds q) as [_ Hn]. pose proof (Qle_ceiling q) as Hc.
  assert (H : inject_Z (nearest q) < inject_Z (Qceiling q) + 1) by lra.
  change 1 with (inject_Z 1) in H. rewrite <- inject_Z_plus, <- Zlt_Qlt in H. lia.
Qed.

Lemma floor_le_nearest q : (Qfloor q <= nearest q)%Z.
Proof. unfold nearest. apply Qfloor_resp_le. lra. Qed.

Section Sample.

Variable seeded : string -> string -> Z -> N.
Variable cfg : GlobalRateConfig.

Lemma multiplier_in_band userId itemId bucket :
  priceRandomMinPercent cfg <= priceRandomMaxPercent cfg ->
  in_band cfg (multiplier seeded cfg userId itemId bucket).
Proof.
  intros H. unfold in_band, multiplier.
  destruct (fraction_bounds (seeded userId itemId bucket)) as [H0 H1].
  set (f := fraction _) in *.
  set (lo := priceRandomMinPercent cfg / 100).
  set (hi := priceRandomMaxPercent cfg / 100).
  assert (Hw : 0 <= hi - lo).
  { subst lo hi. unfold Qdiv. 
    assert (priceRandomMinPercent cfg * / 100 <= priceRandomMaxPercent cfg * / 100).
    { apply Qmult_le_compat_r; [exact H | discriminate]. }
    lra. }
  assert (Hf : 0 <= f * (hi - lo)) by (apply Qmult_le_0_compat; assumption).
  assert (Hg : f * (hi - lo) <= 1 * (hi - lo)).
  { apply Qmult_le_compat_r; [apply Qlt_le_weak; exact H1 | exact Hw]. }
  split; lra.
Qed.

Lemma SamplePrice_same_bucket item userId t t' :
  timeBucket t = timeBucket t' ->
  SamplePrice seeded cfg item userId t = SamplePrice seeded cfg item userId t'.
Proof. intros E. unfold SamplePrice. now rewrite E. Qed.

Lemma scaled_le (base : N) (x y : Q) :
  x <= y -> inject_Z (Z.of_N base) * x <= inject_Z (Z.of_N base) * y.
Proof.
  intros H. rewrite !(Qmult_comm (inject_Z (Z.of_N base))).
  apply Qmult_le_compat_r; [exact H |].
  change 0 with (inject_Z 0). rewrite <- Zle_Qle. lia.
Qed.


End Sample.



End SamplerFacts.

(** ** Sorting with any comparator *)

Module ComparatorFacts.

Import Number JS NumberFacts SortFacts.
Local Open Scope float_scope.

Section Consistent.

(** A comparator that agrees with a transitive relation [R]: it moves [x]
    behind [y] only when [y] may stand before [x], and leaves [x] in front
    only when [x] may stand before [y]. *)
Context {A : Type} (compareFn : A -> A -> number) (R : A -> A -> Prop) (ok : A -> Prop).
Hypothesis R_trans : forall a b c, ok a -> ok b -> ok c -> R a b -> R b c -> R a c.
Hypothesis behind : forall x y, ok x -> ok y -> (0 <? compareFn x y) = true -> R y x.
Hypothesis in_front : forall x y, ok x -> ok y -> (0 <? compareFn x y) = false -> R x y.

Lemma insert_sorted x l :
  ok x -> Forall ok l ->
  StronglySorted R l -> StronglySorted R (insert compareFn x l).
Proof.
  intros Hx Hl Hs. induction Hs as [| y rest Hs IH Hy]; simpl.
  - repeat constructor.
  - inversion Hl as [| ? ? Hoky Hokrest]; subst.
    destruct (0 <? compareFn x y) eqn:C.
    + constructor; [auto |].
      rewrite insert_Permutation. constructor; [now apply behind | assumption].
    + constructor; [now constructor |].
      constructor; [now apply in_front |].
      rewrite List.Forall_forall in Hy, Hokrest. apply List.Forall_forall.
      intros z Hz. apply (R_trans x y z); auto.
Qed.

Lemma sort_sorted l : Forall ok l -> StronglySorted R (sort compareFn l).
Proof.
  induction l as [| x l IH]; intros Hl; simpl; [constructor |].
  inversion Hl; subst. fold (sort compareFn l).
  apply insert_sorted; auto.
  now rewrite sort_Permutation.
Qed.

End Consistent.

Section Stable.

(** Elements of a class that the comparator never moves behind one another
    keep their order. *)
Context {A : Type} (compareFn : A -> A -> number) (class : A -> bool).
Hypothesis unmoved :
  forall x y, class x = true -> class y = true -> (0 <? compareFn x y) = false.

Lemma insert_class x l :
  List.filter class (insert compareFn x l) = List.filter class (x :: l).
Proof.
  induction l as [| y rest IH]; [reflexivity |]. simpl insert.
  destruct (0 <? compareFn x y) eqn:C; [| reflexivity].
  simpl in *. rewrite IH.
  destruct (class x) eqn:Cx, (class y) eqn:Cy; try reflexivity.
  rewrite unmoved in C by assumption. discriminate.
Qed.

Lemma sort_class l : List.filter class (sort compareFn l) = List.filter class l.
Proof.
  induction l as [| x l IH]; [reflexivity |]. simpl sort.
  fold (sort compareFn l). rewrite insert_class. simpl. now rewrite IH.
Qed.

End Stable.

End ComparatorFacts.

(** ** The list of projects in review *)

Module ReviewListFacts.

Import Number JS Schema Review ReviewList NumberFacts SortFacts ComparatorFacts ReviewFacts.
Local Open Scope float_scope.

(** *** The owners *)

Lemma elem_of_foldl_addToSet x l : forall set,
  x ∈ foldl addToSet set l <-> x ∈ set \/ x ∈ l.
Proof.
  induction l as [| y l IH]; intros set; simpl.
  - rewrite elem_of_nil. tauto.
  - rewrite IH, elem_of_cons. unfold addToSet.
    destruct (decide (y ∈ set)) as [Hin | Hout].
    + split; [tauto |]. intros [H | [-> | H]]; auto.
    + rewrite elem_of_app, list_elem_of_singleton. tauto.
Qed.

Lemma NoDup_foldl_addToSet l : forall set,
  NoDup set -> NoDup (foldl addToSet set l).
Proof.
  induction l as [| y l IH]; intros set Hset; simpl; [assumption |].
  apply IH. unfold addToSet.
  destruct (decide (y ∈ set)) as [Hin | Hout]; [assumption |].
  apply NoDup_app. repeat split; [assumption | | apply NoDup_singleton].
  intros x Hx Hy. apply list_elem_of_singleton in Hy. now subst.
Qed.

Lemma elem_of_userIds projectsInReview u :
  u ∈ userIds projectsInReview
  <-> exists p, p ∈ projectsInReview /\ userId (reviewed p) = u.
Proof.
  unfold userIds. rewrite elem_of_foldl_addToSet, elem_of_nil, list_elem_of_fmap.
  split.
  - intros [[] | (p & -> & Hp)]. eauto.
  - intros (p & Hp & <-). right. eauto.
Qed.

Lemma userIds_nil projectsInReview :
  userIds projectsInReview = [] -> projectsInReview = [].
Proof.
  destruct projectsInReview as [| p rest]; [reflexivity |]. intros E.
  assert (H : userId (reviewed p) ∈ userIds (p :: rest)).
  { apply elem_of_userIds. exists p. split; [left | reflexivity]. }
  rewrite E in H. inversion H.
Qed.

(** *** The comparator *)

Lemma mayPrecede_trans a b c :
  validLatest a -> validLatest b -> validLatest c ->
  mayPrecede a b -> mayPrecede b c -> mayPrecede a c.
Proof.
  unfold mayPrecede, validLatest.
  destruct (latestReview a), (latestReview b), (latestReview c);
    try tauto.
  intros _ _ _. apply leb_trans.
Qed.

Lemma byLatestReview_behind x y :
  validLatest x -> validLatest y ->
  (0 <? byLatestReview x y) = true -> mayPrecede y x.
Proof.
  unfold mayPrecede, validLatest, byLatestReview.
  destruct (latestReview x) as [rx |], (latestReview y) as [ry |];
    intros Hx Hy C; try exact I; try discriminate.
  rewrite sub_pos_iff in C by assumption. now apply ltb_implies_leb.
Qed.

Lemma byLatestReview_in_front x y :
  validLatest x -> validLatest y ->
  (0 <? byLatestReview x y) = false -> mayPrecede x y.
Proof.
  unfold mayPrecede, validLatest, byLatestReview.
  destruct (latestReview x) as [rx |], (latestReview y) as [ry |];
    intros Hx Hy C; try exact I; try discriminate.
  rewrite sub_pos_iff, ltb_leb in C by assumption.
  now apply negb_false_iff in C.
Qed.

Lemma byLatestReview_unreviewed x y :
  noReview (latestReview x) = true -> noReview (latestReview y) = true ->
  (0 <? byLatestReview x y) = false.
Proof.
  unfold byLatestReview.
  destruct (latestReview x), (latestReview y); try discriminate. reflexivity.
Qed.

Lemma byLatestReview_same_date h x y :
  reviewAt h (latestReview x) = true -> reviewAt h (latestReview y) = true ->
  (0 <? byLatestReview x y) = false.
Proof.
  unfold byLatestReview.
  destruct (latestReview x) as [rx |], (latestReview y) as [ry |];
    try discriminate.
  simpl. intros Ex Ey.
  destruct (eqb_not_nan _ _ Ex) as [Hx _], (eqb_not_nan _ _ Ey) as [Hy _].
  rewrite sub_pos_iff by assumption.
  destruct (createdAt ry <? createdAt rx) eqn:L; [| reflexivity].
  destruct (ltb_not_both_eqb _ _ _ L Ey Ex).
Qed.

(** A class of rows read off the latest review is kept in its order. *)
Lemma sort_class_of_latest (class : option ReviewRow -> bool) rows :
  (forall x y, class (latestReview x) = true -> class (latestReview y) = true ->
               (0 <? byLatestReview x y) = false) ->
  Forall (fun a => latestReview a = head (reviews (formatted a))) rows ->
  List.filter (fun p => class (head (reviews p)))
              (map formatted (sort byLatestReview rows))
  = List.filter (fun p => class (head (reviews p))) (map formatted rows).
Proof.
  intros Hc Hl.
  assert (E : forall l, Forall (fun a => latestReview a = head (reviews (formatted a))) l ->
            List.filter (fun p => class (head (reviews p))) (map formatted l)
            = map formatted (List.filter (fun a => class (latestReview a)) l)).
  { induction 1 as [| a l Ha _ IH]; simpl; [reflexivity |].
    rewrite <- Ha. destruct (class (latestReview a)); simpl; now rewrite IH. }
  rewrite !E; [| assumption | now rewrite sort_Permutation].
  f_equal. now apply sort_class.
Qed.

Section GET.

Variable findManyInReview : outcome (list ProjectInReview).
Variable findMany : string -> outcome (list Project).
Variable getProjectHackatimeHours : Project -> outcome number.
Variable getProjectApprovedHours : Project -> outcome number.

Abbreviation get := (GET findManyInReview findMany getProjectHackatimeHours
                         getProjectApprovedHours).
Abbreviation formatWith ids :=
  (format findMany getProjectHackatimeHours getProjectApprovedHours ids).

Lemma map_formatted_format ids l : map formatted (map (formatWith ids) l) = l.
Proof. rewrite map_map. simpl. apply map_id. Qed.

(** The answer to a reviewer or an admin is the sorted list of the
    formatted rows, also when there is no row. *)
Lemma GET_body sessionUser projectsInReview :
  Projects.isAdmin sessionUser || Projects.isReviewer sessionUser = true ->
  findManyInReview = Returned projectsInReview ->
  get (Returned (Some sessionUser))
  = Json (sort byLatestReview
               (map (formatWith (userIds projectsInReview)) projectsInReview)).
Proof.
  intros Hp Hq. unfold GET. rewrite Hq.
  apply orb_true_iff in Hp.
  assert (Hn : negb (Projects.isAdmin sessionUser)
               && negb (Projects.isReviewer sessionUser) = false).
  { destruct Hp as [-> | ->]; [reflexivity | apply andb_false_r]. }
  rewrite Hn.
  destruct (Nat.eqb_spec (length (userIds projectsInReview)) 0) as [E | _];
    [| reflexivity].
  apply nil_length_inv in E. now rewrite (userIds_nil _ E).
Qed.

End GET.

(** X1. A reviewer or an admin gets every project in review exactly once,
    each with its first review as the latest one. When the dates of the
    latest reviews are valid, the reviewed projects come first, the one
    reviewed earliest at the head, and the projects without a review last;
    projects reviewed at the same instant keep the order of the query, and
    so do the projects without a review. *)
Theorem GET_oldest_review_first
    (findManyInReview : outcome (list ProjectInReview))
    (findMany : string -> outcome (list Project))
    (getProjectHackatimeHours getProjectApprovedHours : Project -> outcome number)
    (sessionUser : User) (projectsInReview : list ProjectInReview) :
  Projects.isAdmin sessionUser || Projects.isReviewer sessionUser = true ->
  findManyInReview = Returned projectsInReview ->
  exists body,
    GET findManyInReview findMany getProjectHackatimeHours getProjectApprovedHours
        (Returned (Some sessionUser)) = Json body
    /\ map formatted body ≡ₚ projectsInReview
    /\ Forall (fun a => latestReview a = head (reviews (formatted a))) body
    /\ (Forall validDate projectsInReview ->
        StronglySorted mayPrecede body
        /\ List.filter unreviewed (map formatted body)
           = List.filter unreviewed projectsInReview
        /\ forall h, List.filter (reviewedAt h) (map formatted body)
                     = List.filter (reviewedAt h) projectsInReview).
Proof.
  intros Hp Hq. eexists.
  split; [exact (GET_body _ findMany getProjectHackatimeHours getProjectApprovedHours
                   _ _ Hp Hq) |].
  set (rows := map _ projectsInReview).
  assert (Hrows : map formatted rows = projectsInReview)
    by apply map_formatted_format.
  assert (Hlatest : Forall (fun a => latestReview a = head (reviews (formatted a))) rows).
  { apply Forall_forall. intros a Ha.
    apply list_elem_of_fmap in Ha as (p & -> & _). reflexivity. }
  split; [rewrite sort_Permutation, Hrows; reflexivity |].
  split; [rewrite sort_Permutation; exact Hlatest |].
  intros Hvalid. split; [| split].
  - apply (sort_sorted byLatestReview mayPrecede validLatest);
      [exact mayPrecede_trans | exact byLatestReview_behind
      | exact byLatestReview_in_front |].
    apply List.Forall_forall. intros a Ha. apply in_map_iff in Ha as (p & <- & Hin).
    rewrite List.Forall_forall in Hvalid. exact (Hvalid p Hin).
  - rewrite <- Hrows.
    apply (sort_class_of_latest noReview);
      [apply byLatestReview_unreviewed | exact Hlatest].
  - intros h. rewrite <- Hrows.
    apply (sort_class_of_latest (reviewAt h));
      [apply byLatestReview_same_date | exact Hlatest].
Qed.


(** *** The approved hours reported for the owner *)

Lemma tryFinalHours_le_60 findMany getProjectHackatimeHours getProjectApprovedHours
    userId finalHours :
  tryFinalHours findMany getProjectHackatimeHours getProjectApprovedHours userId
  = Returned finalHours ->
  (finalHours <=? 60) = true.
Proof.
  unfold tryFinalHours. intros E.
  destruct (findMany userId) as [userProjects | ?]; simpl in E; [| discriminate].
  destruct (mapM _ userProjects) as [allWithHours | ?]; simpl in E; [| discriminate].
  destruct (foldM _ 0 _) as [total | ?] eqn:F; simpl in E; [| discriminate].
  inversion E; subst.
  apply cap_60_bounds.
  eapply foldM_addContribution_nonneg; [exact nonneg_zero | exact F].
Qed.


End ReviewListFacts.

(** ** The project update as a whole *)

Module UpdateFacts.

Import Number JS Schema Projects LinkWrites.

Lemma lookup_withWrites written table linkId :
  withWrites written table !! linkId = overridden written linkId <$> table !! linkId.
Proof.
  unfold withWrites. rewrite map_lookup_imap.
  now destruct (table !! linkId).
Qed.

Lemma setHoursOverride_twice link v w :
  setHoursOverride (setHoursOverride link v) w = setHoursOverride link w.
Proof. reflexivity. Qed.

(** The writes of a run depend on the table through the ids it holds. *)
Lemma writes_ext table table' entries :
  (forall linkId, is_Some (table' !! linkId) <-> is_Some (table !! linkId)) ->
  writes table' entries = writes table entries.
Proof.
  intros Hdom. induction entries as [| [linkId hours] rest IH]; simpl; [reflexivity |].
  rewrite IH. destruct (effective hours); [| reflexivity].
  specialize (Hdom linkId).
  destruct (table' !! linkId) as [l' |] eqn:E', (table !! linkId) as [l |] eqn:E;
    try reflexivity.
  - destruct Hdom as [H _]. destruct (H ltac:(eauto)) as [? [=]].
  - destruct Hdom as [_ H]. destruct (H ltac:(eauto)) as [? [=]].
Qed.

Lemma applyLinkOverrides_step table linkId hours rest :
  applyLinkOverrides table ((linkId, hours) :: rest)
  = if effective hours then
      match table !! linkId with
      | Some link =>
          applyLinkOverrides (<[linkId := setHoursOverride link (stored hours)]> table) rest
      | None => (table, false)
      end
    else applyLinkOverrides table rest.
Proof.
  simpl. unfold effective, stored.
  destruct (is_hours hours); [reflexivity |].
  destruct (is_cleared hours); reflexivity.
Qed.

(** The loop stores the writes of the run, and says whether it finished. *)
Lemma applyLinkOverrides_writes entries : forall table,
  applyLinkOverrides table entries
  = (withWrites (writes table entries).1 table, (writes table entries).2).
Proof.
  induction entries as [| [linkId hours] rest IH]; intros table.
  - simpl. f_equal. apply map_eq. intros k. rewrite lookup_withWrites.
    unfold overridden. rewrite lookup_empty. now destruct (table !! k).
  - rewrite applyLinkOverrides_step. simpl writes.
    destruct (effective hours); [| apply IH].
    destruct (table !! linkId) as [link |] eqn:E.
    + rewrite IH.
      rewrite (writes_ext table).
      2:{ intros k. destruct (decide (k = linkId)) as [-> | Hne].
          - rewrite lookup_insert_eq, E. split; eauto.
          - now rewrite lookup_insert_ne. }
      destruct (writes table rest) as [later finished]. simpl. f_equal.
      apply map_eq. intros k. rewrite !lookup_withWrites. unfold overridden.
      destruct (decide (k = linkId)) as [-> | Hne].
      * rewrite lookup_insert_eq, E. simpl. f_equal.
        destruct (later !! linkId) as [v |] eqn:L.
        -- now rewrite (lookup_union_Some_l _ _ _ _ L).
        -- rewrite lookup_union_r, lookup_singleton_eq by assumption. reflexivity.
      * rewrite lookup_insert_ne by congruence.
        destruct (table !! k); [| reflexivity]. simpl. f_equal.
        destruct (later !! k) as [v |] eqn:L.
        -- now rewrite (lookup_union_Some_l _ _ _ _ L).
        -- rewrite lookup_union_r, lookup_singleton_ne by congruence. reflexivity.
    + simpl. f_equal. apply map_eq. intros k. rewrite lookup_withWrites.
      unfold overridden. rewrite lookup_empty. now destruct (table !! k).
Qed.


Lemma withWrites_empty table : withWrites ∅ table = table.
Proof.
  apply map_eq. intros k. rewrite lookup_withWrites. unfold overridden.
  rewrite lookup_empty. now destruct (table !! k).
Qed.

Lemma existingProject_Some user projectID db row :
  existingProject user projectID db = Some row
  <-> projects db !! projectID = Some row
      /\ (isAdmin user = true \/ owner row = user_id user).
Proof.
  unfold existingProject.
  destruct (projects db !! projectID) as [r |]; [| split; [discriminate | now intros [? _]]].
  destruct (isAdmin user); simpl.
  - split; [intros [= ->]; auto | now intros [-> _]].
  - destruct (String.eqb_spec (owner r) (user_id user)) as [E | N].
    + split; [intros [= ->]; auto | now intros [-> _]].
    + split; [discriminate |]. intros [[= ->] [? | ?]]; [discriminate | contradiction].
Qed.

(** The update that goes through: the row of the project gets the fields
    the caller may write, the links get the writes of the request, and the
    status tells whether every write found its link. *)
Lemma PUT_accepted user req db row :
  req_projectID req <> "" ->
  existingProject user (req_projectID req) db = Some row ->
  PUT user req db
  = ({| projects := <[req_projectID req := updatedRow user req row]> (projects db);
        links := withWrites (requestWrites user req db).1 (links db) |},
     if (requestWrites user req db).2 then 200%Z else 500%Z).
Proof.
  intros Hid Hex. unfold PUT, requestWrites.
  destruct (String.eqb_spec (req_projectID req) ""); [contradiction |].
  rewrite Hex. fold (updatedRow user req row).
  destruct (hackatimeLinkOverrides req) as [[| entry entries] |];
    [| | cbn; now rewrite withWrites_empty].
  - destruct (isAdmin user || isReviewer user); cbn; now rewrite withWrites_empty.
  - destruct (isAdmin user || isReviewer user); [| cbn; now rewrite withWrites_empty].
    cbv zeta. rewrite applyLinkOverrides_writes.
    reflexivity.
Qed.

Lemma PUT_rejected user req db :
  req_projectID req = "" \/ existingProject user (req_projectID req) db = None ->
  PUT user req db
  = (db, if String.eqb (req_projectID req) "" then 400%Z else 404%Z).
Proof.
  unfold PUT. intros [-> | E]; [reflexivity |].
  destruct (String.eqb (req_projectID req) ""); [reflexivity |]. now rewrite E.
Qed.


Lemma PUT_cases user req db :
  (exists row,
      req_projectID req <> ""
      /\ existingProject user (req_projectID req) db = Some row
      /\ PUT user req db
         = ({| projects := <[req_projectID req := updatedRow user req row]> (projects db);
               links := withWrites (requestWrites user req db).1 (links db) |},
            if (requestWrites user req db).2 then 200%Z else 500%Z))
  \/ ((req_projectID req = "" \/ existingProject user (req_projectID req) db = None)
      /\ PUT user req db
         = (db, if String.eqb (req_projectID req) "" then 400%Z else 404%Z)).
Proof.
  destruct (decide (req_projectID req = "")) as [E | N].
  - right. split; [auto |]. apply PUT_rejected. auto.
  - destruct (existingProject user (req_projectID req) db) as [row |] eqn:Hex.
    + left. exists row. repeat split; auto using PUT_accepted.
    + right. split; [auto |]. apply PUT_rejected. auto.
Qed.

(** *** Whose projects an update reaches *)


(** *** The fields an update writes *)

Lemma includes_user_reviewer key :
  includes userUpdateableFields key = true ->
  includes reviewerUpdateableFields key = true.
Proof.
  unfold reviewerUpdateableFields, includes. simpl. intros ->. apply orb_true_r.
Qed.

Lemma updateData_Some user req key v :
  updateData user req !! key = Some v ->
  updateFields req !! key = Some v
  /\ v <> JUndefined
  /\ key <> "hoursOverride"
  /\ includes nonUpdateableFields key = false
  /\ (isAdmin user = false -> includes reviewerUpdateableFields key = true)
  /\ (isAdmin user = false -> isReviewer user = false ->
      includes userUpdateableFields key = true).
Proof.
  unfold updateData, filterByRole, stripHoursOverride. intros H.
  assert (Hv : forall w : value, is_defined w = true -> w <> JUndefined)
    by (intros [] ?; discriminate).
  destruct (isAdmin user) eqn:Ha; [| destruct (isReviewer user) eqn:Hr];
    apply map_lookup_filter_Some in H as [H P]; simpl in P;
    apply lookup_delete_Some in H as [Hk H].
  - apply andb_true_iff in P as [P1 P2]. apply negb_true_iff in P1.
    repeat split; auto; discriminate.
  - apply andb_true_iff in P as [P P3]. apply andb_true_iff in P as [P1 P2].
    apply negb_true_iff in P2.
    repeat split; auto; discriminate.
  - apply andb_true_iff in P as [P P3]. apply andb_true_iff in P as [P1 P2].
    apply negb_true_iff in P2.
    repeat split; auto. intros _. now apply includes_user_reviewer.
Qed.

Lemma updateData_None user req key :
  includes nonUpdateableFields key = true
  \/ key = "hoursOverride"
  \/ updateFields req !! key = None
  \/ updateFields req !! key = Some JUndefined
  \/ (isAdmin user = false /\ includes reviewerUpdateableFields key = false)
  \/ (isAdmin user = false /\ isReviewer user = false
      /\ includes userUpdateableFields key = false) ->
  updateData user req !! key = None.
Proof.
  intros H. destruct (updateData user req !! key) as [v |] eqn:E; [| reflexivity].
  apply updateData_Some in E as (Hf & Hv & Hk & Hn & Hr & Hu).
  destruct H as [H | [H | [H | [H | [[Ha H] | (Ha & Hrv & H)]]]]]; try congruence.
  - rewrite Hr in H by assumption. discriminate.
  - rewrite Hu in H by assumption. discriminate.
Qed.

(** A field of the request that the caller may write is part of the
    data. *)
Lemma updateData_writes user req key v :
  updateFields req !! key = Some v ->
  v <> JUndefined -> key <> "hoursOverride" ->
  includes nonUpdateableFields key = false ->
  (isAdmin user = true
   \/ (isReviewer user = true /\ includes reviewerUpdateableFields key = true)
   \/ includes userUpdateableFields key = true) ->
  updateData user req !! key = Some v.
Proof.
  intros Hf Hv Hk Hn Hrole. unfold updateData, filterByRole, stripHoursOverride.
  assert (Hd : is_defined v = true) by (destruct v; simpl; congruence).
  assert (Hl : delete "hoursOverride" (updateFields req) !! key = Some v)
    by (rewrite lookup_delete_ne; auto).
  destruct (isAdmin user) eqn:Ha; [| destruct (isReviewer user) eqn:Hr];
    apply map_lookup_filter_Some; (split; [exact Hl |]); cbn [fst snd];
    rewrite Hn, Hd; cbn [negb andb].
  - reflexivity.
  - destruct Hrole as [? | [[_ ->] | H]]; [discriminate | reflexivity |].
    now rewrite (includes_user_reviewer _ H).
  - destruct Hrole as [? | [[? _] | ->]]; [discriminate | discriminate | reflexivity].
Qed.



(** *** The overrides an update writes *)

Lemma stored_cases hours :
  effective hours = true ->
  (exists n, hours = JNum n /\ isNaN n = false /\ stored hours = JNum n)
  \/ (is_cleared hours = true /\ stored hours = JNull).
Proof.
  unfold effective, stored. destruct (is_hours hours) eqn:H.
  - intros _. left. destruct hours as [| | | n |]; try discriminate.
    exists n. repeat split. simpl in H. now apply negb_true_iff in H.
  - simpl. intros C. right. auto.
Qed.

Lemma writes_Some table entries linkId v :
  (writes table entries).1 !! linkId = Some v ->
  exists hours,
    (linkId, hours) ∈ entries /\ effective hours = true /\ v = stored hours.
Proof.
  induction entries as [| [k hours] rest IH]; simpl;
    [intros H; simpl in H; now apply lookup_empty_Some in H |].
  destruct (effective hours) eqn:E.
  - destruct (table !! k); [| intros H; simpl in H; now apply lookup_empty_Some in H].
    destruct (writes table rest) as [later finished]. simpl in *.
    intros H. apply lookup_union_Some_raw in H as [H | [_ H]].
    + destruct (IH H) as (hours' & Hin & He & Hv). exists hours'.
      split; [now right | auto].
    + apply lookup_singleton_Some in H as [<- <-]. exists hours.
      split; [now left | auto].
  - intros H. destruct (IH H) as (hours' & Hin & He & Hv). exists hours'.
    split; [now right | auto].
Qed.

Lemma requestWrites_Some user req db linkId v :
  (requestWrites user req db).1 !! linkId = Some v ->
  isAdmin user || isReviewer user = true
  /\ exists entries hours,
       hackatimeLinkOverrides req = Some entries
       /\ (linkId, hours) ∈ entries /\ effective hours = true /\ v = stored hours.
Proof.
  unfold requestWrites.
  destruct (hackatimeLinkOverrides req) as [entries |];
    [| intros H; simpl in H; now apply lookup_empty_Some in H].
  destruct (isAdmin user || isReviewer user);
    [| intros H; simpl in H; now apply lookup_empty_Some in H].
  intros H. split; [reflexivity |].
  destruct (writes_Some _ _ _ _ H) as (hours & ? & ? & ?). eauto 10.
Qed.

Lemma PUT_link_lookup user req db linkId link' :
  links (PUT user req db).1 !! linkId = Some link' ->
  exists link,
    links db !! linkId = Some link
    /\ (link' = link
        \/ (isAdmin user || isReviewer user = true
            /\ exists entries hours,
                 hackatimeLinkOverrides req = Some entries
                 /\ (linkId, hours) ∈ entries
                 /\ effective hours = true
                 /\ link' = setHoursOverride link (stored hours))).
Proof.
  destruct (PUT_cases user req db) as [(row & Hid & Hex & ->) | [_ ->]]; simpl;
    [| eauto].
  rewrite lookup_withWrites.
  destruct (links db !! linkId) as [link |]; simpl; [| discriminate].
  intros [= <-]. exists link. split; [reflexivity |]. unfold overridden.
  destruct ((requestWrites user req db).1 !! linkId) as [v |] eqn:W; [| auto].
  right. apply requestWrites_Some in W as (Hp & entries & hours & He & Hin & Heff & ->).
  eauto 10.
Qed.

Lemma PUT_link_kept user req db linkId :
  links (PUT user req db).1 !! linkId = None <-> links db !! linkId = None.
Proof.
  destruct (PUT_cases user req db) as [(row & Hid & Hex & ->) | [_ ->]]; simpl;
    [| reflexivity].
  rewrite lookup_withWrites. now rewrite fmap_None.
Qed.


(** *** An update that fails half way *)

Lemma writes_unknown_link table before linkId hours behind :
  (writes table before).2 = true ->
  effective hours = true -> table !! linkId = None ->
  writes table (before ++ (linkId, hours) :: behind) = ((writes table before).1, false).
Proof.
  intros Hb He Hl. induction before as [| [k h] rest IH]; simpl in *.
  - now rewrite He, Hl.
  - destruct (effective h); [| auto].
    destruct (table !! k); [| discriminate].
    destruct (writes table rest) as [later finished]. simpl in *.
    now rewrite IH.
Qed.

(** X6. The update is not undone when it fails: when an admin or a
    reviewer sends overrides and one of them writes to a link that does
    not exist, the answer is 500, but the fields of the project and the
    overrides of the entries before that one are stored, and the entries
    behind it are not looked at. *)
Theorem PUT_stops_at_unknown_link (user : User) (req : Request) (db : Store)
    (row : ProjectRow) (before : list (string * value)) (linkId : string)
    (hours : value) (behind : list (string * value)) :
  req_projectID req <> "" ->
  existingProject user (req_projectID req) db = Some row ->
  isAdmin user || isReviewer user = true ->
  hackatimeLinkOverrides req = Some (before ++ (linkId, hours) :: behind) ->
  (applyLinkOverrides (links db) before).2 = true ->
  effective hours = true ->
  links db !! linkId = None ->
  PUT user req db
  = ({| projects := <[req_projectID req := updatedRow user req row]> (projects db);
        links := (applyLinkOverrides (links db) before).1 |},
     500%Z)
  /\ (forall other, (applyLinkOverrides (links db) before).1 !! other = None
                    <-> links db !! other = None).
Proof.
  intros Hid Hex Hp Ho Hb He Hl. split.
  - rewrite (PUT_accepted user req db row) by assumption.
    rewrite applyLinkOverrides_writes in Hb |- *. simpl in Hb |- *.
    unfold requestWrites. rewrite Ho, Hp.
    now rewrite writes_unknown_link.
  - intros other. rewrite applyLinkOverrides_writes. simpl.
    rewrite lookup_withWrites. now rewrite fmap_None.
Qed.

(** *** Sending an update twice *)

Lemma withWrites_twice written table :
  withWrites written (withWrites written table) = withWrites written table.
Proof.
  apply map_eq. intros k. rewrite !lookup_withWrites.
  destruct (table !! k) as [link |]; [| reflexivity]. simpl. f_equal.
  unfold overridden. now destruct (written !! k).
Qed.

Lemma updatedRow_twice user req row :
  updatedRow user req (updatedRow user req row) = updatedRow user req row.
Proof.
  unfold updatedRow. simpl. f_equal.
  apply map_eq. intros k. rewrite !lookup_union.
  now destruct (updateData user req !! k), (columns row !! k).
Qed.


End UpdateFacts.

(** ** The other handlers of the projects endpoint *)

Module ProjectsApiFacts.

Import Number JS Schema Projects ProjectsApi NumberFacts LinkWrites UpdateFacts.
Local Open Scope float_scope.

(** *** The hours of a project *)

Lemma effectiveHours_typed link :
  overrideTyped link -> effectiveHours link = JNum (hoursOf link).
Proof.
  unfold overrideTyped, hoursOf, effectiveHours.
  destruct (hoursOverride link); simpl; try contradiction; try reflexivity;
    intros _; destruct (rawHours link); reflexivity.
Qed.

Lemma hoursOf_without_override link :
  is_present (hoursOverride link) = false ->
  hoursOf link = match rawHours link with JNum n => n | _ => 0 end.
Proof.
  unfold hoursOf, effectiveHours. intros ->.
  destruct (rawHours link); reflexivity.
Qed.

Section Operators.

Variable NumberToString : number -> string.
Variable StringToNumber : string -> number.

Abbreviation total := (rawHoursOf NumberToString StringToNumber).

Lemma foldl_plus_typed links : forall sum,
  Forall overrideTyped links ->
  foldl (fun sum link => plus NumberToString StringToNumber sum (effectiveHours link))
        (JNum sum) links
  = JNum (foldl (fun sum link => sum + hoursOf link) sum links).
Proof.
  induction links as [| link links IH]; intros sum Ht; simpl; [reflexivity |].
  inversion Ht as [| ? ? Hlink Hlinks]; subst.
  rewrite (effectiveHours_typed link Hlink). simpl. now apply IH.
Qed.

Lemma foldl_hours_nonneg links : forall sum,
  nonneg sum -> Forall (fun link => nonneg (hoursOf link)) links ->
  nonneg (foldl (fun sum link => sum + hoursOf link) sum links).
Proof.
  induction links as [| link links IH]; intros sum Hs Hl; simpl; [assumption |].
  inversion Hl; subst. apply IH; [| assumption]. now apply add_nonneg.
Qed.

Lemma foldl_hours_raw links : forall sum,
  Forall (fun link => is_present (hoursOverride link) = false) links ->
  foldl (fun sum link => sum + hoursOf link) sum links
  = foldl (fun sum link =>
             sum + match rawHours link with JNum n => n | _ => 0 end) sum links.
Proof.
  induction links as [| link links IH]; intros sum Hl; simpl; [reflexivity |].
  inversion Hl; subst. rewrite hoursOf_without_override by assumption. now apply IH.
Qed.

(** X8. For links whose override is a number or null, as the schema has
    it, the hours of a project are a number: the sum, link after link, of
    the override of the link when it has one and of its raw hours
    otherwise. The sum is not negative (nor NaN) when no link counts for a
    negative number, and when no link has an override it is the raw total
    that the review endpoint reports for the project. *)
Theorem rawHours_of_typed_links (links : list HackatimeProjectLink) :
  Forall overrideTyped links ->
  total links = JNum (foldl (fun sum link => sum + hoursOf link) 0 links)
  /\ (Forall (fun link => nonneg (hoursOf link)) links ->
      exists n, total links = JNum n /\ is_nan n = false /\ (0 <=? n) = true)
  /\ (Forall (fun link => is_present (hoursOverride link) = false) links ->
      total links = JNum (ReviewList.sumRawHours links)).
Proof.
  intros Ht.
  assert (E : total links = JNum (foldl (fun sum link => sum + hoursOf link) 0 links))
    by now apply foldl_plus_typed.
  split; [exact E | split].
  - intros Hn. eexists. split; [exact E |].
    pose proof (foldl_hours_nonneg links 0 nonneg_zero Hn).
    auto using nonneg_not_nan, nonneg_leb_zero.
  - intros Hr. rewrite E. f_equal. now apply foldl_hours_raw.
Qed.

End Operators.


(** *** The update sent as a form *)

Lemma substring_all s : substring 0 (String.length s) s = s.
Proof. induction s as [| c s IH]; simpl; [reflexivity | now rewrite IH]. Qed.

(** A name that starts with a prefix is the prefix followed by the rest of
    the name. *)
Lemma prefix_rest p : forall name,
  String.prefix p name = true ->
  name = String.append p
           (substring (String.length p) (String.length name - String.length p) name).
Proof.
  induction p as [| c p IH]; intros name H; simpl.
  - rewrite Nat.sub_0_r. symmetry. apply substring_all.
  - destruct name as [| d name]; simpl in *; [discriminate |].
    destruct (Ascii.ascii_dec c d) as [-> | ?]; [| discriminate].
    change (String d p +:+ ?x) with (String d (p +:+ x)). f_equal. now apply IH.
Qed.

Section Multipart.

Variable parseFloat : string -> number.
Variable trim : string -> string.

Abbreviation fromForm := (fromEntry parseFloat trim).

Lemma linkOverride_Some (form : Form) overrides entry :
  entry ∈ form ->
  (forall linkId v, overrides !! linkId = Some v -> fromForm form linkId v) ->
  forall linkId v,
    linkOverride parseFloat trim overrides entry !! linkId = Some v ->
    fromForm form linkId v.
Proof.
  intros Hin Hacc linkId v. unfold linkOverride.
  destruct (String.prefix "linkOverride-" entry.1) eqn:P; [| apply Hacc].
  destruct (String.eqb_spec entry.2 ""); simpl; [apply Hacc |].
  destruct (String.eqb_spec (trim entry.2) ""); simpl; [apply Hacc |].
  destruct (isNaN (parseFloat entry.2)) eqn:N; simpl; [apply Hacc |].
  destruct (decide (linkId
                    = substring 13 (String.length entry.1 - 13) entry.1)) as [-> | Hne].
  - rewrite lookup_insert_eq. intros [= <-]. exists entry.2.
    repeat split; auto.
    change 13%nat with (String.length "linkOverride-").
    rewrite <- (prefix_rest _ _ P). now destruct entry.
  - rewrite lookup_insert_ne by congruence. apply Hacc.
Qed.

Lemma foldl_linkOverride_Some (form : Form) entries : forall overrides,
  (forall entry, entry ∈ entries -> entry ∈ form) ->
  (forall linkId v, overrides !! linkId = Some v -> fromForm form linkId v) ->
  forall linkId v,
    foldl (linkOverride parseFloat trim) overrides entries !! linkId = Some v ->
    fromForm form linkId v.
Proof.
  induction entries as [| entry entries IH]; intros overrides Hsub Hacc; simpl;
    [exact Hacc |].
  apply IH.
  - intros e He. apply Hsub. now right.
  - apply linkOverride_Some; [apply Hsub; now left | exact Hacc].
Qed.

Lemma formLinkOverrides_Some form linkId v :
  formLinkOverrides parseFloat trim form !! linkId = Some v ->
  fromForm form linkId v.
Proof.
  apply foldl_linkOverride_Some; [auto |].
  intros k w H. now apply lookup_empty_Some in H.
Qed.

Variable ObjectEntries : gmap string value -> list (string * value).

Abbreviation request := (multipartRequest parseFloat trim ObjectEntries).

Lemma formFields_text form key :
  key ∈ ["name"; "description"; "codeUrl"; "playableUrl"; "screenshot"] ->
  formFields parseFloat form !! key = Some (JStr (textField form key)).
Proof.
  intros H. repeat (apply elem_of_cons in H as [-> | H]; [reflexivity |]).
  inversion H.
Qed.

(** X9. An update sent as a form writes every text field of the project,
    [name], [description], [codeUrl], [playableUrl] and [screenshot]: a
    field that the form does not carry is stored as the empty string.
    [chat_enabled] is stored as true exactly when the form says [on]; and
    for an admin also [shipped], [viral] and [in_review], for a reviewer
    [in_review], each true exactly when the form says [true], so false
    when the form does not carry it. *)
Theorem multipart_update_overwrites (user : User) (form : Form) (db : Store)
    (row : ProjectRow) :
  textField form "projectID" <> "" ->
  existingProject user (textField form "projectID") db = Some row ->
  exists row',
    projects (PUT user (request form) db).1 !! textField form "projectID" = Some row'
    /\ (forall key,
          key ∈ ["name"; "description"; "codeUrl"; "playableUrl"; "screenshot"] ->
          columns row' !! key = Some (JStr (textField form key))
          /\ (formGet form key = None -> columns row' !! key = Some (JStr "")))
    /\ columns row' !! "chat_enabled" = Some (JBool (fieldIs form "chat_enabled" "on"))
    /\ (isAdmin user = true ->
        forall key,
          key ∈ ["shipped"; "viral"; "in_review"] ->
          columns row' !! key = Some (JBool (fieldIs form key "true"))
          /\ (formGet form key = None -> columns row' !! key = Some (JBool false)))
    /\ (isReviewer user = true ->
        columns row' !! "in_review" = Some (JBool (fieldIs form "in_review" "true"))).
Proof.
  intros Hid Hex. eexists.
  split.
  { rewrite (PUT_accepted user (request form) db row Hid Hex). simpl.
    apply lookup_insert_eq. }
  assert (Hw : forall key v,
            formFields parseFloat form !! key = Some v -> v <> JUndefined ->
            key <> "hoursOverride" -> includes nonUpdateableFields key = false ->
            (isAdmin user = true
             \/ (isReviewer user = true /\ includes reviewerUpdateableFields key = true)
             \/ includes userUpdateableFields key = true) ->
            columns (updatedRow user (request form) row) !! key = Some v).
  { intros key v Hf Hv Hk Hn Hrole. simpl.
    apply lookup_union_Some_l. now apply updateData_writes. }
  split; [| split; [| split]].
  - intros key Hkey.
    assert (E : columns (updatedRow user (request form) row) !! key
                = Some (JStr (textField form key))).
    { apply Hw; [now apply formFields_text | discriminate | | |];
        repeat (apply elem_of_cons in Hkey as [-> | Hkey];
                [first [discriminate | reflexivity | right; right; reflexivity] |]);
        inversion Hkey. }
    split; [exact E |]. intros Hnone. rewrite E. unfold textField. now rewrite Hnone.
  - apply Hw; try reflexivity; try discriminate. right. right. reflexivity.
  - intros Ha key Hkey.
    assert (E : columns (updatedRow user (request form) row) !! key
                = Some (JBool (fieldIs form key "true"))).
    { apply Hw; [| discriminate | | | now left];
        repeat (apply elem_of_cons in Hkey as [-> | Hkey];
                [first [discriminate | reflexivity] |]);
        inversion Hkey. }
    split; [exact E |]. intros Hnone. rewrite E. unfold fieldIs. now rewrite Hnone.
  - intros Hr. apply Hw; try reflexivity; try discriminate. right. left. auto.
Qed.

(** X10. An update sent as a form never clears an override and never
    stores NaN: the override of a link after the update is the one it had,
    or the number read from the text of an entry [linkOverride-<id>] of
    the form, text that is not blank. The entries are those of the object
    built from the form, which is what [Object.entries] lists. *)
Theorem multipart_update_sets_numbers (user : User) (form : Form) (db : Store)
    (linkId : string) (link' : HackatimeProjectLink) :
  (forall obj entry, entry ∈ ObjectEntries obj -> obj !! entry.1 = Some entry.2) ->
  links (PUT user (request form) db).1 !! linkId = Some link' ->
  exists link,
    links db !! linkId = Some link
    /\ (hoursOverride link' = hoursOverride link
        \/ exists text,
             (String.append "linkOverride-" linkId, text) ∈ form
             /\ text <> "" /\ trim text <> ""
             /\ isNaN (parseFloat text) = false
             /\ hoursOverride link' = JNum (parseFloat text)).
Proof.
  intros Hentries H.
  destruct (PUT_link_lookup _ _ _ _ _ H)
    as (link & Hl & [-> | (Hp & entries & hours & He & Hin & Heff & ->)]);
    exists link; (split; [exact Hl |]); [now left |].
  right. simpl in He. injection He as <-.
  apply Hentries in Hin. simpl in Hin.
  apply formLinkOverrides_Some in Hin as (text & Hform & Ht & Htrim & -> & Hn).
  exists text. repeat split; auto.
  simpl. unfold stored. simpl. now rewrite Hn.
Qed.

End Multipart.


(** *** Creating a project *)

Lemma resetFlag_lookup key obj k :
  resetFlag key obj !! k
  = if decide (k = key) then
      match obj !! key with
      | Some (JBool true) => Some (JBool false)
      | other => other
      end
    else obj !! k.
Proof.
  unfold resetFlag.
  destruct (decide (k = key)) as [-> | Hne].
  - destruct (obj !! key) as [[| | [] | |] |] eqn:E; try exact E.
    apply lookup_insert_eq.
  - destruct (obj !! key) as [[| | [] | |] |]; try reflexivity.
    now apply lookup_insert_ne.
Qed.

Lemma resetFlag_not_true key obj : resetFlag key obj !! key <> Some (JBool true).
Proof.
  rewrite resetFlag_lookup, decide_True by reflexivity.
  destruct (obj !! key) as [[| | [] | |] |]; discriminate.
Qed.

Lemma restrict_unprivileged data key :
  key ∈ ["shipped"; "viral"; "in_review"] ->
  fields (restrict false data) !! key <> Some (JBool true).
Proof.
  intros H. cbn [restrict fields].
  apply elem_of_cons in H as [-> | H].
  { rewrite (resetFlag_lookup "in_review"), decide_False by discriminate.
    rewrite (resetFlag_lookup "viral"), decide_False by discriminate.
    apply resetFlag_not_true. }
  apply elem_of_cons in H as [-> | H].
  { rewrite (resetFlag_lookup "in_review"), decide_False by discriminate.
    apply resetFlag_not_true. }
  apply elem_of_cons in H as [-> | H]; [apply resetFlag_not_true | inversion H].
Qed.

Lemma restrict_other privileged data key :
  key ∉ ["shipped"; "viral"; "in_review"] ->
  fields (restrict privileged data) !! key = fields data !! key.
Proof.
  intros H. destruct privileged; [reflexivity |]. simpl.
  rewrite !resetFlag_lookup.
  repeat (destruct (decide _) as [-> | _];
          [exfalso; apply H; repeat constructor |]).
  reflexivity.
Qed.

Lemma validate_Returned data checked :
  validate data = Returned checked ->
  checked = data
  /\ truthy (prop (fields data) "name") = true
  /\ truthy (prop (fields data) "description") = true
  /\ is_string lastProject (prop (fields data) "hackatimeName") = false
  /\ existsb (is_string lastProject) (hackatimeProjects data) = false.
Proof.
  unfold validate.
  destruct (truthy (prop (fields data) "name")); [| discriminate].
  destruct (truthy (prop (fields data) "description")); [| discriminate].
  destruct (is_string lastProject (prop (fields data) "hackatimeName")); [discriminate |].
  destruct (existsb _ _); [discriminate |].
  simpl. intros [= <-]. auto.
Qed.

(** X11. What the handler hands to [createProject] has passed the checks:
    a name and a description that are not empty, no link to
    [<<LAST_PROJECT>>], neither as [hackatimeName] nor among
    [hackatimeProjects], and the caller as [userId], whatever the request
    said about the owner. For a caller who is neither admin nor reviewer
    none of [shipped], [viral] and [in_review] is [true]. *)
Theorem createInput_checked (user : User) (body : PostBody) (input : ProjectData) :
  createInput user body = inr input ->
  truthy (prop (fields input) "name") = true
  /\ truthy (prop (fields input) "description") = true
  /\ prop (fields input) "hackatimeName" <> JStr lastProject
  /\ (JStr lastProject ∉ hackatimeProjects input)
  /\ fields input !! "userId" = Some (JStr (user_id user))
  /\ (isAdmin user = false -> isReviewer user = false ->
      forall key,
        key ∈ ["shipped"; "viral"; "in_review"] ->
        fields input !! key <> Some (JBool true)).
Proof.
  unfold createInput.
  destruct (parseBody body) as [response | projectData]; [discriminate |].
  destruct (validate projectData) as [checked | error] eqn:V; [| discriminate].
  apply validate_Returned in V as (-> & Hname & Hdesc & Hlast & Hnone).
  intros [= <-].
  set (privileged := isAdmin user || isReviewer user).
  assert (Hkeep : forall key,
            key ∉ ["shipped"; "viral"; "in_review"] -> key <> "userId" ->
            prop (fields (withUserId user (restrict privileged projectData))) key
            = prop (fields projectData) key).
  { intros key Hk Hu. unfold prop. simpl.
    rewrite lookup_insert_ne by congruence.
    now rewrite (restrict_other privileged projectData key Hk). }
  assert (Hnot : forall key : string,
            key ∈ ["name"; "description"; "hackatimeName"] ->
            (key ∉ ["shipped"; "viral"; "in_review"]) /\ key <> "userId").
  { intros key H.
    repeat (apply elem_of_cons in H as [-> | H];
            [split; [rewrite !elem_of_cons, elem_of_nil;
                     intros [? | [? | [? | []]]]; discriminate
                    | discriminate] |]).
    inversion H. }
  repeat split.
  - rewrite Hkeep; [exact Hname | |]; apply Hnot; repeat constructor.
  - rewrite Hkeep; [exact Hdesc | |]; apply Hnot; repeat constructor.
  - rewrite Hkeep; [| apply Hnot; repeat constructor ..].
    intros E. rewrite E in Hlast. discriminate.
  - simpl. intros Hin.
    assert (Hcontra : existsb (is_string lastProject)
                        (hackatimeProjects (restrict privileged projectData)) = true).
    { apply existsb_exists. exists (JStr lastProject).
      split; [now apply list_elem_of_In | reflexivity]. }
    replace (hackatimeProjects (restrict privileged projectData))
      with (hackatimeProjects projectData) in Hcontra
      by (now destruct privileged).
    congruence.
  - simpl. apply lookup_insert_eq.
  - intros Ha Hr key Hkey. subst privileged. rewrite Ha, Hr. simpl orb.
    cbn [withUserId fields].
    rewrite lookup_insert_ne.
    + now apply restrict_unprivileged.
    + repeat (apply elem_of_cons in Hkey as [-> | Hkey]; [discriminate |]).
      inversion Hkey.
Qed.

Section POST.

Context {State : Type}.
Variable createProject : ProjectData -> State -> State * outcome (option object).
Variable logProjectEvent : object -> State -> State * outcome bool.
Variable createProjectFunctionBody_length : nat.
Variable readFileSync : outcome string.

Abbreviation post :=
  (POST createProject logProjectEvent createProjectFunctionBody_length readFileSync).

Lemma POST_answer (user : User) (body : PostBody) (s : State) :
  (post (Returned user) body s).2
  = match createInput user body with
    | inl response => response
    | inr input =>
        match (callCreateProject createProject createProjectFunctionBody_length
                 readFileSync input s).2 with
        | Thrown error => PostError 500 error
        | Returned None =>
            PostError 500 "Project creation failed - no project data returned"
        | Returned (Some createdProject) => Created createdProject
        end
    end.
Proof.
  unfold POST. destruct (createInput user body) as [response | input]; [reflexivity |].
  destruct (callCreateProject _ _ _ input s) as [s1 [[created |] | error]]; reflexivity.
Qed.

Lemma callCreateProject_outcome input s :
  (forall s', (createProject input s').2 = (createProject input s).2) ->
  (callCreateProject createProject createProjectFunctionBody_length readFileSync input s).2
  = (createProject input s).2.
Proof.
  intros Hsame. unfold callCreateProject.
  destruct (Nat.ltb _ 100); [| reflexivity].
  destruct readFileSync; [| reflexivity].
  destruct (createProject input s) as [s1 [created | error]] eqn:E; [reflexivity |].
  now rewrite (Hsame s1).
Qed.

(** X12. A request that fails a check does not reach [createProject] and
    leaves the state as it was. The answer is then 400 for a body that is
    no JSON object and 500 in every other case, a missing name or
    description and a link to [<<LAST_PROJECT>>] included; and the first
    check that fails gives the message. *)
Theorem POST_rejects_before_createProject (user : User) (body : PostBody) (s : State) :
  (forall response,
      createInput user body = inl response ->
      post (Returned user) body s = (s, response)
      /\ exists status error,
           response = PostError status error
           /\ (status = 400%Z \/ status = 500%Z)
           /\ (status = 400%Z <-> body = JsonRequest None))
  /\ (forall data,
        parseBody body = inr data ->
        (truthy (prop (fields data) "name") = false ->
         post (Returned user) body s = (s, PostError 500 "Project name is required"))
        /\ (truthy (prop (fields data) "name") = true ->
            truthy (prop (fields data) "description") = false ->
            post (Returned user) body s
            = (s, PostError 500 "Project description is required"))
        /\ (truthy (prop (fields data) "name") = true ->
            truthy (prop (fields data) "description") = true ->
            prop (fields data) "hackatimeName" = JStr lastProject
            \/ JStr lastProject ∈ hackatimeProjects data ->
            post (Returned user) body s = (s, PostError 500 cannotBeLinked))).
Proof.
  split.
  - intros response E. unfold POST. rewrite E. split; [reflexivity |].
    unfold createInput in E.
    destruct body as [[form | error] | [json |]]; simpl in E.
    + destruct (validate (formProjectData form)); [discriminate |].
      injection E as <-. eexists _, _. split; [reflexivity |].
      split; [now right |]. split; discriminate.
    + injection E as <-. eexists _, _. split; [reflexivity |].
      split; [now right |]. split; discriminate.
    + destruct (validate (jsonProjectData json)); [discriminate |].
      injection E as <-. eexists _, _. split; [reflexivity |].
      split; [now right |]. split; discriminate.
    + injection E as <-. eexists _, _. split; [reflexivity |].
      split; [now left |]. split; reflexivity.
  - intros data Hparse.
    assert (E : forall error,
              validate data = Thrown error ->
              post (Returned user) body s = (s, PostError 500 error)).
    { intros error V. unfold POST, createInput. now rewrite Hparse, V. }
    repeat split.
    + intros Hn. apply E. unfold validate. now rewrite Hn.
    + intros Hn Hd. apply E. unfold validate. now rewrite Hn, Hd.
    + intros Hn Hd Hl. apply E. unfold validate. rewrite Hn, Hd. simpl.
      destruct Hl as [Hl | Hl].
      * rewrite Hl. reflexivity.
      * destruct (is_string lastProject (prop (fields data) "hackatimeName"));
          [reflexivity |].
        assert (Hex : existsb (is_string lastProject) (hackatimeProjects data) = true).
        { apply existsb_exists. exists (JStr lastProject).
          split; [now apply list_elem_of_In | reflexivity]. }
        now rewrite Hex.
Qed.

End POST.

(** X14. When [createProject] answers a request the same way whenever it
    is asked, the answer of the handler is the one that a single call
    gives: it depends neither on the length of the text of the imported
    function nor on whether [lib/project.ts] can be read, although with a
    short text, a readable file and a first call that throws,
    [createProject] is run a second time. A failure of the audit log does
    not change the answer either. *)
Theorem POST_answer_of_one_call
    {State : Type}
    (createProject : ProjectData -> State -> State * outcome (option object))
    (logProjectEvent : object -> State -> State * outcome bool)
    (createProjectFunctionBody_length : nat) (readFileSync : outcome string)
    (user : User) (body : PostBody) (s : State) (input : ProjectData) :
  createInput user body = inr input ->
  (forall s', (createProject input s').2 = (createProject input s).2) ->
  (POST createProject logProjectEvent createProjectFunctionBody_length readFileSync
        (Returned user) body s).2
  = match (createProject input s).2 with
    | Thrown error => PostError 500 error
    | Returned None => PostError 500 "Project creation failed - no project data returned"
    | Returned (Some createdProject) => Created createdProject
    end
  /\ (createProjectFunctionBody_length < 100 ->
      (exists text, readFileSync = Returned text) ->
      (exists error, (createProject input s).2 = Thrown error) ->
      (POST createProject logProjectEvent createProjectFunctionBody_length readFileSync
            (Returned user) body s).1
      = (createProject input (createProject input s).1).1)%nat.
Proof.
  intros Hinput Hsame. split.
  - rewrite POST_answer, Hinput. now rewrite callCreateProject_outcome.
  - intros Hlen (text & Hread) (error & Herr).
    unfold POST, callCreateProject. rewrite Hinput, Hread.
    apply Nat.ltb_lt in Hlen. rewrite Hlen.
    destruct (createProject input s) as [s1 first]. simpl in *. subst first.
    specialize (Hsame s1).
    destruct (createProject input s1) as [s2 second]. simpl in *. now subst second.
Qed.

(** *** Deleting a project *)

Lemma deleted_spec projectID db :
  let after := deleteProject projectID (deleteReviews projectID db) in
  projects (store after) !! projectID = None
  /\ (forall other, other <> projectID ->
        projects (store after) !! other = projects (store db) !! other)
  /\ (forall review, review ∈ reviewTable after <->
        review ∈ reviewTable db /\ review_projectID review <> projectID).
Proof.
  simpl.
  split; [apply lookup_delete_eq |].
  split; [intros other Hne; now apply lookup_delete_ne |].
  intros review.
  rewrite !list_elem_of_In, filter_In, negb_true_iff, String.eqb_neq. reflexivity.
Qed.


End ProjectsApiFacts.

(** ** The shop administration page *)

Module ShopAdminFacts.

Import Number JS Shop ShopAdmin NumberFacts ShopFacts.
Local Open Scope float_scope.

(** *** Statistics *)

Lemma lookup_foldl_zeros itemIds id : forall stats : gmap string ItemStats,
  foldl (fun stats id =>
           <[id := {| unitsSold := 0; totalRevenue := 0; avgPrice := 0 |}]> stats)
        stats itemIds !! id
  = if decide (id ∈ itemIds)
    then Some {| unitsSold := 0; totalRevenue := 0; avgPrice := 0 |}
    else stats !! id.
Proof.
  induction itemIds as [| x rest IH]; intros stats; simpl.
  - destruct (decide (id ∈ [])) as [Hin | _]; [inversion Hin | reflexivity].
  - rewrite IH. destruct (decide (id ∈ rest)) as [Hin | Hout].
    + rewrite decide_True by now right. reflexivity.
    + destruct (decide (id = x)) as [-> | Hne].
      * rewrite decide_True by now left. apply lookup_insert_eq.
      * rewrite decide_False by (rewrite elem_of_cons; tauto).
        now apply lookup_insert_ne.
Qed.

Lemma lookup_emptyStats itemIds id :
  emptyStats itemIds !! id
  = if decide (id ∈ itemIds)
    then Some {| unitsSold := 0; totalRevenue := 0; avgPrice := 0 |}
    else None.
Proof. unfold emptyStats. rewrite lookup_foldl_zeros. now rewrite lookup_empty. Qed.

Section Range.

Variable now : number.
Variable rangeMs : option number.

Abbreviation sums := (summed now rangeMs).

Lemma lookup_foldl_countOrder orders id : forall stats,
  foldl (countOrder now rangeMs) stats orders !! id
  = (fun s => sums id s orders) <$> stats !! id.
Proof.
  induction orders as [| order rest IH]; intros stats.
  - simpl. destruct (stats !! id) as [[] |]; reflexivity.
  - cbn [foldl]. rewrite IH. unfold summed. cbn [List.filter].
    unfold countOrder, countsFor.
    destruct (outOfRange now rangeMs order); [reflexivity |].
    destruct (String.eqb_spec (order_itemId order) ""); [reflexivity |].
    cbn [negb andb].
    destruct (String.eqb_spec (order_itemId order) id) as [E | N].
    + rewrite E. destruct (stats !! id) as [s |] eqn:L; [| now rewrite L].
      rewrite lookup_insert_eq. reflexivity.
    + destruct (stats !! order_itemId order); [| reflexivity].
      now rewrite lookup_insert_ne.
Qed.

(** X15. The statistics have one entry for every item and none for
    anything else. The units and the revenue of an item are the sums,
    in the order of the orders, of the quantities and of the prices of the
    orders that name the item and are not older than the range, and the
    average is the rounded quotient of the two, or 0 when no unit was
    sold: an order for another item, an order without item and an order
    out of the range change nothing. Without orders or without items
    there are no statistics at all. No item and no order is named
    [__proto__], the one name that an object does not keep as a property
    of its own. *)
Theorem itemStats_per_item (orders : list ShopOrder) (itemIds : list string)
    (id : string) :
  "__proto__" ∉ itemIds ->
  Forall (fun order => order_itemId order <> "__proto__") orders ->
  (orders = [] \/ itemIds = [] -> itemStats orders itemIds now rangeMs = ∅)
  /\ (orders <> [] -> itemIds <> [] ->
      (id ∉ itemIds -> itemStats orders itemIds now rangeMs !! id = None)
      /\ (id ∈ itemIds ->
          let counted := List.filter (countsFor now rangeMs id) orders in
          let units := foldl (fun units order => units + order_quantity order) 0 counted in
          let revenue := foldl (fun revenue order => revenue + order_price order) 0 counted in
          itemStats orders itemIds now rangeMs !! id
          = Some {| unitsSold := units;
                    totalRevenue := revenue;
                    avgPrice := if 0 <? units then Math_round (revenue / units) else 0 |}
          /\ (counted = [] ->
              itemStats orders itemIds now rangeMs !! id
              = Some {| unitsSold := 0; totalRevenue := 0; avgPrice := 0 |}))).
Proof.
  intros _ _. split.
  - intros [-> | ->]; [reflexivity | now destruct orders].
  - intros Ho Hi.
    assert (E : itemStats orders itemIds now rangeMs !! id
                = withAverage
                    <$> ((fun s => sums id s orders) <$> emptyStats itemIds !! id)).
    { destruct orders as [| order rest]; [contradiction |].
      destruct itemIds as [| firstId otherIds]; [contradiction |].
      unfold itemStats. now rewrite lookup_fmap, lookup_foldl_countOrder. }
    rewrite E, lookup_emptyStats. split.
    + intros Hout. now rewrite decide_False.
    + intros Hin counted units revenue. rewrite decide_True by assumption.
      split; [reflexivity |].
      intros Hnone. simpl. unfold withAverage, summed. simpl.
      fold counted. now rewrite Hnone.
Qed.

End Range.

(** *** The form *)

Section Texts.

Variable parseInt : string -> number.
Variable parseFloat : string -> number.
Variable StringToNumber : string -> number.
Variable NumberToString : number -> string.
Variable reparsed : Json -> Json.
Variable calculateShellPrice : number -> number -> outcome number.
Variable fetch : string -> string -> Body -> outcome Response.

Abbreviation read := (readForm parseInt parseFloat).
Abbreviation edit := (handleEdit NumberToString reparsed).
Abbreviation rateOf := (globalRate parseFloat).
Abbreviation submitted :=
  (submit parseInt parseFloat NumberToString calculateShellPrice fetch).


(** X17. For a config item whose cost field holds a number, the note under
    the form shows the price that the effect writes into the price field,
    by the same branch: the price by the rate of the item, the price by
    the hours of progress, or none. When the effect throws, as it does for
    the config text [null], the note shows nothing. *)
Theorem configPreview_shows_autoCalculatedPrice (form : FormText) :
  form_costType form = config ->
  form_usdCost form <> "" ->
  isNaN (parseFloat (form_usdCost form)) = false ->
  (forall shells,
      autoCalculatedPrice parseFloat StringToNumber (read form) = Returned shells ->
      snd <$> configPreview parseFloat StringToNumber form = shells
      /\ exists branch,
           branchTaken (read form) = Returned branch
           /\ fst <$> configPreview parseFloat StringToNumber form
              = match branch with
                | NoAutoCalculation => None
                | _ => Some branch
                end)
  /\ (forall error,
        autoCalculatedPrice parseFloat StringToNumber (read form) = Thrown error ->
        configPreview parseFloat StringToNumber form = None).
Proof.
  intros Hc Hgiven Hnum.
  unfold configPreview, autoCalculatedPrice, branchTaken, configObj. simpl.
  rewrite Hc, Hnum.
  destruct (String.eqb_spec (form_usdCost form) ""); [contradiction |].
  destruct (form_config form) as [| e | [| b | num | s | elements | obj]]; simpl;
    try (split; [intros shells [= <-]; split; [reflexivity | eauto]
                | discriminate]);
    try (split; [discriminate | reflexivity]).
  rewrite !andb_true_r.
  destruct (truthy (prop obj "dollars_per_hour")); simpl;
    [split; [intros shells [= <-]; split; [reflexivity | eauto] | discriminate] |].
  destruct (truthy (prop obj "hours_equal_to_one_percent_progress")); simpl;
    (split; [intros shells [= <-]; split; [reflexivity | eauto] | discriminate]).
Qed.

(** X18. For a fixed item the note under the form shows the price that is
    submitted, whenever a price is computed on submission: with a cost
    above 0 and a global rate above 0 both fields are filled in, the note
    is shown with the result of the call that the submission makes, so its
    price is the price of every payload sent, and when the call throws
    nothing is sent. The empty text and the text [0] are read as numbers
    that are not above 0. *)
Theorem fixedPreview_shows_submitted_price (globalConfig : GlobalConfig)
    (form : FormText) :
  (0 <? parseFloat "") = false ->
  (0 <? parseFloat "0") = false ->
  form_costType form = fixed ->
  (0 <? parseFloat (form_usdCost form)) = true ->
  (0 <? rateOf globalConfig) = true ->
  fixedPreview parseFloat calculateShellPrice globalConfig form
  = Some (calculateShellPrice (parseFloat (form_usdCost form)) (rateOf globalConfig))
  /\ (forall editingItem payload result,
        submitted editingItem globalConfig form = Sent payload result ->
        fixedPreview parseFloat calculateShellPrice globalConfig form
        = Some (Returned (payload_price payload)))
  /\ (forall editingItem error,
        fixedPreview parseFloat calculateShellPrice globalConfig form
        = Some (Thrown error) ->
        exists error', submitted editingItem globalConfig form = NotSent error').
Proof.
  intros Hempty Hzero Hc Hu Hr.
  assert (Hp : finalPrice calculateShellPrice (read form) (rateOf globalConfig)
               = calculateShellPrice (parseFloat (form_usdCost form)) (rateOf globalConfig))
    by (apply finalPrice_fixed; assumption).
  assert (Hnote : fixedPreview parseFloat calculateShellPrice globalConfig form
                  = Some (calculateShellPrice (parseFloat (form_usdCost form))
                            (rateOf globalConfig))).
  { unfold fixedPreview. rewrite Hc.
    destruct (String.eqb_spec (form_usdCost form) "") as [E | _];
      [rewrite E in Hu; congruence |].
    unfold globalRate in *.
    destruct (dollars_per_hour globalConfig) as [rate |]; [| congruence].
    destruct (String.eqb_spec rate ""); [congruence | reflexivity]. }
  split; [exact Hnote | split].
  - intros editingItem payload result E. apply handleSubmit_Sent in E as (E & _).
    rewrite Hnote. f_equal. now rewrite <- Hp.
  - intros editingItem error E. rewrite Hnote in E. injection E as E.
    rewrite <- Hp in E. unfold submit, handleSubmit, payloadOf.
    destruct (configText (read form)) as [| e | parsed]; simpl; eauto;
      rewrite E; simpl; eauto.
Qed.

End Texts.

(** *** Saving the global configuration *)

Section Save.

Variable parseFloat : string -> number.
Variable NumberToString : number -> string.
Variable fetch : Call -> outcome Response.

Abbreviation save := (savePricingConfig parseFloat NumberToString fetch).
Abbreviation stored call fallback :=
  (expectOk NumberToString fetch call fallback = Returned tt).

Lemma recalculate_answered call response body :
  fetch call = Returned response -> json response = Returned body ->
  ok response = true \/ body <> JsonNull ->
  recalculate fetch call = Returned tt.
Proof.
  intros Hf Hj H. unfold recalculate. rewrite Hf. simpl. rewrite Hj. simpl.
  destruct (ok response); simpl; [reflexivity |].
  destruct H as [H | H]; [discriminate |].
  destruct body; simpl; congruence.
Qed.

Lemma saveRate_calls state :
  let calls := (saveRate parseFloat NumberToString fetch state).1 in
  let result := (saveRate parseFloat NumberToString fetch state).2 in
  (forall call, call ∈ calls ->
     call = updateRate state
     \/ (call = RecalculatePrices (newRate parseFloat state)
         /\ (0 <? newRate parseFloat state) = true
         /\ stored (updateRate state) "Failed to update dollars per hour"))
  /\ (updateRate state ∈ calls
      <-> dollarsPerHour state <> default "" (dollars_per_hour (globalConfig state)))
  /\ (forall rate response body,
        RecalculatePrices rate ∈ calls ->
        fetch (RecalculatePrices rate) = Returned response ->
        json response = Returned body ->
        ok response = true \/ body <> JsonNull ->
        result = Returned tt).
Proof.
  unfold saveRate. fold (newRate parseFloat state) (updateRate state).
  destruct (String.eqb_spec (dollarsPerHour state)
              (default "" (dollars_per_hour (globalConfig state)))) as [E | N]; simpl.
  { split; [intros call H; inversion H |].
    split; [split; [intros H; inversion H | contradiction] |].
    intros rate response body H. inversion H. }
  destruct (expectOk NumberToString fetch (updateRate state)
              "Failed to update dollars per hour") as [[] | error] eqn:U; simpl.
  2:{ split; [intros call H; apply list_elem_of_singleton in H; auto |].
      split; [split; [auto | intros _; now left] |].
      intros rate response body H. apply list_elem_of_singleton in H. discriminate. }
  destruct (negb _ && (0 <? newRate parseFloat state)) eqn:C; simpl.
  - apply andb_true_iff in C as [_ C].
    split.
    { intros call H. rewrite !elem_of_cons, elem_of_nil in H.
      destruct H as [-> | [-> | []]]; auto. }
    split; [split; [auto | intros _; now left] |].
    intros rate response body H Hf Hj Hb. rewrite !elem_of_cons, elem_of_nil in H.
    destruct H as [H | [[= <-] | []]]; [discriminate |].
    now apply (recalculate_answered _ response body).
  - split; [intros call H; apply list_elem_of_singleton in H; auto |].
    split; [split; [auto | intros _; now left] |].
    intros rate response body H. apply list_elem_of_singleton in H. discriminate.
Qed.

(** X19. Saving the global configuration: the recalculation of the prices
    is requested only after the rate was stored, and only for a rate
    above 0; a recalculation that is answered, with whatever status, does
    not stop the save, the two percentages are posted after it (unless the
    body of an answer that is not ok is [null]). The maximum is posted
    only after the minimum was stored, and the page takes over the three
    values and reloads exactly when all of it went through; after an
    error nothing is reloaded. *)
Theorem savePricingConfig_calls (state : PricingState) :
  let calls := (save state).1 in
  let result := (save state).2 in
  (forall rate,
      RecalculatePrices rate ∈ calls ->
      rate = newRate parseFloat state /\ (0 <? rate) = true
      /\ stored (updateRate state) "Failed to update dollars per hour")
  /\ (forall rate response body,
        RecalculatePrices rate ∈ calls ->
        fetch (RecalculatePrices rate) = Returned response ->
        json response = Returned body ->
        ok response = true \/ body <> JsonNull ->
        postMin state ∈ calls)
  /\ (postMax state ∈ calls -> stored (postMin state) "Failed to update min percent")
  /\ (forall saved,
        result = Returned saved ->
        saved = {| dollars_per_hour := Some (dollarsPerHour state);
                   price_random_min_percent := Some (minPercent state);
                   price_random_max_percent := Some (maxPercent state) |}
        /\ (exists before,
              calls = before ++ [postMin state; postMax state; FetchData])
        /\ stored (postMax state) "Failed to update max percent")
  /\ (forall error, result = Thrown error -> FetchData ∉ calls).
Proof.
  intros calls result. subst calls result. unfold savePricingConfig.
  destruct (saveRate_calls state) as (Hcalls & _ & Hrecalc).
  destruct (saveRate parseFloat NumberToString fetch state) as [rateCalls rate].
  simpl in Hcalls, Hrecalc.
  fold (postMin state) (postMax state).
  assert (Hno : forall call, call ∈ rateCalls ->
            call <> postMin state /\ call <> postMax state /\ call <> FetchData).
  { intros call H. destruct (Hcalls call H) as [-> | [-> _]]; repeat split; discriminate. }
  assert (Hrate : forall r calls',
            calls' ⊆ [postMin state; postMax state; FetchData] ->
            RecalculatePrices r ∈ rateCalls ++ calls' ->
            RecalculatePrices r ∈ rateCalls).
  { intros r calls' Hsub H. apply elem_of_app in H as [H | H]; [exact H |].
    apply Hsub in H. rewrite !elem_of_cons, elem_of_nil in H.
    destruct H as [? | [? | [? | []]]]; discriminate. }
  assert (Hrecalculate : forall r, RecalculatePrices r ∈ rateCalls ->
            r = newRate parseFloat state /\ (0 <? r) = true
            /\ stored (updateRate state) "Failed to update dollars per hour").
  { intros r H. destruct (Hcalls _ H) as [E | ([= ->] & ? & ?)]; [discriminate | auto]. }
  destruct rate as [[] | error]; simpl.
  2:{ split; [exact Hrecalculate |].
      split.
      { intros rate response body H Hf Hj Hb.
        specialize (Hrecalc rate response body H Hf Hj Hb). discriminate. }
      split; [intros H; now destruct (Hno _ H) as (_ & ? & _) |].
      split; [discriminate |].
      intros e _ H. now destruct (Hno _ H) as (_ & _ & ?). }
  destruct (expectOk NumberToString fetch (postMin state) "Failed to update min percent")
    as [[] | error] eqn:Emin; simpl.
  2:{ split; [intros r H; apply Hrecalculate, (Hrate r [postMin state]);
              [intros c Hc; rewrite !elem_of_cons, elem_of_nil in *; tauto | exact H] |].
      split; [intros; apply elem_of_app; right; now left |].
      split.
      { intros H. apply elem_of_app in H as [H | H].
        - now destruct (Hno _ H) as (_ & ? & _).
        - apply list_elem_of_singleton in H. discriminate. }
      split; [discriminate |].
      intros e _ H. apply elem_of_app in H as [H | H].
      - now destruct (Hno _ H) as (_ & _ & ?).
      - apply list_elem_of_singleton in H. discriminate. }
  destruct (expectOk NumberToString fetch (postMax state) "Failed to update max percent")
    as [[] | error] eqn:Emax; simpl.
  - split; [intros r H; apply Hrecalculate,
                          (Hrate r [postMin state; postMax state; FetchData]);
            [intros c Hc; rewrite !elem_of_cons, elem_of_nil in *; tauto | exact H] |].
    split; [intros; apply elem_of_app; right; now left |].
    split; [reflexivity |].
    split; [| discriminate].
    intros saved [= <-]. split; [reflexivity |]. split; [eauto | reflexivity].
  - split; [intros r H; apply Hrecalculate, (Hrate r [postMin state; postMax state]);
            [intros c Hc; rewrite !elem_of_cons, elem_of_nil in *; tauto | exact H] |].
    split; [intros; apply elem_of_app; right; now left |].
    split; [reflexivity |].
    split; [discriminate |].
    intros e _ H. apply elem_of_app in H as [H | H].
    + now destruct (Hno _ H) as (_ & _ & ?).
    + rewrite !elem_of_cons, elem_of_nil in H. destruct H as [? | [? | []]]; discriminate.
Qed.

End Save.

End ShopAdminFacts.

Module Witnesses.

Import Number JS Schema Review Projects Shop ReviewList LinkWrites ProjectsApi ShopAdmin.
Import Scenarios ReviewListFacts UpdateFacts ProjectsApiFacts ShopAdminFacts.
Local Open Scope float_scope.

Lemma GET_oldest_review_first_witness :
  isAdmin reviewer || isReviewer reviewer = true
  /\ Forall validDate queue
  /\ map (fun a => projectID (reviewed (formatted a))) answerBody = ["p2"; "p6"; "p1"]
  /\ StronglySorted mayPrecede answerBody.
Proof.
  assert (Hp : isAdmin reviewer || isReviewer reviewer = true) by reflexivity.
  assert (Hv : Forall validDate queue) by (repeat constructor).
  destruct (GET_oldest_review_first (Returned queue) Examples.flakyFindMany
              (fun p => Returned (Examples.fiveHours p))
              (fun p => Returned (Examples.fiveApproved p))
              reviewer queue Hp eq_refl) as (body & E & _ & _ & S).
  assert (B : answerBody = body) by (unfold answerBody, reviewAnswer; now rewrite E).
  split; [exact Hp | split; [exact Hv | split]].
  - vm_compute. reflexivity.
  - rewrite B. exact (proj1 (S Hv)).
Defined.



Lemma PUT_stops_at_unknown_link_witness :
  existingProject Examples.flaggedAdmin "p1" Examples.smallStore
  = projects Examples.smallStore !! "p1"
  /\ links Examples.smallStore !! "zz" = None
  /\ (PUT Examples.flaggedAdmin brokenRequest Examples.smallStore).2 = 500%Z
  /\ hoursOverride
       <$> links (PUT Examples.flaggedAdmin brokenRequest Examples.smallStore).1 !! "l1"
     = Some (JNum 7)
  /\ columns
       <$> projects (PUT Examples.flaggedAdmin brokenRequest Examples.smallStore).1 !! "p1"
     = Some {[ "name" := JStr "Raft" ]}.
Proof.
  split; [vm_compute; reflexivity | split; [vm_compute; reflexivity |]].
  assert (E : PUT Examples.flaggedAdmin brokenRequest Examples.smallStore
              = ({| projects :=
                      <[req_projectID brokenRequest :=
                          updatedRow Examples.flaggedAdmin brokenRequest
                            {| owner := "u1"; columns := {[ "name" := JStr "Boat" ]} |}]>
                        (projects Examples.smallStore);
                    links := (applyLinkOverrides (links Examples.smallStore)
                                [("l1", JNum 7)]).1 |},
                 500%Z)).
  { apply (PUT_stops_at_unknown_link Examples.flaggedAdmin brokenRequest
             Examples.smallStore
             {| owner := "u1"; columns := {[ "name" := JStr "Boat" ]} |}
             [("l1", JNum 7)] "zz" JNull [("l1", JNum 9)]).
    - simpl. discriminate.
    - vm_compute. reflexivity.
    - vm_compute. reflexivity.
    - vm_compute. reflexivity.
    - vm_compute. reflexivity.
    - vm_compute. reflexivity.
    - vm_compute. reflexivity. }
  rewrite E. split; [reflexivity | split]; vm_compute; reflexivity.
Defined.

Lemma rawHours_of_typed_links_witness :
  Forall overrideTyped [Examples.trackedLink; overriddenLink]
  /\ rawHoursOf (fun _ => "") (fun _ => nan) [Examples.trackedLink; overriddenLink]
     = JNum 5
  /\ ReviewList.sumRawHours [Examples.trackedLink; overriddenLink] = 8.
Proof.
  assert (H : Forall overrideTyped [Examples.trackedLink; overriddenLink])
    by (repeat constructor).
  split; [exact H |].
  destruct (rawHours_of_typed_links (fun _ => "") (fun _ => nan) _ H) as (E & _).
  split; [rewrite E |]; vm_compute; reflexivity.
Defined.

Lemma multipart_update_overwrites_witness :
  formGet renameForm "description" = None
  /\ columns
       <$> projects
             (PUT Examples.plainOwner
                  (multipartRequest readsSeven id map_to_list renameForm)
                  Examples.smallStore).1 !! "p1"
     = Some (list_to_map
               [("name", JStr "Raft"); ("description", JStr ""); ("codeUrl", JStr "");
                ("playableUrl", JStr ""); ("screenshot", JStr "");
                ("chat_enabled", JBool false)])
  /\ exists row',
       projects
         (PUT Examples.plainOwner (multipartRequest readsSeven id map_to_list renameForm)
              Examples.smallStore).1 !! "p1" = Some row'
       /\ columns row' !! "description" = Some (JStr "").
Proof.
  split; [reflexivity | split; [vm_compute; reflexivity |]].
  destruct (multipart_update_overwrites readsSeven id map_to_list Examples.plainOwner
              renameForm Examples.smallStore
              {| owner := "u1"; columns := {[ "name" := JStr "Boat" ]} |})
    as (row' & Hrow & Htext & _); [discriminate | reflexivity |].
  exists row'. split; [exact Hrow |].
  apply (Htext "description"); [repeat constructor | reflexivity].
Defined.

Lemma multipart_update_sets_numbers_witness :
  links (PUT Examples.flaggedAdmin
             (multipartRequest readsSeven id map_to_list overrideForm)
             Examples.smallStore).1 !! "l1"
  = Some (setHoursOverride Examples.trackedLink (JNum 7))
  /\ exists link,
       links Examples.smallStore !! "l1" = Some link
       /\ (JNum 7 = hoursOverride link
           \/ exists text,
                (String.append "linkOverride-" "l1", text) ∈ overrideForm
                /\ text <> "" /\ id text <> ""
                /\ isNaN (readsSeven text) = false
                /\ JNum 7 = JNum (readsSeven text)).
Proof.
  assert (L : links (PUT Examples.flaggedAdmin
                         (multipartRequest readsSeven id map_to_list overrideForm)
                         Examples.smallStore).1 !! "l1"
              = Some (setHoursOverride Examples.trackedLink (JNum 7)))
    by (vm_compute; reflexivity).
  split; [exact L |].
  apply (multipart_update_sets_numbers readsSeven id map_to_list Examples.flaggedAdmin
           overrideForm Examples.smallStore "l1" _ ltac:(intros obj [k v] H; now apply elem_of_map_to_list in H) L).
Defined.

Lemma createInput_checked_witness :
  createInput Examples.plainOwner boatBody = inr boatInput
  /\ fields boatInput !! "userId" = Some (JStr "u1")
  /\ fields boatInput !! "shipped" = Some (JBool false)
  /\ fields boatInput !! "shipped" <> Some (JBool true).
Proof.
  assert (E : createInput Examples.plainOwner boatBody = inr boatInput)
    by (vm_compute; reflexivity).
  split; [exact E |].
  destruct (createInput_checked Examples.plainOwner boatBody boatInput E)
    as (_ & _ & _ & _ & Hu & Hflags).
  split; [exact Hu | split; [vm_compute; reflexivity |]].
  apply Hflags; [reflexivity | reflexivity | repeat constructor].
Defined.

Lemma POST_answer_of_one_call_witness :
  POST brokenCreate quietLog 10 (Returned "export") (Returned Examples.plainOwner)
       boatBody 0%nat
  = (2%nat, PostError 500 "database is down")
  /\ (POST brokenCreate quietLog 200 (Returned "export") (Returned Examples.plainOwner)
           boatBody 0%nat).2
     = PostError 500 "database is down".
Proof.
  assert (E : createInput Examples.plainOwner boatBody = inr boatInput)
    by (vm_compute; reflexivity).
  destruct (POST_answer_of_one_call brokenCreate quietLog 10 (Returned "export")
              Examples.plainOwner boatBody 0%nat boatInput E ltac:(reflexivity))
    as [A S].
  destruct (POST_answer_of_one_call brokenCreate quietLog 200 (Returned "export")
              Examples.plainOwner boatBody 0%nat boatInput E ltac:(reflexivity))
    as [A' _].
  split; [| exact A'].
  apply injective_projections; [| exact A].
  apply S; [repeat constructor | eauto | eauto].
Defined.

Lemma itemStats_per_item_witness :
  ("__proto__" ∉ ["i1"; "i2"])
  /\ itemStats threeOrders ["i1"; "i2"] 1000 (Some 500) !! "i1"
     = Some {| unitsSold := 3; totalRevenue := 17; avgPrice := 6 |}
  /\ itemStats threeOrders ["i1"; "i2"] 1000 None !! "i9" = None.
Proof.
  assert (Hi : "__proto__" ∉ ["i1"; "i2"]).
  { rewrite !not_elem_of_cons. repeat split; try discriminate. apply not_elem_of_nil. }
  assert (Ho : Forall (fun order => order_itemId order <> "__proto__") threeOrders)
    by (repeat constructor; discriminate).
  split; [exact Hi |].
  destruct (itemStats_per_item 1000 (Some 500) threeOrders ["i1"; "i2"] "i1" Hi Ho)
    as (_ & S).
  destruct (itemStats_per_item 1000 None threeOrders ["i1"; "i2"] "i9" Hi Ho)
    as (_ & S').
  split.
  - destruct (S ltac:(discriminate) ltac:(discriminate)) as (_ & E).
    destruct (E ltac:(left)) as (-> & _). vm_compute. reflexivity.
  - destruct (S' ltac:(discriminate) ltac:(discriminate)) as (E & _).
    apply E. rewrite !not_elem_of_cons. repeat split; try discriminate.
    apply not_elem_of_nil.
Defined.


Lemma configPreview_shows_autoCalculatedPrice_witness :
  form_usdCost stipendForm <> ""
  /\ configPreview readsTen (fun _ => nan) stipendForm = Some (RateLinked, 16)
  /\ snd <$> configPreview readsTen (fun _ => nan) stipendForm = Some 16.
Proof.
  assert (H : form_usdCost stipendForm <> "") by discriminate.
  split; [exact H | split; [reflexivity |]].
  destruct (configPreview_shows_autoCalculatedPrice readsTen readsTen (fun _ => nan)
              stipendForm eq_refl H eq_refl) as (S & _).
  now destruct (S (Some 16) eq_refl) as (E & _).
Defined.

Lemma fixedPreview_shows_submitted_price_witness :
  (0 <? readsTen "") = false
  /\ (0 <? readsTen "0") = false
  /\ fixedPreview readsTen shellPriceFormula rateOfTen flagForm = Some (Returned 16)
  /\ exists payload,
       submit readsTen readsTen printsTen shellPriceFormula refusing None rateOfTen
              flagForm = Sent payload (Thrown "Forbidden")
       /\ payload_price payload = 16.
Proof.
  split; [reflexivity | split; [reflexivity |]].
  destruct (fixedPreview_shows_submitted_price readsTen readsTen printsTen
              shellPriceFormula refusing rateOfTen flagForm
              eq_refl eq_refl eq_refl eq_refl eq_refl) as (E & S & _).
  split; [rewrite E; reflexivity |].
  eexists. split; [reflexivity | reflexivity].
Defined.

(** Worked inputs of the facts that have no premise. *)

Example PUT_idempotent_after_failure :
  PUT Examples.flaggedAdmin brokenRequest
      (PUT Examples.flaggedAdmin brokenRequest Examples.smallStore).1
  = PUT Examples.flaggedAdmin brokenRequest Examples.smallStore
  /\ (PUT Examples.flaggedAdmin brokenRequest Examples.smallStore).2 = 500%Z.
Proof. split; vm_compute; reflexivity. Qed.

Example reviewer_cannot_edit_foreign_project :
  PUT reviewer Examples.overrideRequest Examples.smallStore
  = (Examples.smallStore, 404%Z).
Proof. reflexivity. Qed.

Example flags_two_ranges :
  itemStats threeOrders ["i1"; "i2"] 1000 None !! "i1"
  = Some {| unitsSold := 5; totalRevenue := 33; avgPrice := 7 |}
  /\ itemStats threeOrders ["i1"; "i2"] 1000 (Some 500) !! "i1"
     = Some {| unitsSold := 3; totalRevenue := 17; avgPrice := 6 |}
  /\ itemStats threeOrders ["i1"; "i2"] 1000 None !! "i2"
     = Some {| unitsSold := 0; totalRevenue := 0; avgPrice := 0 |}
  /\ itemStats threeOrders ["i1"; "i2"] 1000 None !! "i9" = None.
Proof. repeat split; vm_compute; reflexivity. Qed.

End Witnesses.
